(** * NitroML result overview ([results.py]): a shallow embedding

    Python values are embedded as an inductive type, [str] as a list of
    Unicode code points, [dict] as an insertion-ordered association
    list, exceptions as an error monad, and the dictionaries that
    [_merge_results] mutates in place as objects of an explicit heap. *)

From Stdlib Require Import ZArith NArith List String Ascii Lia Bool.
From stdpp Require Import base option list gmap.
Import ListNotations.

Set Warnings "-register-all".
Local Open Scope N_scope.

(** ** Strings *)

(** A Python [str]: the sequence of its code points. *)
Definition pystr := list N.

(** Literals of the source are written [py "..."]. *)
Definition py (s : string) : pystr :=
  List.map N_of_ascii (list_ascii_of_string s).
Arguments py s%_string.

Definition is_ascii (c : N) : bool := c <? 128.

Definition ascii_lower (c : N) : N :=
  if (65 <=? c) && (c <=? 90) then c + 32 else c.

Definition ascii_digit (c : N) : bool := (48 <=? c) && (c <=? 57).

Definition str_eqb (a b : pystr) : bool := bool_decide (a = b).

(** [s.startswith(p)]: the rest of [s] after the prefix [p]. *)
Fixpoint strip_prefix (p s : pystr) : option pystr :=
  match p, s with
  | [], _ => Some s
  | c :: p', d :: s' => if N.eqb c d then strip_prefix p' s' else None
  | _ :: _, [] => None
  end.

(** [s.split(sep)] for a one-character separator: cut at every
    occurrence, empty pieces included. *)
Fixpoint str_split (sep : N) (s : pystr) : list pystr :=
  match s with
  | [] => [[]]
  | c :: s' =>
      if N.eqb c sep then [] :: str_split sep s'
      else match str_split sep s' with
           | piece :: pieces => (c :: piece) :: pieces
           | [] => [[c]]
           end
  end.

(** [s.replace(old, '')] for a non-empty [old]: every non-overlapping
    occurrence, scanning from the left, is dropped.  [skip] counts the
    characters of the current occurrence still to be dropped. *)
Fixpoint str_remove_from (old : pystr) (skip : nat) (s : pystr) : pystr :=
  match s with
  | [] => []
  | c :: s' =>
      match skip with
      | S k => str_remove_from old k s'
      | O =>
          match strip_prefix old s with
          | Some _ => str_remove_from old (Nat.pred (length old)) s'
          | None => c :: str_remove_from old O s'
          end
      end
  end.

Definition str_remove (old s : pystr) : pystr :=
  match old with
  | [] => s
  | _ => str_remove_from old O s
  end.

(** Lexicographic order on code points, the order of [sorted] on [str]. *)
Fixpoint str_leb (a b : pystr) : bool :=
  match a, b with
  | [], _ => true
  | _ :: _, [] => false
  | c :: a', d :: b' =>
      if c <? d then true else if d <? c then false else str_leb a' b'
  end.

Fixpoint insert_sorted (x : pystr) (l : list pystr) : list pystr :=
  match l with
  | [] => [x]
  | y :: l' => if str_leb x y then x :: l else y :: insert_sorted x l'
  end.

(** [sorted(set(l))]. *)
Definition sorted_set (l : list pystr) : list pystr :=
  fold_right insert_sorted [] (remove_dups l).

(** ** Values and exceptions *)

(** The Python values the module handles.  A [float] is kept as the
    lexeme it was read from, a [datetime] as the value the clock
    interface returned for it. *)
Inductive pyval : Type :=
| PNone
| PBool (b : bool)
| PInt (z : Z)
| PFloat (lexeme : pystr)
| PStr (s : pystr)
| PList (l : list pyval)
| PTuple (l : list pyval)
| PDict (d : list (pyval * pyval))
| PDatetime (epoch : Z).

(** The exceptions that can cross the module.  [JSONDecodeError] is a
    subclass of [ValueError]. *)
Inductive exn : Type :=
| ValueError
| JSONDecodeError
| KeyError (key : pyval)
| TypeError
| AttributeError
| RecursionError
| SyntaxError
| OverflowError
| OSError.

(** [isinstance(e, ValueError)] *)
Definition is_ValueError (e : exn) : bool :=
  match e with
  | ValueError | JSONDecodeError => true
  | _ => false
  end.

Inductive result (A : Type) : Type :=
| Return (a : A)
| Raise (e : exn).
Arguments Return {A} a.
Arguments Raise {A} e.

#[global] Instance result_ret : MRet result := @Return.
#[global] Instance result_bind : MBind result :=
  fun A B f m => match m with Return a => f a | Raise e => Raise e end.
#[global] Instance result_fmap : FMap result :=
  fun A B f m => match m with Return a => Return (f a) | Raise e => Raise e end.

(** [try: body  except ValueError: handler] *)
Definition try_except_ValueError {A} (body : result A) (handler : result A)
  : result A :=
  match body with
  | Return a => Return a
  | Raise e => if is_ValueError e then handler else Raise e
  end.

(** A loop whose body can raise: [for x in l: acc = body acc x]. *)
Fixpoint for_each {A S} (body : S -> A -> result S) (l : list A) (acc : S)
  : result S :=
  match l with
  | [] => Return acc
  | x :: l' =>
      match body acc x with
      | Return acc' => for_each body l' acc'
      | Raise e => Raise e
      end
  end.

(** ** Dictionaries *)

(** A [dict]: keys in insertion order, each key once. *)
Abbreviation odict K V := (list (K * V)) (only parsing).

Section Dict.
Context {K V : Type} `{EqDecision K}.

Fixpoint dict_get (k : K) (d : odict K V) : option V :=
  match d with
  | [] => None
  | (k', v) :: d' => if bool_decide (k = k') then Some v else dict_get k d'
  end.

(** [k in d] *)
Definition dict_mem (k : K) (d : odict K V) : bool :=
  match dict_get k d with Some _ => true | None => false end.

(** [d[k] = v]: an existing key keeps its position. *)
Fixpoint dict_set (k : K) (v : V) (d : odict K V) : odict K V :=
  match d with
  | [] => [(k, v)]
  | (k', v') :: d' =>
      if bool_decide (k = k') then (k', v) :: d'
      else (k', v') :: dict_set k v d'
  end.

(** [d.update(e)] *)
Definition dict_update (d e : odict K V) : odict K V :=
  fold_left (fun acc kv => dict_set (fst kv) (snd kv) acc) e d.

Definition dict_keys (d : odict K V) : list K := List.map fst d.
Definition dict_values (d : odict K V) : list V := List.map snd d.
End Dict.

(** ** Contextual column names *)

Definition RUN_ID_KEY : pystr := py "run_id".
Definition STARTED_AT : pystr := py "started_at".
Definition BENCHMARK_FULL_KEY : pystr := py "benchmark_fullname".
Definition BENCHMARK_KEY : pystr := py "benchmark".
Definition RUN_KEY : pystr := py "run".
Definition NUM_RUNS_KEY : pystr := py "num_runs".
Definition _DEFAULT_COLUMNS : list pystr :=
  [STARTED_AT; RUN_ID_KEY; BENCHMARK_KEY; RUN_KEY; NUM_RUNS_KEY].
Definition _DATAFRAME_CONTEXTUAL_COLUMNS : list pystr :=
  [STARTED_AT; RUN_ID_KEY; BENCHMARK_FULL_KEY; BENCHMARK_KEY; RUN_KEY;
   NUM_RUNS_KEY].
Definition _TRAINER : pystr :=
  py "my_orchestrator.components.trainer.component.EstimatorTrainer".
Definition _BENCHMARK_RESULT : pystr := py "NitroML.BenchmarkResult".
Definition _TRAINER_ID : pystr := py "component_id".
Definition _TRAINER_ID_PREFIX : pystr := py "EstimatorTrainer".
Definition _HPARAMS : pystr := py "hparams".
Definition _NAME : pystr := py "name".
Definition _PRODUCER_COMPONENT : pystr := py "producer_component".
Definition _STATE : pystr := py "state".

(** ** [json.loads]

    The decoder of the standard library, on the remaining input instead
    of an index.  The code points are written in decimal:
    34 is the double quote, 92 the backslash, 44 the comma, 58 the colon,
    91 and 93 the square brackets, 123 and 125 the braces. *)

Definition json_ws (c : N) : bool :=
  (c =? 32) || (c =? 9) || (c =? 10) || (c =? 13).

Fixpoint skip_ws (s : pystr) : pystr :=
  match s with
  | c :: s' => if json_ws c then skip_ws s' else s
  | [] => []
  end.

Definition hex_digit (c : N) : option N :=
  if (48 <=? c) && (c <=? 57) then Some (c - 48)
  else if (97 <=? c) && (c <=? 102) then Some (c - 87)
  else if (65 <=? c) && (c <=? 70) then Some (c - 55)
  else None.

Definition hex4 (a b c d : N) : option N :=
  match hex_digit a, hex_digit b, hex_digit c, hex_digit d with
  | Some a, Some b, Some c, Some d => Some (((a * 16 + b) * 16 + c) * 16 + d)
  | _, _, _, _ => None
  end.

(** The one-character escapes after a backslash. *)
Definition backslash (c : N) : option N :=
  if c =? 34 then Some 34
  else if c =? 92 then Some 92
  else if c =? 47 then Some 47
  else if c =? 98 then Some 8
  else if c =? 102 then Some 12
  else if c =? 110 then Some 10
  else if c =? 114 then Some 13
  else if c =? 116 then Some 9
  else None.

Definition high_surrogate (u : N) : bool := (55296 <=? u) && (u <=? 56319).
Definition low_surrogate (u : N) : bool := (56320 <=? u) && (u <=? 57343).
Definition join_surrogates (u u2 : N) : N :=
  65536 + N.lor (N.shiftl (u - 55296) 10) (u2 - 56320).

Definition cons_str (c : N) (r : result (pystr * pystr))
  : result (pystr * pystr) :=
  match r with
  | Return (str, rest) => Return (c :: str, rest)
  | Raise e => Raise e
  end.

(** [scanstring], strict mode: the input starts after the opening quote;
    the result is the decoded string and the input after the closing
    quote. *)
Fixpoint scanstring (s : pystr) : result (pystr * pystr) :=
  match s with
  | [] => Raise JSONDecodeError
  | c :: s1 =>
      if c =? 34 then Return ([], s1)
      else if c <? 32 then Raise JSONDecodeError
      else if c =? 92 then
        match s1 with
        | [] => Raise JSONDecodeError
        | e :: s2 =>
            if e =? 117 then
              match s2 with
              | a :: b :: c' :: d :: s6 =>
                  match hex4 a b c' d with
                  | None => Raise JSONDecodeError
                  | Some uni =>
                      match s6 with
                      | bs :: u :: a2 :: b2 :: c2 :: d2 :: s12 =>
                          if high_surrogate uni && (bs =? 92) && (u =? 117)
                          then
                            match hex4 a2 b2 c2 d2 with
                            | None => Raise JSONDecodeError
                            | Some uni2 =>
                                if low_surrogate uni2
                                then cons_str (join_surrogates uni uni2)
                                       (scanstring s12)
                                else cons_str uni (scanstring s6)
                            end
                          else cons_str uni (scanstring s6)
                      | _ => cons_str uni (scanstring s6)
                      end
                  end
              | _ => Raise JSONDecodeError
              end
            else
              match backslash e with
              | Some ch => cons_str ch (scanstring s2)
              | None => Raise JSONDecodeError
              end
        end
      else cons_str c (scanstring s1)
  end.

Fixpoint take_digits (s : pystr) : pystr * pystr :=
  match s with
  | c :: s' =>
      if ascii_digit c
      then let '(ds, rest) := take_digits s' in (c :: ds, rest)
      else ([], s)
  | [] => ([], [])
  end.

Definition digits_to_Z (ds : pystr) : Z :=
  fold_left (fun acc c => (acc * 10 + Z.of_N (c - 48))%Z) ds 0%Z.

(** The integer part: an optional minus sign, then a single zero or a
    non-zero digit followed by digits. *)
Definition match_unsigned (s : pystr) : option (pystr * pystr) :=
  match s with
  | d :: s2 =>
      if d =? 48 then Some ([d], s2)
      else if ascii_digit d
      then let '(ds, rest) := take_digits s2 in Some (d :: ds, rest)
      else None
  | [] => None
  end.

Definition match_integer (s : pystr) : option (bool * pystr * pystr) :=
  match s with
  | c :: s' =>
      if c =? 45
      then match match_unsigned s' with
           | Some (ds, r) => Some (true, ds, r)
           | None => None
           end
      else match match_unsigned s with
           | Some (ds, r) => Some (false, ds, r)
           | None => None
           end
  | [] => None
  end.

(** The optional fraction: a dot and at least one digit. *)
Definition match_frac (s : pystr) : pystr * pystr :=
  match s with
  | c :: s' =>
      if c =? 46
      then match take_digits s' with
           | ([], _) => ([], s)
           | (ds, rest) => (c :: ds, rest)
           end
      else ([], s)
  | [] => ([], s)
  end.

(** The optional exponent: e or E, an optional sign, at least one
    digit. *)
Definition match_exp (s : pystr) : pystr * pystr :=
  match s with
  | e :: s' =>
      if (e =? 101) || (e =? 69)
      then
        let '(sign, s'') :=
          match s' with
          | c :: t => if (c =? 45) || (c =? 43) then ([c], t) else ([], s')
          | [] => ([], s')
          end in
        match take_digits s'' with
        | ([], _) => ([], s)
        | (ds, rest) => (e :: sign ++ ds, rest)
        end
      else ([], s)
  | [] => ([], s)
  end.

Definition match_number (s : pystr) : option (pyval * pystr) :=
  match match_integer s with
  | None => None
  | Some (neg, ds, r0) =>
      let '(frac, r1) := match_frac r0 in
      let '(exp, r2) := match_exp r1 in
      let sign := if neg then [45] else [] in
      match frac, exp with
      | [], [] =>
          Some (PInt (if neg then - digits_to_Z ds else digits_to_Z ds)%Z, r2)
      | _, _ => Some (PFloat (sign ++ ds ++ frac ++ exp), r2)
      end
  end.

Section Containers.
(** [scan_once] at the nesting level below. *)
Variable scan : pystr -> result (pyval * pystr).

(** The loop of [JSONArray]: one value, then a comma or the closing
    bracket.  Each round consumes input, so [gas] rounds are enough
    for an input of [gas] characters. *)
Fixpoint array_items (gas : nat) (s : pystr)
  : result (list pyval * pystr) :=
  match gas with
  | O => Raise JSONDecodeError
  | S g =>
      match scan s with
      | Raise e => Raise e
      | Return (v, r) =>
          match skip_ws r with
          | c :: r1 =>
              if c =? 93 then Return ([v], r1)
              else if c =? 44 then
                match array_items g (skip_ws r1) with
                | Return (vs, r2) => Return (v :: vs, r2)
                | Raise e => Raise e
                end
              else Raise JSONDecodeError
          | [] => Raise JSONDecodeError
          end
      end
  end.

Definition JSONArray (s : pystr) : result (pyval * pystr) :=
  match skip_ws s with
  | c :: r =>
      if c =? 93 then Return (PList [], r)
      else
        match array_items (length (c :: r)) (c :: r) with
        | Return (vs, r') => Return (PList vs, r')
        | Raise e => Raise e
        end
  | [] => Raise JSONDecodeError
  end.

(** The loop of [JSONObject]; the input starts after the opening quote
    of a property name. *)
Fixpoint object_items (gas : nat) (s : pystr)
  : result (list (pystr * pyval) * pystr) :=
  match gas with
  | O => Raise JSONDecodeError
  | S g =>
      match scanstring s with
      | Raise e => Raise e
      | Return (key, r) =>
          match skip_ws r with
          | c :: r1 =>
              if c =? 58 then
                match scan (skip_ws r1) with
                | Raise e => Raise e
                | Return (v, r2) =>
                    match skip_ws r2 with
                    | c2 :: r3 =>
                        if c2 =? 125 then Return ([(key, v)], r3)
                        else if c2 =? 44 then
                          match skip_ws r3 with
                          | q :: r4 =>
                              if q =? 34 then
                                match object_items g r4 with
                                | Return (kvs, r5) =>
                                    Return ((key, v) :: kvs, r5)
                                | Raise e => Raise e
                                end
                              else Raise JSONDecodeError
                          | [] => Raise JSONDecodeError
                          end
                        else Raise JSONDecodeError
                    | [] => Raise JSONDecodeError
                    end
                end
              else Raise JSONDecodeError
          | [] => Raise JSONDecodeError
          end
      end
  end.

(** [dict(pairs)]: a repeated name keeps its first position and its
    last value. *)
Definition dict_of_pairs (pairs : list (pystr * pyval))
  : list (pyval * pyval) :=
  List.map (fun kv => (PStr (fst kv), snd kv))
    (dict_update ([] : odict pystr pyval) pairs).

Definition JSONObject (s : pystr) : result (pyval * pystr) :=
  match skip_ws s with
  | c :: r =>
      if c =? 125 then Return (PDict [], r)
      else if c =? 34 then
        match object_items (length r) r with
        | Return (kvs, r') => Return (PDict (dict_of_pairs kvs), r')
        | Raise e => Raise e
        end
      else Raise JSONDecodeError
  | [] => Raise JSONDecodeError
  end.
End Containers.

(** The values without nesting: the three names, a number, and the
    three constants Python adds to JSON. *)
Definition scan_atom (s : pystr) : result (pyval * pystr) :=
  match strip_prefix (py "null") s, strip_prefix (py "true") s,
        strip_prefix (py "false") s with
  | Some rest, _, _ => Return (PNone, rest)
  | _, Some rest, _ => Return (PBool true, rest)
  | _, _, Some rest => Return (PBool false, rest)
  | None, None, None =>
      match match_number s with
      | Some res => Return res
      | None =>
          match strip_prefix (py "NaN") s,
                strip_prefix (py "Infinity") s,
                strip_prefix (py "-Infinity") s with
          | Some rest, _, _ => Return (PFloat (py "NaN"), rest)
          | _, Some rest, _ => Return (PFloat (py "Infinity"), rest)
          | _, _, Some rest => Return (PFloat (py "-Infinity"), rest)
          | None, None, None => Raise JSONDecodeError
          end
      end
  end.

(** [scan_once].  Entering an array or an object is a recursive call of
    the interpreter: [depth] is the number of such calls still allowed,
    and the decoder raises [RecursionError] when none is left. *)
Fixpoint scan_once (depth : nat) (s : pystr) : result (pyval * pystr) :=
  match s with
  | [] => Raise JSONDecodeError
  | c :: s1 =>
      if c =? 34 then
        match scanstring s1 with
        | Return (str, rest) => Return (PStr str, rest)
        | Raise e => Raise e
        end
      else if c =? 123 then
        match depth with
        | O => Raise RecursionError
        | S d => JSONObject (scan_once d) s1
        end
      else if c =? 91 then
        match depth with
        | O => Raise RecursionError
        | S d => JSONArray (scan_once d) s1
        end
      else scan_atom s
  end.

(** [JSONDecoder.decode]: white space around the value is skipped,
    anything after it is an error. *)
Definition decode (depth : nat) (s : pystr) : result pyval :=
  match scan_once depth (skip_ws s) with
  | Raise e => Raise e
  | Return (v, rest) =>
      match skip_ws rest with
      | [] => Return v
      | _ :: _ => Raise JSONDecodeError
      end
  end.

(** [json.loads(s)] for a [str]: a leading byte-order mark (code point
    65279) is refused. *)
Definition json_loads (depth : nat) (s : pystr) : result pyval :=
  match strip_prefix [65279] s with
  | Some _ => Raise JSONDecodeError
  | None => decode depth s
  end.

(** ** The metadata store

    The read-only query interface of ML Metadata, as the module uses
    it.  A property value is a protocol-buffer [Value] with one field
    set. *)

Inductive mlmd_value : Type :=
| IntValue (z : Z)
| DoubleValue (lexeme : pystr)
| StringValue (s : pystr).

(** [val.HasField('int_value')] *)
Definition has_int_value (v : mlmd_value) : bool :=
  match v with IntValue _ => true | _ => false end.

(** [val.int_value] and [val.string_value]: a field that is not set
    reads as its default. *)
Definition int_value (v : mlmd_value) : Z :=
  match v with IntValue z => z | _ => 0%Z end.
Definition string_value (v : mlmd_value) : pystr :=
  match v with StringValue s => s | _ => [] end.

Record Execution : Type := {
  ex_id : Z;
  ex_properties : odict pystr mlmd_value
}.

Record Artifact : Type := {
  art_id : Z;
  custom_properties : odict pystr mlmd_value
}.

Record Event : Type := {
  execution_id : Z;
  artifact_id : Z
}.

Record MetadataStore : Type := {
  get_executions_by_type : pystr -> list Execution;
  get_executions_by_id : list Z -> list Execution;
  get_artifacts_by_type : pystr -> list Artifact;
  get_events_by_artifact_ids : list Z -> list Event
}.

(** [ex.properties[name].string_value]: indexing a protocol-buffer map
    of messages with an absent name gives the default message. *)
Definition prop_string (ex : Execution) (name : pystr) : pystr :=
  match dict_get name (ex_properties ex) with
  | Some v => string_value v
  | None => []
  end.

(** ** Results *)

(** [_Result] by value: what the extractors build and [overview] reads.
    The extractors build every dictionary afresh, so nothing is shared
    there; sharing only matters inside [_merge_results], which is
    modelled on the heap below. *)
Record _Result_value : Type := {
  properties_of : odict pystr (odict pystr pyval);
  property_names_of : list pystr
}.

(** The body of the loop of [_merge_results], on values. *)
Definition merge_entry (properties : odict pystr (odict pystr pyval))
    (kv : pystr * odict pystr pyval) : odict pystr (odict pystr pyval) :=
  match dict_get (fst kv) properties with
  | Some own => dict_set (fst kv) (dict_update own (snd kv)) properties
  | None => dict_set (fst kv) (snd kv) properties
  end.

Definition merge_values (result1 result2 : _Result_value) : _Result_value :=
  {| properties_of :=
       fold_left merge_entry (properties_of result2) (properties_of result1);
     property_names_of :=
       property_names_of result1 ++ property_names_of result2 |}.

(** *** [_merge_results] on the heap

    A [_Result] holds references.  The heap has the dictionaries of
    results (key to reference of a property dictionary), the property
    dictionaries and the name lists. *)
Definition loc := positive.

Record heap : Type := {
  h_maps : gmap loc (odict pystr loc);
  h_props : gmap loc (odict pystr pyval);
  h_lists : gmap loc (list pystr)
}.

Record _Result : Type := {
  properties : loc;
  property_names : loc
}.

(** One round of [for key, props in result2.properties.items()], where
    [p1] is the object bound to the local name [properties]. *)
Definition merge_round (p1 : loc) (h : heap) (kv : pystr * loc)
  : option heap :=
  own ← h_maps h !! p1;
  match dict_get (fst kv) own with
  | Some target =>
      d ← h_props h !! target;
      e ← h_props h !! snd kv;
      Some {| h_maps := h_maps h;
              h_props := <[target := dict_update d e]> (h_props h);
              h_lists := h_lists h |}
  | None =>
      Some {| h_maps := <[p1 := dict_set (fst kv) (snd kv) own]> (h_maps h);
              h_props := h_props h;
              h_lists := h_lists h |}
  end.

Fixpoint merge_rounds (p1 : loc) (h : heap) (items : list (pystr * loc))
  : option heap :=
  match items with
  | [] => Some h
  | kv :: items' =>
      match merge_round p1 h kv with
      | Some h' => merge_rounds p1 h' items'
      | None => None
      end
  end.

(** [None] stands for a reference to no object, which a well-formed heap
    does not have. *)
Definition _merge_results (h : heap) (result1 result2 : _Result)
  : option (heap * _Result) :=
  let p1 := properties result1 in
  items ← h_maps h !! properties result2;
  h' ← merge_rounds p1 h items;
  names1 ← h_lists h' !! property_names result1;
  names2 ← h_lists h' !! property_names result2;
  let l := fresh (dom (h_lists h')) in
  Some ({| h_maps := h_maps h';
           h_props := h_props h';
           h_lists := <[l := names1 ++ names2]> (h_lists h') |},
        {| properties := p1; property_names := l |}).

(** The value a [_Result] stands for in a heap. *)
Fixpoint deref_props (props : gmap loc (odict pystr pyval))
    (d : odict pystr loc) : option (odict pystr (odict pystr pyval)) :=
  match d with
  | [] => Some []
  | (k, l) :: d' =>
      p ← props !! l;
      rest ← deref_props props d';
      Some ((k, p) :: rest)
  end.

Definition value_of (h : heap) (r : _Result) : option _Result_value :=
  d ← h_maps h !! properties r;
  ps ← deref_props (h_props h) d;
  names ← h_lists h !! property_names r;
  Some {| properties_of := ps; property_names_of := names |}.

(** Separation of two results, as the extractors build them: two
    distinct result dictionaries whose property dictionaries are all
    distinct objects; the second is a dictionary, each key once. *)
Definition separate (h : heap) (r1 r2 : _Result) : Prop :=
  properties r1 ≠ properties r2 ∧
  ∃ d1 d2, h_maps h !! properties r1 = Some d1 ∧
           h_maps h !! properties r2 = Some d2 ∧
           NoDup (dict_values d1 ++ dict_values d2) ∧
           NoDup (dict_keys d2).

(** ** Tables

    A [pandas.DataFrame] as far as the module uses it: labelled
    columns, rows of cells, and the name of the index once a column has
    been moved there. *)

Inductive cell : Type :=
| Val (v : pyval)
| NaN.

Record df_row : Type := {
  row_index : cell;
  row_cells : list cell
}.

Record DataFrame : Type := {
  index_name : option pystr;
  columns : list pystr;
  rows : list df_row
}.

(** The column labels of [DataFrame(list_of_dicts)]: the keys in order
    of first appearance. *)
Definition frame_columns (l : list (odict pystr pyval)) : list pystr :=
  remove_dups (concat (List.map dict_keys l)).

Definition frame_row (cols : list pystr) (i : nat) (d : odict pystr pyval)
  : df_row :=
  {| row_index := Val (PInt (Z.of_nat i));
     row_cells := List.map (fun c => match dict_get c d with
                                     | Some v => Val v
                                     | None => NaN
                                     end) cols |}.

(** [pd.DataFrame(l)] for a list of dictionaries. *)
Definition mk_DataFrame (l : list (odict pystr pyval)) : DataFrame :=
  let cols := frame_columns l in
  {| index_name := None;
     columns := cols;
     rows := imap (frame_row cols) l |}.

(** [df.empty] *)
Definition df_empty (df : DataFrame) : bool :=
  match rows df, columns df with
  | [], _ | _, [] => true
  | _, _ => false
  end.

(** [label in df] *)
Definition df_has (df : DataFrame) (label : pystr) : bool :=
  bool_decide (label ∈ columns df).

(** The position of a label among the columns. *)
Fixpoint column_position (label : pystr) (cols : list pystr) : option nat :=
  match cols with
  | [] => None
  | c :: cols' =>
      if bool_decide (label = c) then Some O
      else S <$> column_position label cols'
  end.

Definition cell_at (i : nat) (r : df_row) : cell :=
  nth i (row_cells r) NaN.

(** [df[label]], the cells of one column. *)
Definition df_get (df : DataFrame) (label : pystr) : result (list cell) :=
  match column_position label (columns df) with
  | Some i => Return (List.map (cell_at i) (rows df))
  | None => Raise (KeyError (PStr label))
  end.

Definition set_cell (i : nat) (r : df_row) (c : cell) : df_row :=
  {| row_index := row_index r; row_cells := <[i := c]> (row_cells r) |}.

Definition add_cell (r : df_row) (c : cell) : df_row :=
  {| row_index := row_index r; row_cells := row_cells r ++ [c] |}.

(** [df[label] = series], for a series with one cell per row: a new
    label becomes the last column. *)
Definition df_set (df : DataFrame) (label : pystr) (series : list cell)
  : DataFrame :=
  match column_position label (columns df) with
  | Some i =>
      {| index_name := index_name df;
         columns := columns df;
         rows := zip_with (set_cell i) (rows df) series |}
  | None =>
      {| index_name := index_name df;
         columns := columns df ++ [label];
         rows := zip_with add_cell (rows df) series |}
  end.

(** [df[labels]]: the listed columns in the listed order; the
    [KeyError] names the labels that are no column. *)
Definition df_select (df : DataFrame) (labels : list pystr)
  : result DataFrame :=
  match List.filter (fun l => negb (df_has df l)) labels with
  | [] =>
      Return
        {| index_name := index_name df;
           columns := labels;
           rows :=
             List.map
               (fun r =>
                  {| row_index := row_index r;
                     row_cells :=
                       List.map
                         (fun l => match column_position l (columns df) with
                                   | Some i => cell_at i r
                                   | None => NaN
                                   end) labels |}) (rows df) |}
  | missing => Raise (KeyError (PList (List.map PStr missing)))
  end.

(** [df.drop([label], axis=1)] for a label that is a column. *)
Definition df_drop (df : DataFrame) (label : pystr) : DataFrame :=
  match column_position label (columns df) with
  | Some i =>
      {| index_name := index_name df;
         columns := delete i (columns df);
         rows := List.map (fun r => {| row_index := row_index r;
                                       row_cells := delete i (row_cells r) |})
                   (rows df) |}
  | None => df
  end.

(** [l.remove(x)]: the first occurrence goes; [ValueError] when there
    is none. *)
Fixpoint list_remove (x : pystr) (l : list pystr) : result (list pystr) :=
  match l with
  | [] => Raise ValueError
  | y :: l' =>
      if bool_decide (x = y) then Return l'
      else match list_remove x l' with
           | Return r => Return (y :: r)
           | Raise e => Raise e
           end
  end.

(** A pattern of the kind the module uses: a sequence of one-character
    items anchored at the end of the string. *)
Inductive re_atom : Type :=
| Lit (c : N)
| Digit.

(** [$] without [re.MULTILINE]: the end of the string, or just before a
    final newline. *)
Definition at_end (s : pystr) : bool :=
  match s with
  | [] => true
  | [c] => c =? 10
  | _ => false
  end.

(** The number of digits up to which CPython converts between [str]
    and [int] under its default settings; from version 3.11 on a
    longer text is refused with a [ValueError], which [int_digits] and
    [match_number] do not model. *)
Definition int_max_str_digits : nat := 4300.

(** ** A sample interpreter

    Concrete values for the parameters of the next section, used to run
    the module on examples: an interpreter whose strings are ASCII, a
    reader of lists of plain quoted strings for [ast.literal_eval], a
    clock that accepts every integer, and a decoder that can enter 990
    nested arrays and objects, as under a recursion limit of 1000 with
    ten frames in use. *)

Definition sample_lower (s : pystr) : pystr := List.map ascii_lower s.
Definition sample_decimal (c : N) : option N := None.
Definition sample_isspace (c : N) : bool := false.
Definition sample_limit : nat := 990.

Fixpoint until_quote (q : N) (s : pystr) : option (pystr * pystr) :=
  match s with
  | [] => None
  | c :: s' =>
      if c =? q then Some ([], s')
      else match until_quote q s' with
           | Some (str, rest) => Some (c :: str, rest)
           | None => None
           end
  end.

Fixpoint quoted_items (gas : nat) (s : pystr) : option (list pyval) :=
  match gas with
  | O => None
  | S g =>
      match skip_ws s with
      | q :: s1 =>
          if (q =? 39) || (q =? 34) then
            match until_quote q s1 with
            | Some (str, rest) =>
                match skip_ws rest with
                | [c] => if c =? 93 then Some [PStr str] else None
                | c :: r =>
                    if c =? 44 then
                      match quoted_items g r with
                      | Some items => Some (PStr str :: items)
                      | None => None
                      end
                    else None
                | [] => None
                end
            | None => None
            end
          else None
      | [] => None
      end
  end.

Definition sample_literal_eval (s : pystr) : result pyval :=
  match s with
  | 91 :: r =>
      match skip_ws r with
      | [93] => Return (PList [])
      | _ =>
          match quoted_items (length r) r with
          | Some items => Return (PList items)
          | None => Raise SyntaxError
          end
      end
  | _ => Raise SyntaxError
  end.

Definition sample_fromtimestamp (n : Z) : result pyval :=
  Return (PDatetime n).

(** Aggregators given by name, and a grouping engine that leaves the
    table as it is. *)
Definition sample_aggregator : Type := pystr.
Definition sample_grouped_agg (df : DataFrame) (keys : list pystr)
    (aggs : list sample_aggregator) : result DataFrame := Return df.
Definition sample_set_index_ambiguous (df : DataFrame) (label : pystr)
  : result DataFrame := Raise ValueError.

(** ** Sample heaps and stores *)

(** Two results as the extractors would leave them on the heap: the
    first with keys "k1" and "k2", the second with keys "k2" and "k3";
    under "k2" both have the property "lr". *)
Definition sample_heap : heap :=
  {| h_maps :=
       <[10%positive := [(py "k1", 1%positive); (py "k2", 2%positive)]]>
         (<[11%positive := [(py "k2", 3%positive); (py "k3", 4%positive)]]> ∅);
     h_props :=
       <[1%positive := [(py "batch_size", PInt 256)]]>
         (<[2%positive := [(py "lr", PFloat (py "0.1")); (py "depth", PInt 3)]]>
            (<[3%positive := [(py "lr", PFloat (py "0.5"));
                              (py "accuracy", PFloat (py "0.9"))]]>
               (<[4%positive := [(py "accuracy", PFloat (py "0.8"))]]> ∅)));
     h_lists :=
       <[20%positive := [py "batch_size"; py "depth"; py "lr"]]>
         (<[21%positive := [py "accuracy"; py "lr"]]> ∅) |}.

Definition sample_result1 : _Result :=
  {| properties := 10%positive; property_names := 20%positive |}.
Definition sample_result2 : _Result :=
  {| properties := 11%positive; property_names := 21%positive |}.

Definition sample_value1 : _Result_value :=
  {| properties_of :=
       [(py "k1", [(py "batch_size", PInt 256)]);
        (py "k2", [(py "lr", PFloat (py "0.1")); (py "depth", PInt 3)])];
     property_names_of := [py "batch_size"; py "depth"; py "lr"] |}.
Definition sample_value2 : _Result_value :=
  {| properties_of :=
       [(py "k2", [(py "lr", PFloat (py "0.5"));
                   (py "accuracy", PFloat (py "0.9"))]);
        (py "k3", [(py "accuracy", PFloat (py "0.8"))])];
     property_names_of := [py "accuracy"; py "lr"] |}.

(** A store over fixed lists of records. *)
Definition mk_store (trainers executions : list Execution)
    (artifacts : list Artifact) (events : list Event) : MetadataStore :=
  {| get_executions_by_type :=
       fun t => if bool_decide (t = _TRAINER) then trainers else [];
     get_executions_by_id :=
       fun ids => List.filter (fun ex => bool_decide (ex_id ex ∈ ids))
                    executions;
     get_artifacts_by_type :=
       fun t => if bool_decide (t = _BENCHMARK_RESULT) then artifacts else [];
     get_events_by_artifact_ids :=
       fun ids => List.filter (fun ev => bool_decide (artifact_id ev ∈ ids))
                    events |}.

Definition empty_store : MetadataStore := mk_store [] [] [] [].

(** One trainer run with the run id "abc" and two hyperparameters. *)
Definition sample_trainer : Execution :=
  {| ex_id := 1;
     ex_properties :=
       [(RUN_ID_KEY, StringValue (py "abc"));
        (_HPARAMS, StringValue (py "['batch_size=256', 'lr=0.1']"));
        (_TRAINER_ID, StringValue (py "EstimatorTrainer.mnist"))] |}.

Definition trainer_store : MetadataStore :=
  mk_store [sample_trainer] [] [] [].

(** Two publisher runs of the pipeline run "7", each with one
    benchmark-result artifact for the benchmark "mnist". *)
Definition sample_publisher (id : Z) : Execution :=
  {| ex_id := id;
     ex_properties := [(RUN_ID_KEY, StringValue (py "7"))] |}.

Definition sample_artifact (id : Z) (accuracy : pystr) : Artifact :=
  {| art_id := id;
     custom_properties :=
       [(BENCHMARK_KEY, StringValue (py "mnist"));
        (py "accuracy", StringValue accuracy);
        (py "loss", StringValue (py "0.25"));
        (_NAME, StringValue (py "result"));
        (_STATE, StringValue (py "published"))] |}.

Definition sample_events : list Event :=
  [{| execution_id := 11; artifact_id := 1 |};
   {| execution_id := 12; artifact_id := 2 |}].

Definition collision_store : MetadataStore :=
  mk_store [] [sample_publisher 11; sample_publisher 12]
    [sample_artifact 1 (py "0.8"); sample_artifact 2 (py "0.9")]
    sample_events.

(** The same, with artifacts of two properties. *)
Definition small_artifact (id : Z) (accuracy : pystr) : Artifact :=
  {| art_id := id;
     custom_properties :=
       [(BENCHMARK_KEY, StringValue (py "mnist"));
        (py "accuracy", StringValue accuracy)] |}.

Definition small_collision_store : MetadataStore :=
  mk_store [] [sample_publisher 11; sample_publisher 12]
    [small_artifact 1 (py "0.8"); small_artifact 2 (py "0.9")]
    sample_events.

(** Two entries of one benchmark run twice: the second has no
    learning rate. *)
Definition sample_entries : list (odict pystr pyval) :=
  [[(RUN_ID_KEY, PStr (py "7"));
    (BENCHMARK_KEY, PStr (py "mnist.run_1_of_2"));
    (STARTED_AT, PDatetime 7);
    (RUN_KEY, PInt 1);
    (py "lr", PFloat (py "0.1"));
    (py "accuracy", PFloat (py "0.8"))];
   [(RUN_ID_KEY, PStr (py "7"));
    (BENCHMARK_KEY, PStr (py "mnist.run_2_of_2"));
    (STARTED_AT, PDatetime 7);
    (RUN_KEY, PInt 2);
    (py "accuracy", PFloat (py "0.9"))]].


Definition trainer_run (id : Z) (run_id component hparams : pystr)
  : Execution :=
  {| ex_id := id;
     ex_properties :=
       [(RUN_ID_KEY, StringValue run_id);
        (_HPARAMS, StringValue hparams);
        (_TRAINER_ID, StringValue component)] |}.


(** Three trainer runs of the run "abc": two for the benchmark "mnist",
    then one for "cifar". *)
Definition overwriting_trainer_store : MetadataStore :=
  mk_store
    [trainer_run 1 (py "abc") (py "EstimatorTrainer.mnist") (py "['lr=0.1']");
     trainer_run 2 (py "abc") (py "EstimatorTrainer.mnist") (py "['lr=0.5']");
     trainer_run 3 (py "abc") (py "EstimatorTrainer.cifar") (py "['lr=0.9']")]
    [] [] [].







(** ** The interpreter and the libraries

    What the module takes from outside the repository and this
    development does not spell out is a parameter: the Unicode tables
    beyond ASCII, the nesting the interpreter allows the JSON decoder,
    [ast.literal_eval], the clock, and the grouping engine of pandas. *)
Section Results.

(** [str.lower] on a string that is not all ASCII. *)
Variable unicode_lower : pystr -> pystr.
(** The decimal value of a code point beyond ASCII, if it is a decimal
    digit, and whether it is white space. *)
Variable unicode_decimal : N -> option N.
Variable unicode_isspace : N -> bool.
(** The number of nested arrays and objects the JSON decoder can enter
    where the module calls it, before the interpreter raises
    [RecursionError]: what the recursion limit of the interpreter
    leaves after the frames that are in use at the call. *)
Variable max_nesting : nat.
(** [ast.literal_eval] *)
Variable literal_eval : pystr -> result pyval.
(** [datetime.datetime.fromtimestamp] on an [int] *)
Variable fromtimestamp : Z -> result pyval.
(** The aggregation functions a caller can pass. *)
Variable aggregator : Type.
(** Grouping by resolved keys, aggregation, and the flattening and
    re-indexing of the aggregated table. *)
Variable grouped_agg :
  DataFrame -> list pystr -> list aggregator -> result DataFrame.
(** [set_index] on a label that several columns carry. *)
Variable set_index_ambiguous : DataFrame -> pystr -> result DataFrame.

(** [s.lower()] *)
Definition str_lower (s : pystr) : pystr :=
  if forallb is_ascii s then List.map ascii_lower s else unicode_lower s.

Definition _to_pytype (val : pystr) : result pyval :=
  try_except_ValueError
    (json_loads max_nesting (str_lower val))
    (Return (PStr val)).

(** What [for hp in hp_strings] iterates over. *)
Definition iterate (v : pyval) : result (list pyval) :=
  match v with
  | PList l | PTuple l => Return l
  | PStr s => Return (List.map (fun c => PStr [c]) s)
  | PDict d => Return (List.map fst d)
  | _ => Raise TypeError
  end.

(** [name, val = hp.split('='); hparams[name] = _to_pytype(val)]:
    unpacking into two names raises [ValueError] unless there are
    exactly two pieces. *)
Definition parse_entry (hparams : odict pystr pyval) (hp : pyval)
  : result (odict pystr pyval) :=
  match hp with
  | PStr hp =>
      match str_split 61 hp with
      | [name; val] =>
          match _to_pytype val with
          | Return v => Return (dict_set name v hparams)
          | Raise e => Raise e
          end
      | _ => Raise ValueError
      end
  | _ => Raise AttributeError
  end.

Definition _parse_hparams (hp_prop : pystr) : result (odict pystr pyval) :=
  hp_strings ← literal_eval hp_prop;
  items ← iterate hp_strings;
  for_each parse_entry items [].

(** *** [int(run_id)] *)

Definition to_ascii_decimal (c : N) : N :=
  if is_ascii c then c
  else if unicode_isspace c then 32
  else match unicode_decimal c with
       | Some d => 48 + d
       | None => 63
       end.

Definition int_space (c : N) : bool :=
  (c =? 32) || ((9 <=? c) && (c <=? 13)).

Fixpoint lstrip_space (s : pystr) : pystr :=
  match s with
  | c :: s' => if int_space c then lstrip_space s' else s
  | [] => []
  end.

(** The digits after the first one: single underscores between
    digits, then white space to the end. *)
Fixpoint int_digits (acc : Z) (s : pystr) : option Z :=
  match s with
  | [] => Some acc
  | c :: s' =>
      if ascii_digit c then int_digits (acc * 10 + Z.of_N (c - 48))%Z s'
      else if c =? 95 then
        match s' with
        | d :: _ => if ascii_digit d then int_digits acc s' else None
        | [] => None
        end
      else if forallb int_space s then Some acc else None
  end.

(** [int(s)] for a [str], base ten; [None] is [ValueError]. *)
Definition py_int (s : pystr) : option Z :=
  let s := lstrip_space (List.map to_ascii_decimal s) in
  let '(neg, s) :=
    match s with
    | c :: s' =>
        if c =? 45 then (true, s')
        else if c =? 43 then (false, s') else (false, s)
    | [] => (false, s)
    end in
  match s with
  | d :: s' =>
      if ascii_digit d
      then (fun z : Z => if neg then (- z)%Z else z)
             <$> int_digits (Z.of_N (d - 48)) s'
      else None
  | [] => None
  end.

(** The value stored under [STARTED_AT]:
    [try: fromtimestamp(int(run_id))  except ValueError: run_id]. *)
Definition started_at (run_id : pystr) : result pyval :=
  try_except_ValueError
    (match py_int run_id with
     | Some n => fromtimestamp n
     | None => Raise ValueError
     end)
    (Return (PStr run_id)).

(** *** The extractors *)

(** The body of the loop of [_get_hparams]; the state is [results]
    and the names seen so far. *)
Definition hparams_round
    (st : odict pystr (odict pystr pyval) * list pystr) (ex : Execution)
  : result (odict pystr (odict pystr pyval) * list pystr) :=
  let run_id := prop_string ex RUN_ID_KEY in
  hparams ← _parse_hparams (prop_string ex _HPARAMS);
  let hparam_names := snd st ++ dict_keys hparams in
  let hparams := dict_set RUN_ID_KEY (PStr run_id) hparams in
  let trainer_id :=
    str_remove _TRAINER_ID_PREFIX (prop_string ex _TRAINER_ID) in
  let result_key := run_id ++ trainer_id in
  let hparams := dict_set BENCHMARK_KEY (PStr (tail trainer_id)) hparams in
  started ← started_at run_id;
  let hparams := dict_set STARTED_AT started hparams in
  Return (dict_set result_key hparams (fst st), hparam_names).

Definition _get_hparams (store : MetadataStore) : result _Result_value :=
  let trainer_execs := get_executions_by_type store _TRAINER in
  st ← for_each hparams_round trainer_execs ([], []);
  Return {| properties_of := fst st;
            property_names_of := sorted_set (snd st) |}.

Definition _get_artifact_run_id_map (store : MetadataStore)
    (artifact_ids : list Z) : result (odict Z pystr) :=
  let events := get_events_by_artifact_ids store artifact_ids in
  let exec_to_artifact : odict Z Z :=
    fold_left (fun d ev => dict_set (execution_id ev) (artifact_id ev) d)
      events [] in
  let executions :=
    get_executions_by_id store (dict_keys exec_to_artifact) in
  for_each
    (fun (artifact_to_run_id : odict Z pystr) execution =>
       match dict_get (ex_id execution) exec_to_artifact with
       | Some a =>
           Return (dict_set a (prop_string execution RUN_ID_KEY)
                     artifact_to_run_id)
       | None => Raise (KeyError (PInt (ex_id execution)))
       end)
    executions [].

(** The inner loop of [_get_benchmark_results] over the custom
    properties of one artifact. *)
Definition evals_round (evals : odict pystr pyval)
    (kv : pystr * mlmd_value) : result (odict pystr pyval) :=
  if has_int_value (snd kv)
  then Return (dict_set (fst kv) (PInt (int_value (snd kv))) evals)
  else
    v ← _to_pytype (string_value (snd kv));
    Return (dict_set (fst kv) v evals).

(** The typed properties of one artifact. *)
Definition artifact_evals (artifact : Artifact)
  : result (odict pystr pyval) :=
  for_each evals_round (custom_properties artifact) [].

(** The first loop: [metrics] by artifact id, and the names seen. *)
Definition metrics_round
    (st : odict Z (odict pystr pyval) * list pystr) (artifact : Artifact)
  : result (odict Z (odict pystr pyval) * list pystr) :=
  evals ← artifact_evals artifact;
  Return (dict_set (art_id artifact) evals (fst st),
          snd st ++ dict_keys evals).

(** The second loop, for one artifact: the composite key and the
    entry stored under it. *)
Definition keyed_entry (artifact_to_run_id : odict Z pystr)
    (item : Z * odict pystr pyval) : result (pystr * odict pystr pyval) :=
  match dict_get (fst item) artifact_to_run_id with
  | None => Raise (KeyError (PInt (fst item)))
  | Some run_id =>
      let evals := dict_set RUN_ID_KEY (PStr run_id) (snd item) in
      started ← started_at run_id;
      let evals := dict_set STARTED_AT started evals in
      match dict_get BENCHMARK_KEY evals with
      | None => Raise (KeyError (PStr BENCHMARK_KEY))
      | Some (PStr benchmark) =>
          let result_key := run_id ++ py "." ++ benchmark in
          Return (result_key, evals)
      | Some _ => Raise TypeError
      end
  end.

Definition properties_round (artifact_to_run_id : odict Z pystr)
    (properties : odict pystr (odict pystr pyval))
    (item : Z * odict pystr pyval)
  : result (odict pystr (odict pystr pyval)) :=
  match keyed_entry artifact_to_run_id item with
  | Return (result_key, evals) =>
      Return (dict_set result_key evals properties)
  | Raise e => Raise e
  end.

Definition excluded_names : list pystr :=
  [_NAME; _PRODUCER_COMPONENT; _STATE] ++ _DEFAULT_COLUMNS.

Definition _get_benchmark_results (store : MetadataStore)
  : result _Result_value :=
  let publisher_artifacts := get_artifacts_by_type store _BENCHMARK_RESULT in
  st ← for_each metrics_round publisher_artifacts ([], []);
  let metrics := fst st in
  artifact_to_run_id ← _get_artifact_run_id_map store (dict_keys metrics);
  properties ← for_each (properties_round artifact_to_run_id) metrics [];
  let property_names :=
    List.filter (fun n => negb (bool_decide (n ∈ excluded_names)))
      (snd st) in
  Return {| properties_of := properties;
            property_names_of := sorted_set property_names |}.

(** *** The table builder *)

(** [\d] on a [str] pattern. *)
Definition is_decimal (c : N) : bool :=
  if is_ascii c then ascii_digit c
  else match unicode_decimal c with Some _ => true | None => false end.

Definition atom_matches (a : re_atom) (c : N) : bool :=
  match a with
  | Lit d => c =? d
  | Digit => is_decimal c
  end.

Fixpoint match_atoms (atoms : list re_atom) (s : pystr) : option pystr :=
  match atoms, s with
  | [], _ => Some s
  | a :: atoms', c :: s' =>
      if atom_matches a c then match_atoms atoms' s' else None
  | _ :: _, [] => None
  end.

Definition matches_here (atoms : list re_atom) (s : pystr) : bool :=
  match match_atoms atoms s with
  | Some rest => at_end rest
  | None => false
  end.

(** [re.sub(pattern, '', s)] for a non-empty sequence of atoms and
    [$]: the matches are found from the left and do not overlap. *)
Fixpoint re_sub_from (atoms : list re_atom) (skip : nat) (s : pystr)
  : pystr :=
  match s with
  | [] => []
  | c :: s' =>
      match skip with
      | S k => re_sub_from atoms k s'
      | O =>
          if matches_here atoms s
          then re_sub_from atoms (Nat.pred (length atoms)) s'
          else c :: re_sub_from atoms O s'
      end
  end.

(** The pattern [r'\.run_\d_of_\d$']. *)
Definition run_suffix : list re_atom :=
  List.map Lit (py ".run_") ++ [Digit] ++ List.map Lit (py "_of_")
    ++ [Digit].

(** [lambda x: re.sub(r'\.run_\d_of_\d$', '', x)] *)
Definition strip_repetition (x : cell) : result cell :=
  match x with
  | Val (PStr s) => Return (Val (PStr (re_sub_from run_suffix O s)))
  | _ => Raise TypeError
  end.

(** [series.apply(f)] *)
Fixpoint series_apply (f : cell -> result cell) (series : list cell)
  : result (list cell) :=
  match series with
  | [] => Return []
  | x :: series' =>
      match f x with
      | Raise e => Raise e
      | Return y =>
          match series_apply f series' with
          | Return ys => Return (y :: ys)
          | Raise e => Raise e
          end
      end
  end.

(** [df.set_index([label])] *)
Definition df_set_index (df : DataFrame) (label : pystr)
  : result DataFrame :=
  match column_position label (columns df) with
  | None => Raise (KeyError (PList [PStr label]))
  | Some i =>
      if bool_decide (label ∈ delete i (columns df))
      then set_index_ambiguous df label
      else
        Return
          {| index_name := Some label;
             columns := delete i (columns df);
             rows := List.map
                       (fun r => {| row_index := cell_at i r;
                                    row_cells := delete i (row_cells r) |})
                       (rows df) |}
  end.

Definition _make_dataframe (metrics_list : list (odict pystr pyval))
    (columns : list pystr) : result DataFrame :=
  let df := mk_DataFrame metrics_list in
  if negb (df_empty df) then
    full ← df_get df BENCHMARK_KEY;
    let df := df_set df BENCHMARK_FULL_KEY full in
    stripped ← series_apply strip_repetition full;
    let df := df_set df BENCHMARK_KEY stripped in
    let key_columns := _DATAFRAME_CONTEXTUAL_COLUMNS in
    key_columns ←
      (if negb (df_has df RUN_KEY)
       then list_remove RUN_KEY key_columns
       else Return key_columns);
    key_columns ←
      (if negb (df_has df NUM_RUNS_KEY)
       then list_remove NUM_RUNS_KEY key_columns
       else Return key_columns);
    df ← df_select df (key_columns ++ columns);
    df_set_index df STARTED_AT
  else Return df.

(** *** The aggregator *)

(** [df.groupby(keys)] resolves every key first: a key that is neither
    a column nor the name of the index is a [KeyError]. *)
Definition unresolved_key (df : DataFrame) (k : pystr) : bool :=
  negb (df_has df k) && negb (bool_decide (index_name df = Some k)).

Definition df_groupby_agg (df : DataFrame) (keys : list pystr)
    (aggs : list aggregator) : result DataFrame :=
  match List.find (unresolved_key df) keys with
  | Some k => Raise (KeyError (PStr k))
  | None => grouped_agg df keys aggs
  end.

Definition _aggregate_results (df : DataFrame)
    (metric_aggregators : list aggregator) (groupby_columns : list pystr)
  : result DataFrame :=
  let df := if df_has df RUN_KEY then df_drop df RUN_KEY else df in
  groupby_columns ← list_remove RUN_KEY groupby_columns;
  groupby_columns ← list_remove BENCHMARK_FULL_KEY groupby_columns;
  groupby_columns ←
    (if negb (df_has df NUM_RUNS_KEY)
     then list_remove NUM_RUNS_KEY groupby_columns
     else Return groupby_columns);
  df_groupby_agg df groupby_columns metric_aggregators.

(** *** [overview] *)

(** The entries that pass the filter of [overview], with their keys. *)
Definition qualifying (entry : odict pystr pyval) : bool :=
  (length _DEFAULT_COLUMNS <? length entry)%nat.

Definition merged (store : MetadataStore) : result _Result_value :=
  hparams_result ← _get_hparams store;
  metrics_result ← _get_benchmark_results store;
  Return (merge_values hparams_result metrics_result).

(** [metric_aggregators] is [None], or a list; an empty list is
    false like [None]. *)
Definition overview (store : MetadataStore)
    (metric_aggregators : option (list aggregator)) : result DataFrame :=
  hparams_result ← _get_hparams store;
  metrics_result ← _get_benchmark_results store;
  let result := merge_values hparams_result metrics_result in
  let results_list :=
    List.filter qualifying (dict_values (properties_of result)) in
  df ← _make_dataframe results_list (property_names_of result);
  match metric_aggregators with
  | Some (a :: aggs) =>
      _aggregate_results df (a :: aggs)
        (_DATAFRAME_CONTEXTUAL_COLUMNS ++ property_names_of hparams_result)
  | _ => Return df
  end.

(** *** Specification vocabulary *)

(** The number of opening brackets and braces of a string bounds the
    nesting the decoder can reach on it. *)
Definition is_open (c : N) : bool := (c =? 91) || (c =? 123).
Definition opens (s : pystr) : nat := length (List.filter is_open s).

(** What a scanning function at depth [d] may do on [s]: return with a
    proper suffix of [s] left, report a decode error, or run out of
    nesting, the latter only on an input with more than [d] opening
    brackets. *)
Definition scans {A} (d : nat) (s : pystr) (r : result (A * pystr))
  : Prop :=
  match r with
  | Return (_, rest) => ∃ p, p ≠ [] ∧ s = p ++ rest
  | Raise JSONDecodeError => True
  | Raise RecursionError => (d < opens s)%nat
  | Raise _ => False
  end.



(** The number of occurrences of a character in a string. *)
Definition count_char (c : N) (s : pystr) : nat :=
  length (List.filter (N.eqb c) s).

(** The repetition suffix with one-digit run index and run count. *)
Definition repetition_suffix (i n : N) : pystr :=
  py ".run_" ++ [i] ++ py "_of_" ++ [n].

(** The composite key and the entry an artifact yields, given the run
    ids of the artifacts. *)
Definition artifact_entry (artifact_to_run_id : odict Z pystr)
    (artifact : Artifact) : result (pystr * odict pystr pyval) :=
  match artifact_evals artifact with
  | Return evals => keyed_entry artifact_to_run_id (art_id artifact, evals)
  | Raise e => Raise e
  end.

(** An entry as the extractors stamp it: it holds a run id and, under
    [STARTED_AT], the start time computed from that run id. *)
Definition stamped (entry : odict pystr pyval) : Prop :=
  ∃ run_id s,
    dict_get RUN_ID_KEY entry = Some (PStr run_id)
    ∧ started_at run_id = Return s
    ∧ dict_get STARTED_AT entry = Some s.

(** The entries that [overview] hands to the table builder. *)
Definition results_list (m : _Result_value) : list (odict pystr pyval) :=
  List.filter qualifying (dict_values (properties_of m)).

(** The number of rows that come from the entry under a key. *)
Definition rows_for (key : pystr) (m : _Result_value) : nat :=
  length (List.filter
            (fun kv => bool_decide (fst kv = key) && qualifying (snd kv))
            (properties_of m)).

(** The table without rows and columns, [pd.DataFrame([])]. *)
Definition empty_table : DataFrame :=
  {| index_name := None; columns := []; rows := [] |}.

(** An item of [metrics] belongs to an artifact: it carries the id of
    the artifact and its typed properties. *)
Definition item_of (artifact : Artifact) (item : Z * odict pystr pyval)
  : Prop :=
  fst item = art_id artifact ∧ artifact_evals artifact = Return (snd item).

(** *** Vocabulary for the properties of the extractors *)

(** Strictly ascending code-point order, the order of [sorted] on a
    set of names. *)
Definition str_lt (a b : pystr) : Prop := str_leb a b = true ∧ a ≠ b.

Fixpoint strictly_ascending (l : list pystr) : Prop :=
  match l with
  | [] => True
  | x :: l' => (∀ y, y ∈ l' → str_lt x y) ∧ strictly_ascending l'
  end.

(** Whether [old] occurs in [s]. *)
Fixpoint occurs (old s : pystr) : bool :=
  match strip_prefix old s with
  | Some _ => true
  | None =>
      match s with
      | [] => false
      | _ :: s' => occurs old s'
      end
  end.

(** The composite key of a trainer execution: the run id followed by
    the component id without the prefix. *)
Definition trainer_key (ex : Execution) : pystr :=
  prop_string ex RUN_ID_KEY
    ++ str_remove _TRAINER_ID_PREFIX (prop_string ex _TRAINER_ID).

(** The entry [_get_hparams] builds from the parsed hyperparameters and
    the start time of a trainer execution. *)
Definition trainer_entry (ex : Execution) (hp : odict pystr pyval)
    (s : pyval) : odict pystr pyval :=
  dict_set STARTED_AT s
    (dict_set BENCHMARK_KEY
       (PStr (tail (str_remove _TRAINER_ID_PREFIX
                      (prop_string ex _TRAINER_ID))))
       (dict_set RUN_ID_KEY (PStr (prop_string ex RUN_ID_KEY)) hp)).

(** *** Vocabulary for the table builder *)

(** The cell of an entry under a label: its value, or the missing
    value. *)
Definition entry_cell (e : odict pystr pyval) (label : pystr) : cell :=
  match dict_get label e with
  | Some v => Val v
  | None => NaN
  end.

(** The cell the table builder puts under a label in the row of an
    entry: the benchmark name without repetition suffix under
    [BENCHMARK_KEY], the benchmark name as it is under
    [BENCHMARK_FULL_KEY], the property of the entry elsewhere. *)
Definition table_cell (e : odict pystr pyval) (label : pystr) : cell :=
  if bool_decide (label = BENCHMARK_KEY) then
    match dict_get BENCHMARK_KEY e with
    | Some (PStr b) => Val (PStr (re_sub_from run_suffix O b))
    | _ => NaN
    end
  else if bool_decide (label = BENCHMARK_FULL_KEY)
       then entry_cell e BENCHMARK_KEY
       else entry_cell e label.

Definition table_row (cols : list pystr) (e : odict pystr pyval) : df_row :=
  {| row_index := entry_cell e STARTED_AT;
     row_cells := List.map (table_cell e) cols |}.

(** The key columns of a table built from the given entries, the start
    time apart: the run and run-count columns only when some entry has
    them. *)
Definition key_columns_of (l : list (odict pystr pyval)) : list pystr :=
  [RUN_ID_KEY; BENCHMARK_FULL_KEY; BENCHMARK_KEY]
    ++ (if bool_decide (RUN_KEY ∈ frame_columns l) then [RUN_KEY] else [])
    ++ (if bool_decide (NUM_RUNS_KEY ∈ frame_columns l)
        then [NUM_RUNS_KEY] else []).

(** An entry that carries its context: it is stamped and holds a
    benchmark name that is a string. *)
Definition contextual (entry : odict pystr pyval) : Prop :=
  stamped entry ∧ ∃ b, dict_get BENCHMARK_KEY entry = Some (PStr b).

(** The dictionary [exec_to_artifact] that [_get_artifact_run_id_map]
    builds from the events. *)
Definition exec_to_artifact (events : list Event) : odict Z Z :=
  fold_left (fun d ev => dict_set (execution_id ev) (artifact_id ev) d)
    events [].

(** *** Vocabulary for the rows of the table and the run ids *)

(** The merged entries that pass the filter of [overview], with their
    keys, in the order of the merged dictionary. *)
Definition qualifying_items (m : _Result_value)
  : list (pystr * odict pystr pyval) :=
  List.filter (fun kv => qualifying (snd kv)) (properties_of m).


(** ** Facts about dictionaries *)

Section DictFacts.
Context {K V : Type} `{EqDecision K}.
Implicit Types (d e : odict K V) (k : K) (v : V).

Lemma dict_get_set k k' v d :
  dict_get k (dict_set k' v d)
  = if bool_decide (k = k') then Some v else dict_get k d.
Proof.
  induction d as [|[k0 v0] d IH]; simpl.
  - repeat case_bool_decide; congruence.
  - destruct (bool_decide (k' = k0)) eqn:E0; simpl;
      repeat case_bool_decide; subst; try congruence;
      rewrite IH; case_bool_decide; congruence.
Qed.

Lemma dict_get_set_eq k v d : dict_get k (dict_set k v d) = Some v.
Proof. rewrite dict_get_set. by case_bool_decide. Qed.

Lemma dict_get_set_ne k k' v d :
  k ≠ k' → dict_get k (dict_set k' v d) = dict_get k d.
Proof. intros. rewrite dict_get_set. by case_bool_decide. Qed.

Lemma dict_get_None k d : dict_get k d = None ↔ k ∉ dict_keys d.
Proof.
  induction d as [|[k0 v0] d IH]; simpl.
  - split; [intros _; apply not_elem_of_nil | done].
  - case_bool_decide; subst.
    + split; [done | intros Hn; exfalso; apply Hn; left].
    + rewrite IH. rewrite not_elem_of_cons. tauto.
Qed.

Lemma dict_get_Some_keys k v d : dict_get k d = Some v → k ∈ dict_keys d.
Proof.
  intros Hg. destruct (decide (k ∈ dict_keys d)) as [|Hn]; [done|].
  apply dict_get_None in Hn. congruence.
Qed.

Lemma dict_get_Some_elem k v d : dict_get k d = Some v → (k, v) ∈ d.
Proof.
  induction d as [|[k0 v0] d IH]; simpl; [done|].
  case_bool_decide; subst.
  - intros [= ->]. left.
  - intros Hg. right. auto.
Qed.

Lemma dict_keys_in k d : k ∈ dict_keys d → ∃ v, dict_get k d = Some v.
Proof.
  intros Hk. destruct (dict_get k d) eqn:E; [eauto|].
  apply dict_get_None in E. done.
Qed.

(** A new key goes to the end; an old one keeps the key list. *)
Lemma dict_set_absent k v d :
  dict_get k d = None → dict_set k v d = d ++ [(k, v)].
Proof.
  induction d as [|[k0 v0] d IH]; simpl; [done|].
  case_bool_decide; [done|]. intros Hg. by rewrite IH.
Qed.

Lemma dict_keys_set_present k v d :
  k ∈ dict_keys d → dict_keys (dict_set k v d) = dict_keys d.
Proof.
  induction d as [|[k0 v0] d IH]; simpl.
  - intros Hk. by apply elem_of_nil in Hk.
  - case_bool_decide; subst; simpl; [done|].
    intros Hk. apply elem_of_cons in Hk as [?|Hk]; [done|].
    unfold dict_keys in *. simpl. f_equal. by apply IH.
Qed.

Lemma dict_keys_set k v d :
  dict_keys (dict_set k v d)
  = if dict_mem k d then dict_keys d else dict_keys d ++ [k].
Proof.
  unfold dict_mem. destruct (dict_get k d) eqn:E.
  - apply dict_keys_set_present. by eapply dict_get_Some_keys.
  - rewrite dict_set_absent by done. unfold dict_keys.
    by rewrite map_app.
Qed.

Lemma dict_set_NoDup k v d :
  NoDup (dict_keys d) → NoDup (dict_keys (dict_set k v d)).
Proof.
  intros Hd. rewrite dict_keys_set. unfold dict_mem.
  destruct (dict_get k d) eqn:E; [done|].
  apply NoDup_app. split_and!; [done| |apply NoDup_singleton].
  intros x Hx Hx'. apply list_elem_of_singleton in Hx'. subst.
  by apply dict_get_None in E.
Qed.


Lemma dict_get_update n d e :
  NoDup (dict_keys e) →
  dict_get n (dict_update d e)
  = match dict_get n e with Some x => Some x | None => dict_get n d end.
Proof.
  unfold dict_update. revert d.
  induction e as [|[k0 v0] e IH]; intros d Hnd; simpl; [done|].
  simpl in Hnd. apply NoDup_cons in Hnd as [Hk0 Hnd].
  rewrite IH by done. rewrite dict_get_set. simpl.
  apply dict_get_None in Hk0.
  repeat case_bool_decide; subst; try congruence.
  by rewrite Hk0.
Qed.
End DictFacts.

(** ** Facts about the JSON decoder *)

Lemma opens_app p r : opens (p ++ r) = (opens p + opens r)%nat.
Proof. unfold opens. by rewrite List.filter_app, length_app. Qed.

Lemma scans_weaken {A} d s (r : result (A * pystr)) p :
  scans d s r → scans d (p ++ s) r.
Proof.
  intros Hs. destruct r as [[a rest]|e]; simpl in *.
  - destruct Hs as (q & Hq & ->). exists (p ++ q). split.
    + destruct p; [done|]. done.
    + by rewrite <- app_assoc.
  - destruct e; try done. rewrite opens_app. lia.
Qed.

Lemma scans_deeper {A} d d' s (r : result (A * pystr)) :
  (d' ≤ d)%nat → scans d s r → scans d' s r.
Proof.
  intros Hd Hs. destruct r as [[a rest]|e]; simpl in *; [done|].
  destruct e; try done. lia.
Qed.

Lemma skip_ws_suffix s : ∃ p, s = p ++ skip_ws s.
Proof.
  induction s as [|c s [p Hp]]; simpl; [by exists []|].
  destruct (json_ws c).
  - exists (c :: p). simpl. by f_equal.
  - by exists [].
Qed.

Lemma strip_prefix_Some p s r : strip_prefix p s = Some r → s = p ++ r.
Proof.
  revert s. induction p as [|c p IH]; intros [|d s]; simpl; try done.
  - by intros [= ->].
  - by intros [= ->].
  - destruct (N.eqb_spec c d); [|done]. subst. intros Hs. f_equal. auto.
Qed.

Lemma cons_str_scans d c p s r :
  scans d s r → scans d (p ++ s) (cons_str c r).
Proof.
  intros Hs. destruct r as [[str rest]|e]; simpl in *.
  - destruct Hs as (q & Hq & ->). exists (p ++ q). split.
    + destruct p; [done|]. done.
    + by rewrite <- app_assoc.
  - destruct e; try done. rewrite opens_app. lia.
Qed.

(** A string literal never makes the decoder recurse. *)
Lemma scanstring_scans d s : scans d s (scanstring s).
Proof.
  remember (length s) as n eqn:Hn. revert s Hn.
  induction n as [n IH] using lt_wf_ind. intros s Hn.
  assert (Hrec : ∀ c p t, s = p ++ t → p ≠ [] →
            scans d s (cons_str c (scanstring t))).
  { intros c p t -> Hp. apply cons_str_scans.
    eapply IH; [|done]. subst n. rewrite length_app.
    destruct p; [done|]. simpl. lia. }
  destruct s as [|c s1]; simpl; [done|].
  destruct (c =? 34). { by exists [c]. }
  destruct (c <? 32); [done|].
  destruct (c =? 92).
  - destruct s1 as [|e s2]; [done|].
    destruct (e =? 117).
    + destruct s2 as [|a [|b [|c' [|d0 s6]]]]; try done.
      destruct (hex4 a b c' d0) as [uni|]; [|done].
      pose proof (Hrec uni [c; e; a; b; c'; d0] s6 eq_refl ltac:(done)) as H6.
      destruct s6 as [|bs [|u [|a2 [|b2 [|c2 [|d2 s12]]]]]]; try exact H6.
      destruct (high_surrogate uni && (bs =? 92) && (u =? 117));
        [|exact H6].
      destruct (hex4 a2 b2 c2 d2) as [uni2|]; [|exact I].
      destruct (low_surrogate uni2); [|exact H6].
      by apply (Hrec _ [c; e; a; b; c'; d0; bs; u; a2; b2; c2; d2] s12).
    + destruct (backslash e); [|done].
      by apply (Hrec _ [c; e] s2).
  - by apply (Hrec _ [c] s1).
Qed.

Lemma take_digits_suffix s :
  ∃ p, s = p ++ snd (take_digits s) ∧ (fst (take_digits s) = [] ↔ p = []).
Proof.
  induction s as [|c s (p & Hp & Hnil)]; simpl; [by exists []|].
  destruct (ascii_digit c).
  - destruct (take_digits s) as [ds rest]. simpl in *.
    exists (c :: p). split; [simpl; by f_equal|]. split; done.
  - by exists [].
Qed.

Lemma match_unsigned_suffix s ds r :
  match_unsigned s = Some (ds, r) → ∃ p, p ≠ [] ∧ s = p ++ r.
Proof.
  destruct s as [|d0 s2]; simpl; [done|].
  destruct (d0 =? 48). { intros [= <- <-]. by exists [d0]. }
  destruct (ascii_digit d0); [|done].
  destruct (take_digits_suffix s2) as (p & Hp & _).
  destruct (take_digits s2) as [ds' rest]. simpl in *.
  intros [= <- <-]. exists (d0 :: p). split; [done|]. simpl. by f_equal.
Qed.

Lemma match_integer_suffix s neg ds r :
  match_integer s = Some (neg, ds, r) → ∃ p, p ≠ [] ∧ s = p ++ r.
Proof.
  destruct s as [|c s']; [done|]. unfold match_integer.
  destruct (c =? 45).
  - destruct (match_unsigned s') as [[ds' r']|] eqn:E; [|done].
    intros [= <- <- <-]. apply match_unsigned_suffix in E as (p & Hp & ->).
    by exists (c :: p).
  - destruct (match_unsigned (c :: s')) as [[ds' r']|] eqn:E; [|done].
    intros [= <- <- <-]. by apply match_unsigned_suffix in E.
Qed.

Lemma match_frac_suffix s : ∃ p, s = p ++ snd (match_frac s).
Proof.
  destruct s as [|c s']; simpl; [by exists []|].
  destruct (c =? 46); [|by exists []].
  destruct (take_digits_suffix s') as (p & Hp & _).
  destruct (take_digits s') as [[|d0 ds] rest]; simpl in *.
  - by exists [].
  - exists (c :: p). simpl. by f_equal.
Qed.

Lemma match_exp_suffix s : ∃ p, s = p ++ snd (match_exp s).
Proof.
  destruct s as [|e s']; simpl; [by exists []|].
  destruct ((e =? 101) || (e =? 69)); [|by exists []].
  assert (∃ q, s' = q ++ snd (match s' with
               | c :: t => if (c =? 45) || (c =? 43) then ([c], t)
                           else ([], s')
               | [] => ([], s')
               end)) as [q Hq].
  { destruct s' as [|c t]; [by exists []|].
    destruct ((c =? 45) || (c =? 43)); [by exists [c] | by exists []]. }
  destruct (match s' with
            | c :: t => if (c =? 45) || (c =? 43) then ([c], t)
                        else ([], s')
            | [] => ([], s')
            end) as [sign s'']. simpl in Hq.
  destruct (take_digits_suffix s'') as (p & Hp & _).
  destruct (take_digits s'') as [[|d0 ds] rest]; simpl in *.
  - by exists [].
  - exists (e :: q ++ p). simpl. f_equal. rewrite <- app_assoc. congruence.
Qed.

Lemma match_number_suffix s v r :
  match_number s = Some (v, r) → ∃ p, p ≠ [] ∧ s = p ++ r.
Proof.
  unfold match_number.
  destruct (match_integer s) as [[[neg ds] r0]|] eqn:E; [|done].
  apply match_integer_suffix in E as (p0 & Hp0 & ->).
  destruct (match_frac_suffix r0) as [p1 Hp1].
  destruct (match_frac r0) as [frac r1]. simpl in Hp1.
  destruct (match_exp_suffix r1) as [p2 Hp2].
  destruct (match_exp r1) as [exp r2]. simpl in Hp2.
  intros Hr. assert (r = r2) as -> by (destruct frac, exp; congruence).
  exists (p0 ++ p1 ++ p2). split.
  - destruct p0; done.
  - rewrite Hp1, Hp2 at 1. by rewrite <- !app_assoc.
Qed.

Section ContainerFacts.
Variable scan : pystr → result (pyval * pystr).
Variable d : nat.
Hypothesis scan_scans : ∀ s, scans d s (scan s).

Lemma array_items_scans gas s : scans d s (array_items scan gas s).
Proof.
  revert s. induction gas as [|g IH]; intros s; simpl; [done|].
  pose proof (scan_scans s) as Hs.
  destruct (scan s) as [[v r]|e]; [|done].
  destruct Hs as (p & Hp & ->).
  destruct (skip_ws_suffix r) as [q Hq].
  destruct (skip_ws r) as [|c r1]; [done|].
  destruct (c =? 93).
  { exists (p ++ q ++ [c]). split; [by destruct p|].
    rewrite Hq. by rewrite <- !app_assoc. }
  destruct (c =? 44); [|done].
  destruct (skip_ws_suffix r1) as [q1 Hq1].
  specialize (IH (skip_ws r1)).
  assert (Heq : p ++ r = (p ++ q ++ [c] ++ q1) ++ skip_ws r1).
  { rewrite Hq at 1. rewrite Hq1 at 1. by rewrite <- !app_assoc. }
  rewrite Heq.
  destruct (array_items scan g (skip_ws r1)) as [[vs r2]|e].
  - apply (scans_weaken (A := list pyval) d _ (Return (vs, r2))). done.
  - apply (scans_weaken (A := list pyval) d _ (Raise e)). done.
Qed.

Lemma JSONArray_scans s : scans d s (JSONArray scan s).
Proof.
  unfold JSONArray. destruct (skip_ws_suffix s) as [q Hq].
  destruct (skip_ws s) as [|c r]; [done|].
  destruct (c =? 93).
  { exists (q ++ [c]). split; [by destruct q|].
    rewrite Hq. by rewrite <- app_assoc. }
  pose proof (array_items_scans (length (c :: r)) (c :: r)) as Hs.
  rewrite Hq.
  destruct (array_items scan (length (c :: r)) (c :: r)) as [[vs r']|e].
  - apply (scans_weaken (A := pyval) d _ (Return (PList vs, r'))), Hs.
  - apply (scans_weaken (A := pyval) d _ (Raise e)), Hs.
Qed.

Lemma object_items_scans gas s : scans d s (object_items scan gas s).
Proof.
  revert s. induction gas as [|g IH]; intros s; simpl; [done|].
  pose proof (scanstring_scans d s) as Hs.
  destruct (scanstring s) as [[key r]|e]; [|done].
  destruct Hs as (p & Hp & ->).
  destruct (skip_ws_suffix r) as [q Hq].
  destruct (skip_ws r) as [|c r1]; [done|].
  destruct (c =? 58); [|done].
  destruct (skip_ws_suffix r1) as [q1 Hq1].
  pose proof (scan_scans (skip_ws r1)) as Hv.
  assert (Heq : p ++ r = (p ++ q ++ [c] ++ q1) ++ skip_ws r1).
  { rewrite Hq at 1. rewrite Hq1 at 1. by rewrite <- !app_assoc. }
  rewrite Heq. clear Heq Hq Hq1.
  destruct (scan (skip_ws r1)) as [[v r2]|e];
    [|apply (scans_weaken (A := list (pystr * pyval)) d _ (Raise e)), Hv].
  destruct Hv as (p2 & Hp2 & ->).
  destruct (skip_ws_suffix r2) as [q2 Hq2].
  destruct (skip_ws r2) as [|c2 r3]; [done|].
  destruct (c2 =? 125).
  { eexists. split; last first.
    - rewrite Hq2. rewrite !app_assoc.
      change (c2 :: r3) with ([c2] ++ r3). rewrite app_assoc. done.
    - by destruct p. }
  destruct (c2 =? 44); [|done].
  destruct (skip_ws_suffix r3) as [q3 Hq3].
  destruct (skip_ws r3) as [|qt r4]; [done|].
  destruct (qt =? 34); [|done].
  specialize (IH r4).
  assert (Heq : (p ++ q ++ [c] ++ q1) ++ p2 ++ r2
                = ((p ++ q ++ [c] ++ q1) ++ p2 ++ q2 ++ [c2] ++ q3 ++ [qt])
                    ++ r4).
  { rewrite Hq2 at 1. rewrite Hq3 at 1. by rewrite <- !app_assoc. }
  rewrite Heq.
  destruct (object_items scan g r4) as [[kvs r5]|e].
  - apply (scans_weaken (A := list (pystr * pyval)) d _
             (Return (kvs, r5))), IH.
  - apply (scans_weaken (A := list (pystr * pyval)) d _ (Raise e)), IH.
Qed.

Lemma JSONObject_scans s : scans d s (JSONObject scan s).
Proof.
  unfold JSONObject. destruct (skip_ws_suffix s) as [q Hq].
  destruct (skip_ws s) as [|c r]; [done|].
  destruct (c =? 125).
  { exists (q ++ [c]). split; [by destruct q|].
    rewrite Hq. by rewrite <- app_assoc. }
  destruct (c =? 34); [|done].
  pose proof (object_items_scans (length r) r) as Hs.
  assert (Heq : s = (q ++ [c]) ++ r) by (by rewrite Hq, <- app_assoc).
  rewrite Heq.
  destruct (object_items scan (length r) r) as [[kvs r']|e].
  - apply (scans_weaken (A := pyval) d _
             (Return (PDict (dict_of_pairs kvs), r'))), Hs.
  - apply (scans_weaken (A := pyval) d _ (Raise e)), Hs.
Qed.
End ContainerFacts.

Lemma scans_open {A} d c s (r : result (A * pystr)) :
  is_open c = true → scans d s r → scans (S d) (c :: s) r.
Proof.
  intros Hc Hs. destruct r as [[a rest]|e]; simpl in *.
  - destruct Hs as (p & Hp & ->). by exists (c :: p).
  - destruct e; try done. unfold opens in *. simpl. rewrite Hc. simpl. lia.
Qed.

Lemma scan_atom_scans d s : scans d s (scan_atom s).
Proof.
  unfold scan_atom.
  destruct (strip_prefix (py "null") s) eqn:E1.
  { apply strip_prefix_Some in E1. by exists (py "null"). }
  destruct (strip_prefix (py "true") s) eqn:E2.
  { apply strip_prefix_Some in E2. by exists (py "true"). }
  destruct (strip_prefix (py "false") s) eqn:E3.
  { apply strip_prefix_Some in E3. by exists (py "false"). }
  destruct (match_number s) as [[v r]|] eqn:E4.
  { by apply match_number_suffix in E4. }
  destruct (strip_prefix (py "NaN") s) eqn:E5.
  { apply strip_prefix_Some in E5. by exists (py "NaN"). }
  destruct (strip_prefix (py "Infinity") s) eqn:E6.
  { apply strip_prefix_Some in E6. by exists (py "Infinity"). }
  destruct (strip_prefix (py "-Infinity") s) eqn:E7; [|done].
  apply strip_prefix_Some in E7. by exists (py "-Infinity").
Qed.

Lemma scan_string_scans d c s1 :
  scans d (c :: s1)
    match scanstring s1 with
    | Return (str, rest) => Return (PStr str, rest)
    | Raise e => Raise e
    end.
Proof.
  pose proof (scanstring_scans d s1) as Hs.
  destruct (scanstring s1) as [[str rest]|e].
  - destruct Hs as (p & Hp & ->). by exists (c :: p).
  - apply (scans_weaken (A := pyval) d s1 (Raise e) [c]), Hs.
Qed.

Lemma scans_limit {A} c s :
  is_open c = true → scans (A := A) 0 (c :: s) (Raise RecursionError).
Proof. intros Hc. simpl. unfold opens. simpl. rewrite Hc. simpl. lia. Qed.

Lemma scan_once_scans d s : scans d s (scan_once d s).
Proof.
  revert s. induction d as [|d IH]; intros [|c s1]; try done;
    cbn [scan_once].
  - destruct (c =? 34); [apply scan_string_scans|].
    destruct (c =? 123) eqn:E123.
    { apply scans_limit. unfold is_open. by rewrite E123, orb_true_r. }
    destruct (c =? 91) eqn:E91.
    { apply scans_limit. unfold is_open. by rewrite E91. }
    apply scan_atom_scans.
  - destruct (c =? 34); [apply scan_string_scans|].
    destruct (c =? 123) eqn:E123.
    { apply scans_open; [unfold is_open; by rewrite E123, orb_true_r|].
      by apply JSONObject_scans. }
    destruct (c =? 91) eqn:E91.
    { apply scans_open; [unfold is_open; by rewrite E91|].
      by apply JSONArray_scans. }
    apply scan_atom_scans.
Qed.

(** The decoder raises nothing but [JSONDecodeError] and, on an input
    with more opening brackets than the limit, [RecursionError]. *)
Lemma json_loads_raises d s e :
  json_loads d s = Raise e →
  e = JSONDecodeError ∨ (e = RecursionError ∧ (d < opens s)%nat).
Proof.
  unfold json_loads, decode.
  destruct (strip_prefix [65279] s); [intros [= <-]; by left|].
  pose proof (scan_once_scans d (skip_ws s)) as Hs.
  destruct (scan_once d (skip_ws s)) as [[v rest]|e'].
  - destruct (skip_ws rest); [done|]. intros [= <-]. by left.
  - intros [= <-]. destruct e'; try done; [by left|]. right.
    split; [done|]. simpl in Hs.
    destruct (skip_ws_suffix s) as [p Hp]. rewrite Hp, opens_app. lia.
Qed.

(** *** The gas of the container loops is enough

    Every round consumes input, so the loops give the same result
    with any gas that is at least the length of the input. *)
Section Gas.
Variable scan : pystr → result (pyval * pystr).
Variable d : nat.
Hypothesis scan_scans : ∀ s, scans d s (scan s).

Lemma scan_nil : scan [] = Raise JSONDecodeError.
Proof.
  pose proof (scan_scans []) as Hs.
  destruct (scan []) as [[v r]|e]; simpl in Hs.
  - destruct Hs as (p & Hp & Heq). by destruct p.
  - destruct e; try done. unfold opens in Hs. simpl in Hs. lia.
Qed.

Lemma array_items_gas g1 g2 s :
  (length s ≤ g1)%nat → (length s ≤ g2)%nat →
  array_items scan g1 s = array_items scan g2 s.
Proof.
  revert g2 s. induction g1 as [|g1 IH]; intros [|g2] s H1 H2; simpl;
    try done.
  - destruct s; [|simpl in H1; lia]. by rewrite scan_nil.
  - destruct s; [|simpl in H2; lia]. by rewrite scan_nil.
  - pose proof (scan_scans s) as Hs.
    destruct (scan s) as [[v r]|e]; [|done].
    destruct Hs as (p & Hp & ->).
    destruct (skip_ws_suffix r) as [q Hq].
    destruct (skip_ws r) as [|c r1]; [done|].
    destruct (c =? 93); [done|]. destruct (c =? 44); [|done].
    destruct (skip_ws_suffix r1) as [q1 Hq1].
    assert (length (skip_ws r1) < length (p ++ r))%nat.
    { apply (f_equal length) in Hq, Hq1.
      rewrite length_app in Hq, Hq1. simpl in Hq.
      rewrite length_app. destruct p; [done|]. simpl. lia. }
    rewrite (IH g2 (skip_ws r1)) by lia. done.
Qed.

Lemma object_items_gas g1 g2 s :
  (length s ≤ g1)%nat → (length s ≤ g2)%nat →
  object_items scan g1 s = object_items scan g2 s.
Proof.
  revert g2 s. induction g1 as [|g1 IH]; intros [|g2] s H1 H2; simpl;
    try done.
  - by destruct s; [|simpl in H1; lia].
  - by destruct s; [|simpl in H2; lia].
  - pose proof (scanstring_scans d s) as Hs.
    destruct (scanstring s) as [[key r]|e]; [|done].
    destruct Hs as (p & Hp & ->).
    destruct (skip_ws_suffix r) as [q Hq].
    destruct (skip_ws r) as [|c r1]; [done|].
    destruct (c =? 58); [|done].
    destruct (skip_ws_suffix r1) as [q1 Hq1].
    pose proof (scan_scans (skip_ws r1)) as Hv.
    destruct (scan (skip_ws r1)) as [[v r2]|e]; [|done].
    destruct Hv as (p2 & Hp2 & Hr2).
    destruct (skip_ws_suffix r2) as [q2 Hq2].
    destruct (skip_ws r2) as [|c2 r3]; [done|].
    destruct (c2 =? 125); [done|]. destruct (c2 =? 44); [|done].
    destruct (skip_ws_suffix r3) as [q3 Hq3].
    destruct (skip_ws r3) as [|qt r4]; [done|].
    destruct (qt =? 34); [|done].
    assert (length r4 < length (p ++ r))%nat.
    { apply (f_equal length) in Hq, Hq1, Hr2, Hq2, Hq3.
      rewrite length_app in Hq, Hq1, Hr2, Hq2, Hq3.
      simpl in Hq, Hq2, Hq3.
      rewrite length_app. destruct p; [done|]. simpl. lia. }
    rewrite (IH g2 r4) by lia. done.
Qed.
End Gas.

(** ** [_to_pytype] *)


Lemma to_pytype_fallback val :
  json_loads max_nesting (str_lower val) = Raise JSONDecodeError →
  _to_pytype val = Return (PStr val).
Proof. unfold _to_pytype. by intros ->. Qed.

Lemma to_pytype_raises val e :
  _to_pytype val = Raise e →
  e = RecursionError ∧ (max_nesting < opens (str_lower val))%nat.
Proof.
  unfold _to_pytype.
  destruct (json_loads max_nesting (str_lower val)) as [v|e'] eqn:E;
    [done|].
  apply json_loads_raises in E as [->|[-> Hd]]; simpl; [done|].
  by intros [= <-].
Qed.

Lemma to_pytype_returns val :
  (opens (str_lower val) ≤ max_nesting)%nat →
  ∃ v, _to_pytype val = Return v.
Proof.
  intros Hd. destruct (_to_pytype val) as [v|e] eqn:E; [by exists v|].
  apply to_pytype_raises in E as [_ ?]. lia.
Qed.






(** On an input that does not start with a bracket or a brace the
    decoder does not look at the nesting it is allowed. *)
Lemma scan_once_flat d c s :
  is_open c = false → scan_once d (c :: s) = scan_once O (c :: s).
Proof.
  unfold is_open. intros [H91 H123]%orb_false_iff.
  destruct d; cbn [scan_once]; [done|]. by rewrite H91, H123.
Qed.

Lemma to_pytype_flat val c s :
  skip_ws (str_lower val) = c :: s → is_open c = false →
  _to_pytype val
  = try_except_ValueError (json_loads O (str_lower val))
      (Return (PStr val)).
Proof.
  intros Hs Hc. unfold _to_pytype, json_loads, decode.
  by rewrite Hs, scan_once_flat.
Qed.

(** An example on an input without brackets is settled by running the
    decoder. *)
Ltac flat_example :=
  erewrite to_pytype_flat;
  [vm_compute; reflexivity | vm_compute; reflexivity
  | vm_compute; reflexivity].

(** C6 (amended): for every input string, the only exception
    [_to_pytype] lets through is the [RecursionError] of the JSON
    decoder, raised only when the lowercased input has more opening
    brackets and braces than [max_nesting], the number of nested arrays
    and objects the interpreter lets the decoder enter at the call
    (its recursion limit less the frames in use); on an input with no
    more of them it returns a value.  Structured literals are parsed
    whatever their case ("true", "TRUE", "123", "1.5", "null", "Null"
    give a boolean, numbers and None), and a string on which the
    decoder reports an error is returned unchanged. *)
Theorem to_pytype_best_effort :
  (∀ val, (opens (str_lower val) ≤ max_nesting)%nat →
          ∃ v, _to_pytype val = Return v)
  ∧ (∀ val e, _to_pytype val = Raise e →
              e = RecursionError
              ∧ (max_nesting < opens (str_lower val))%nat)
  ∧ (∀ val, json_loads max_nesting (str_lower val)
            = Raise JSONDecodeError →
            _to_pytype val = Return (PStr val))
  ∧ _to_pytype (py "true") = Return (PBool true)
  ∧ _to_pytype (py "TRUE") = Return (PBool true)
  ∧ _to_pytype (py "123") = Return (PInt 123)
  ∧ _to_pytype (py "1.5") = Return (PFloat (py "1.5"))
  ∧ _to_pytype (py "null") = Return PNone
  ∧ _to_pytype (py "Null") = Return PNone
  ∧ _to_pytype (py "adam") = Return (PStr (py "adam")).
Proof.
  split_and!;
    [apply to_pytype_returns | apply to_pytype_raises
    | apply to_pytype_fallback | flat_example ..].
Qed.




(** ** The hyperparameter parser *)

Lemma str_split_whole sep s : count_char sep s = O → str_split sep s = [s].
Proof.
  unfold count_char. induction s as [|c s IH]; simpl; [done|].
  rewrite (N.eqb_sym sep c). destruct (c =? sep); simpl; [done|].
  intros H. by rewrite IH.
Qed.

Lemma str_split_first sep name rest :
  count_char sep name = O →
  str_split sep (name ++ sep :: rest) = name :: str_split sep rest.
Proof.
  unfold count_char. induction name as [|c name IH]; simpl.
  - by rewrite N.eqb_refl.
  - rewrite (N.eqb_sym sep c). destruct (c =? sep); simpl; [done|].
    intros H. by rewrite IH.
Qed.

Lemma str_split_length sep s :
  length (str_split sep s) = S (count_char sep s).
Proof.
  unfold count_char. induction s as [|c s IH]; simpl; [done|].
  rewrite (N.eqb_sym sep c). destruct (c =? sep); simpl.
  - by rewrite IH.
  - destruct (str_split sep s); simpl in *; lia.
Qed.

(** C2 (amended): an entry with exactly one '=' gives the name before
    it and passes the text after it to the typed-value coercion; an
    entry with no '=' or with more than one raises [ValueError],
    because the pieces of the split at every '=' are unpacked into
    exactly two names. *)
Theorem parse_entry_needs_one_equals hparams :
  (∀ name val,
     count_char 61 name = O → count_char 61 val = O →
     parse_entry hparams (PStr (name ++ 61 :: val))
     = match _to_pytype val with
       | Return v => Return (dict_set name v hparams)
       | Raise e => Raise e
       end)
  ∧ (∀ hp, count_char 61 hp ≠ 1%nat →
           parse_entry hparams (PStr hp) = Raise ValueError).
Proof.
  split.
  - intros name val Hn Hv. unfold parse_entry.
    by rewrite str_split_first, str_split_whole.
  - intros hp Hc. unfold parse_entry.
    pose proof (str_split_length 61 hp) as Hl.
    destruct (str_split 61 hp) as [|a [|b [|c l]]]; try done.
    simpl in Hl. lia.
Qed.

(** ** The repetition suffix *)

Lemma match_atoms_split atoms s rest :
  match_atoms atoms s = Some rest →
  ∃ p, s = p ++ rest ∧ length p = length atoms.
Proof.
  revert s. induction atoms as [|a atoms IH]; intros s; simpl.
  - intros [= ->]. by exists [].
  - destruct s as [|c s]; [done|].
    destruct (atom_matches a c); [|done].
    intros (p & -> & Hl)%IH. exists (c :: p). simpl. by rewrite Hl.
Qed.

Lemma at_end_inv rest : at_end rest = true → rest = [] ∨ rest = [10].
Proof.
  destruct rest as [|c [|c' rest]]; simpl; try done; [by left|].
  intros ->%N.eqb_eq. by right.
Qed.

(** Before the last eleven characters nothing matches: what is left
    after a match there ends with the digit of the run count. *)
Lemma no_match_before c name i n :
  ascii_digit n = true →
  matches_here run_suffix (c :: name ++ repetition_suffix i n) = false.
Proof.
  intros Hn. unfold matches_here.
  destruct (match_atoms run_suffix (c :: name ++ repetition_suffix i n))
    as [rest|] eqn:E; [|done].
  apply match_atoms_split in E as (p & Heq & Hl).
  destruct (at_end rest) eqn:Hend; [|done].
  exfalso. apply (f_equal (@rev N)) in Heq.
  change (c :: name ++ repetition_suffix i n)
    with ((c :: name) ++ py ".run_" ++ [i] ++ py "_of_" ++ [n]) in Heq.
  rewrite !rev_app_distr in Heq. simpl in Heq.
  apply at_end_inv in Hend as [->| ->]; simpl in Heq.
  - apply (f_equal length) in Heq. simpl in Heq.
    rewrite !length_app, !length_rev in Heq. simpl in Heq.
    change (length run_suffix) with 11%nat in Hl. lia.
  - injection Heq as Hn10 _. subst n. by vm_compute in Hn.
Qed.

Lemma run_suffix_atoms :
  run_suffix
  = [Lit 46; Lit 114; Lit 117; Lit 110; Lit 95; Digit;
     Lit 95; Lit 111; Lit 102; Lit 95; Digit].
Proof. reflexivity. Qed.

Lemma repetition_suffix_chars i n :
  repetition_suffix i n = [46; 114; 117; 110; 95; i; 95; 111; 102; 95; n].
Proof. reflexivity. Qed.

Lemma match_atoms_lit c atoms s :
  match_atoms (Lit c :: atoms) (c :: s) = match_atoms atoms s.
Proof. simpl. by rewrite N.eqb_refl. Qed.

Lemma match_atoms_digit d atoms s :
  is_decimal d = true →
  match_atoms (Digit :: atoms) (d :: s) = match_atoms atoms s.
Proof. simpl. by intros ->. Qed.

Lemma ascii_digit_decimal d : ascii_digit d = true → is_decimal d = true.
Proof.
  intros Hd. unfold is_decimal, is_ascii. rewrite Hd.
  unfold ascii_digit in Hd. apply andb_true_iff in Hd as [_ Hd].
  apply N.leb_le in Hd. destruct (N.ltb_spec d 128); [done|lia].
Qed.

Lemma re_sub_from_skip atoms k s :
  (length s ≤ k)%nat → re_sub_from atoms k s = [].
Proof.
  revert k. induction s as [|c s IH]; intros k Hk; [done|].
  destruct k as [|k]; simpl in Hk; [lia|].
  cbn [re_sub_from]. apply IH. lia.
Qed.

Lemma re_sub_from_match atoms c s :
  matches_here atoms (c :: s) = true →
  re_sub_from atoms O (c :: s)
  = re_sub_from atoms (Nat.pred (length atoms)) s.
Proof. intros H. change (re_sub_from atoms O (c :: s))
  with (if matches_here atoms (c :: s)
        then re_sub_from atoms (Nat.pred (length atoms)) s
        else c :: re_sub_from atoms O s). by rewrite H. Qed.

Lemma re_sub_from_no_match atoms c s :
  matches_here atoms (c :: s) = false →
  re_sub_from atoms O (c :: s) = c :: re_sub_from atoms O s.
Proof. intros H. change (re_sub_from atoms O (c :: s))
  with (if matches_here atoms (c :: s)
        then re_sub_from atoms (Nat.pred (length atoms)) s
        else c :: re_sub_from atoms O s). by rewrite H. Qed.

(** A suffix with one-digit index and count is stripped from every
    name. *)
Lemma strip_one_digit_suffix name i n :
  ascii_digit i = true → ascii_digit n = true →
  re_sub_from run_suffix O (name ++ repetition_suffix i n) = name.
Proof.
  intros Hi Hn. induction name as [|c name IH].
  - assert (Hm : matches_here run_suffix (repetition_suffix i n) = true).
    { unfold matches_here.
      rewrite run_suffix_atoms, repetition_suffix_chars.
      rewrite !match_atoms_lit,
        (match_atoms_digit i) by by apply ascii_digit_decimal.
      rewrite !match_atoms_lit,
        (match_atoms_digit n) by by apply ascii_digit_decimal.
      reflexivity. }
    simpl app. rewrite repetition_suffix_chars in *.
    rewrite re_sub_from_match by done. by apply re_sub_from_skip.
  - change ((c :: name) ++ repetition_suffix i n)
      with (c :: name ++ repetition_suffix i n).
    rewrite re_sub_from_no_match by by apply no_match_before.
    by rewrite IH.
Qed.

(** C1: what the table builder does to the benchmark name.  The name
    "taskA.run_3_of_10" of the claim is left unchanged, because the
    pattern asks for a single digit after "_of_"; a name without
    suffix is unchanged, "foo.run_2_of_5" becomes "foo", and of two
    suffixes only the last one goes. *)
Theorem strip_repetition_examples :
  strip_repetition (Val (PStr (py "taskA.run_3_of_10")))
  = Return (Val (PStr (py "taskA.run_3_of_10")))
  ∧ strip_repetition (Val (PStr (py "taskA")))
    = Return (Val (PStr (py "taskA")))
  ∧ strip_repetition (Val (PStr (py "foo.run_2_of_5")))
    = Return (Val (PStr (py "foo")))
  ∧ strip_repetition (Val (PStr (py "taskA.run_3_of_10.run_1_of_2")))
    = Return (Val (PStr (py "taskA.run_3_of_10"))).
Proof. split_and!; vm_compute; reflexivity. Qed.

(** ** [_merge_results] *)

Lemma deref_props_frame props props' d :
  (∀ l, l ∈ dict_values d → props' !! l = props !! l) →
  deref_props props' d = deref_props props d.
Proof.
  induction d as [|[k l] d IH]; simpl; [done|].
  intros Hf. rewrite Hf by left. rewrite IH; [done|].
  intros l' Hl'. apply Hf. by right.
Qed.

Lemma deref_props_keys props d vd :
  deref_props props d = Some vd → dict_keys vd = dict_keys d.
Proof.
  revert vd. induction d as [|[k l] d IH]; simpl; intros vd.
  - by intros [= <-].
  - destruct (props !! l) as [p|]; simpl; [|done].
    destruct (deref_props props d) as [rest|]; simpl; [|done].
    intros [= <-]. simpl. f_equal. by apply IH.
Qed.

Lemma deref_props_get props d vd k t :
  deref_props props d = Some vd → dict_get k d = Some t →
  ∃ p, props !! t = Some p ∧ dict_get k vd = Some p.
Proof.
  revert vd. induction d as [|[k0 l0] d IH]; simpl; intros vd; [done|].
  destruct (props !! l0) as [p0|] eqn:E0; simpl; [|done].
  destruct (deref_props props d) as [rest|]; simpl; [|done].
  intros [= <-]. simpl. case_bool_decide.
  - intros [= <-]. by exists p0.
  - intros Hg. by apply IH.
Qed.

Lemma deref_props_get_None props d vd k :
  deref_props props d = Some vd → dict_get k d = None →
  dict_get k vd = None.
Proof.
  intros Hd Hg. apply dict_get_None. apply dict_get_None in Hg.
  by rewrite (deref_props_keys _ _ _ Hd).
Qed.

Lemma deref_props_app props d1 d2 v1 v2 :
  deref_props props d1 = Some v1 → deref_props props d2 = Some v2 →
  deref_props props (d1 ++ d2) = Some (v1 ++ v2).
Proof.
  revert v1. induction d1 as [|[k l] d1 IH]; simpl; intros v1.
  - by intros [= <-].
  - destruct (props !! l) as [p|]; simpl; [|done].
    destruct (deref_props props d1) as [rest|]; simpl; [|done].
    intros [= <-] H2. by rewrite (IH rest eq_refl H2).
Qed.

(** Updating the one object a key refers to is setting the key. *)
Lemma deref_props_update props d vd k t x :
  deref_props props d = Some vd → dict_get k d = Some t →
  NoDup (dict_values d) →
  deref_props (<[t := x]> props) d = Some (dict_set k x vd).
Proof.
  revert vd. induction d as [|[k0 l0] d IH]; simpl; intros vd; [done|].
  destruct (props !! l0) as [p0|] eqn:E0; simpl; [|done].
  destruct (deref_props props d) as [rest|] eqn:Er; simpl; [|done].
  intros [= <-] Hg [Hl0 Hnd]%NoDup_cons. simpl. case_bool_decide.
  - injection Hg as <-. rewrite lookup_insert_eq. simpl.
    rewrite (deref_props_frame props); [by rewrite Er|].
    intros l Hl. apply lookup_insert_ne. by intros <-.
  - assert (l0 ≠ t).
    { intros ->. apply Hl0. apply dict_get_Some_elem in Hg.
      unfold dict_values. apply list_elem_of_In, in_map_iff.
      exists (k, t). split; [done|]. by apply list_elem_of_In. }
    rewrite lookup_insert_ne by done. rewrite E0. simpl.
    by rewrite (IH rest eq_refl Hg Hnd).
Qed.

Lemma dict_get_values {K V} `{EqDecision K} (k : K) (v : V) d :
  dict_get k d = Some v → v ∈ dict_values d.
Proof.
  intros Hg%dict_get_Some_elem. unfold dict_values.
  apply list_elem_of_In, in_map_iff. exists (k, v). split; [done|].
  by apply list_elem_of_In.
Qed.

(** The rounds of the loop compute [merge_entry] on the values, touch
    no other result dictionary and no name list. *)
Lemma merge_rounds_values p1 items :
  ∀ h own vown vitems,
    h_maps h !! p1 = Some own →
    deref_props (h_props h) own = Some vown →
    deref_props (h_props h) items = Some vitems →
    NoDup (dict_values own ++ dict_values items) →
    ∃ h' own',
      merge_rounds p1 h items = Some h'
      ∧ h_maps h' !! p1 = Some own'
      ∧ deref_props (h_props h') own'
        = Some (fold_left merge_entry vitems vown)
      ∧ (∀ p, p ≠ p1 → h_maps h' !! p = h_maps h !! p)
      ∧ h_lists h' = h_lists h.
Proof.
  induction items as [|[k l] items IH]; intros h own vown vitems
    Hown Hvown Hvitems Hnd.
  - simpl in *. injection Hvitems as <-. by exists h, own.
  - simpl in Hvitems.
    destruct (h_props h !! l) as [e|] eqn:El; simpl in Hvitems; [|done].
    destruct (deref_props (h_props h) items) as [vitems'|] eqn:Ei;
      simpl in Hvitems; [|done].
    injection Hvitems as <-.
    simpl in Hnd. apply NoDup_app in Hnd as (Hnd1 & Hdisj & Hnd2).
    apply NoDup_cons in Hnd2 as [Hl Hnd2].
    cbn [merge_rounds]. unfold merge_round. rewrite Hown. simpl.
    destruct (dict_get k own) as [t|] eqn:Eg.
    + destruct (deref_props_get _ _ _ _ _ Hvown Eg) as (d & Ht & Hd).
      rewrite Ht, El. simpl.
      set (h1 := {| h_maps := h_maps h;
                    h_props := <[t := dict_update d e]> (h_props h);
                    h_lists := h_lists h |}).
      assert (Ht_own : t ∈ dict_values own) by by eapply dict_get_values.
      destruct (IH h1 own (dict_set k (dict_update d e) vown) vitems')
        as (h' & own' & Hr & Hm & Hv & Hfr & Hls).
      * done.
      * by apply deref_props_update.
      * simpl. rewrite (deref_props_frame (h_props h)); [done|].
        intros l' Hl'. apply lookup_insert_ne. intros <-.
        apply (Hdisj t); [done|]. by right.
      * apply NoDup_app. split_and!; [done| |done].
        intros x Hx Hx'. apply (Hdisj x); [done|]. by right.
      * exists h', own'. split_and!; try done.
        simpl. unfold merge_entry at 2. simpl. by rewrite Hd.
    + set (h1 := {| h_maps := <[p1 := dict_set k l own]> (h_maps h);
                    h_props := h_props h;
                    h_lists := h_lists h |}).
      assert (Hkv : dict_get k vown = None)
        by by eapply deref_props_get_None.
      destruct (IH h1 (dict_set k l own) (dict_set k e vown) vitems')
        as (h' & own' & Hr & Hm & Hv & Hfr & Hls).
      * simpl. apply lookup_insert_eq.
      * simpl. rewrite !dict_set_absent by done.
        apply deref_props_app; [done|]. simpl. by rewrite El.
      * done.
      * rewrite dict_set_absent by done. unfold dict_values.
        rewrite List.map_app. simpl. rewrite <- app_assoc. simpl.
        apply NoDup_app. split_and!; [done| |by apply NoDup_cons].
        intros x Hx Hx'. by apply (Hdisj x).
      * exists h', own'. split_and!; try done.
        -- simpl. unfold merge_entry at 2. simpl. by rewrite Hkv.
        -- intros p Hp. rewrite Hfr by done. simpl.
           by apply lookup_insert_ne.
Qed.

(** The rounds write only to the property dictionaries the first
    result had at the start. *)
Lemma merge_rounds_frame p1 (targets : list loc) items :
  ∀ h own h',
    h_maps h !! p1 = Some own →
    NoDup (dict_keys items) →
    (∀ k t, dict_get k own = Some t → k ∈ dict_keys items → t ∈ targets) →
    merge_rounds p1 h items = Some h' →
    ∀ l, l ∉ targets → h_props h' !! l = h_props h !! l.
Proof.
  induction items as [|[k l0] items IH]; intros h own h' Hown Hnd Ht Hr l Hl.
  - simpl in Hr. by injection Hr as <-.
  - simpl in Hnd. apply NoDup_cons in Hnd as [Hk Hnd].
    cbn [merge_rounds] in Hr. unfold merge_round in Hr.
    rewrite Hown in Hr. simpl in Hr.
    destruct (dict_get k own) as [t|] eqn:Eg.
    + destruct (h_props h !! t) as [d|]; simpl in Hr; [|done].
      destruct (h_props h !! l0) as [e|]; simpl in Hr; [|done].
      erewrite (IH _ own h'); [| |done| |exact Hr|done].
      * simpl. apply lookup_insert_ne. intros <-. apply Hl.
        apply (Ht k); [done|]. left.
      * done.
      * intros k' t' Hg Hk'. apply (Ht k'); [done|]. by right.
    + erewrite (IH _ (dict_set k l0 own) h'); [| |done| |exact Hr|done].
      * done.
      * simpl. apply lookup_insert_eq.
      * intros k' t' Hg Hk'. rewrite dict_get_set_ne in Hg.
        -- apply (Ht k'); [done|]. by right.
        -- intros ->. done.
Qed.

Lemma value_of_inv h r v :
  value_of h r = Some v →
  ∃ d, h_maps h !! properties r = Some d
       ∧ deref_props (h_props h) d = Some (properties_of v)
       ∧ h_lists h !! property_names r = Some (property_names_of v).
Proof.
  unfold value_of.
  destruct (h_maps h !! properties r) as [d|]; simpl; [|done].
  destruct (deref_props (h_props h) d) as [ps|] eqn:Ed; simpl; [|done].
  destruct (h_lists h !! property_names r) as [names|]; simpl; [|done].
  intros [= <-]. exists d. simpl. by split_and!.
Qed.

Lemma value_of_intro h r d ps names :
  h_maps h !! properties r = Some d →
  deref_props (h_props h) d = Some ps →
  h_lists h !! property_names r = Some names →
  value_of h r = Some {| properties_of := ps; property_names_of := names |}.
Proof. unfold value_of. intros -> Hd ->. simpl. by rewrite Hd. Qed.

Lemma merge_results_spec h r1 r2 v1 v2 :
  separate h r1 r2 →
  value_of h r1 = Some v1 → value_of h r2 = Some v2 →
  ∃ h' l,
    _merge_results h r1 r2
    = Some (h', {| properties := properties r1; property_names := l |})
    ∧ (l ∉ dom (h_lists h))
    ∧ value_of h' {| properties := properties r1; property_names := l |}
      = Some (merge_values v1 v2)
    ∧ value_of h' r1
      = Some {| properties_of := properties_of (merge_values v1 v2);
                property_names_of := property_names_of v1 |}
    ∧ value_of h' r2 = Some v2
    ∧ h_maps h' !! properties r2 = h_maps h !! properties r2
    ∧ (∀ d2 t, h_maps h !! properties r2 = Some d2 →
               t ∈ dict_values d2 → h_props h' !! t = h_props h !! t)
    ∧ (∀ n, n ∈ dom (h_lists h) → h_lists h' !! n = h_lists h !! n).
Proof.
  intros (Hne & d1 & d2 & Hd1 & Hd2 & Hnd & Hkeys) Hv1 Hv2.
  apply value_of_inv in Hv1 as (d1' & Hd1' & Hps1 & Hn1).
  apply value_of_inv in Hv2 as (d2' & Hd2' & Hps2 & Hn2).
  assert (d1' = d1) as -> by congruence.
  assert (d2' = d2) as -> by congruence.
  destruct (merge_rounds_values (properties r1) d2 h d1
              (properties_of v1) (properties_of v2))
    as (h' & own' & Hr & Hm & Hv & Hfr & Hls); try done.
  pose proof (merge_rounds_frame (properties r1) (dict_values d1) d2
                h d1 h' Hd1 Hkeys) as Hprops.
  specialize (Hprops
    ltac:(intros k t Hg _; by eapply dict_get_values) Hr).
  set (l := fresh (dom (h_lists h'))).
  assert (Hl : l ∉ dom (h_lists h)) by (rewrite <- Hls; apply is_fresh).
  assert (Hl1 : property_names r1 ≠ l).
  { intros Heq. apply Hl. rewrite <- Heq. apply elem_of_dom. eauto. }
  assert (Hl2 : property_names r2 ≠ l).
  { intros Heq. apply Hl. rewrite <- Heq. apply elem_of_dom. eauto. }
  assert (Hd2_frame : ∀ t, t ∈ dict_values d2 →
            h_props h' !! t = h_props h !! t).
  { intros t Ht. apply Hprops. intros Ht1.
    apply NoDup_app in Hnd as (_ & Hdisj & _). by apply (Hdisj t). }
  eexists _, l. split_and!.
  - unfold _merge_results. rewrite Hd2. simpl. rewrite Hr. simpl.
    rewrite Hls, Hn1, Hn2. simpl. rewrite <- Hls. reflexivity.
  - done.
  - eapply value_of_intro; simpl; [done|done|]. apply lookup_insert_eq.
  - eapply value_of_intro; simpl; [done|done|].
    rewrite lookup_insert_ne by done. by rewrite Hls.
  - destruct v2 as [ps2 names2]. simpl in *.
    eapply value_of_intro; simpl.
    + by rewrite Hfr.
    + by rewrite (deref_props_frame (h_props h)).
    + rewrite lookup_insert_ne by done. by rewrite Hls.
  - simpl. by apply Hfr.
  - simpl. intros d2' t Hd2'' Ht. apply Hd2_frame. congruence.
  - simpl. intros n Hn. rewrite lookup_insert_ne; [by rewrite Hls|].
    subst l. intros Heq. apply Hl. rewrite Heq. exact Hn.
Qed.

Lemma merge_entry_get (A : odict pystr (odict pystr pyval)) kv k :
  dict_get k (merge_entry A kv)
  = if bool_decide (k = fst kv)
    then Some (match dict_get (fst kv) A with
               | Some a => dict_update a (snd kv)
               | None => snd kv
               end)
    else dict_get k A.
Proof.
  unfold merge_entry. destruct (dict_get kv.1 A); by rewrite dict_get_set.
Qed.

(** What a key holds after the merge. *)
Lemma merge_get (B A : odict pystr (odict pystr pyval)) k :
  NoDup (dict_keys B) →
  dict_get k (fold_left merge_entry B A)
  = match dict_get k A, dict_get k B with
    | Some a, Some b => Some (dict_update a b)
    | Some a, None => Some a
    | None, Some b => Some b
    | None, None => None
    end.
Proof.
  revert A. induction B as [|[k0 b0] B IH]; intros A Hnd.
  - simpl. by destruct (dict_get k A).
  - simpl in Hnd. apply NoDup_cons in Hnd as [Hk0 Hnd].
    cbn [fold_left]. rewrite IH by done. rewrite merge_entry_get.
    cbn [dict_get fst snd]. case_bool_decide.
    + subst k0. apply dict_get_None in Hk0. rewrite Hk0.
      by destruct (dict_get k A).
    + done.
Qed.


(** C4: the merged result has the keys of both results; under a key
    of both, the property map is the union of the two maps, the
    second result's value winning on a property name of both; a key
    of one result keeps its map; the name list is the first list
    followed by the second, nothing removed. *)
Theorem merge_results_union h r1 r2 v1 v2 :
  separate h r1 r2 →
  value_of h r1 = Some v1 → value_of h r2 = Some v2 →
  ∃ h' r v,
    _merge_results h r1 r2 = Some (h', r)
    ∧ value_of h' r = Some v
    ∧ (∀ k, k ∈ dict_keys (properties_of v)
            ↔ k ∈ dict_keys (properties_of v1)
              ∨ k ∈ dict_keys (properties_of v2))
    ∧ (∀ k a b,
         dict_get k (properties_of v1) = Some a →
         dict_get k (properties_of v2) = Some b →
         NoDup (dict_keys b) →
         ∃ m, dict_get k (properties_of v) = Some m
              ∧ ∀ n, dict_get n m
                     = match dict_get n b with
                       | Some x => Some x
                       | None => dict_get n a
                       end)
    ∧ (∀ k a,
         dict_get k (properties_of v1) = Some a →
         dict_get k (properties_of v2) = None →
         dict_get k (properties_of v) = Some a)
    ∧ (∀ k b,
         dict_get k (properties_of v1) = None →
         dict_get k (properties_of v2) = Some b →
         dict_get k (properties_of v) = Some b)
    ∧ property_names_of v = property_names_of v1 ++ property_names_of v2.
Proof.
  intros Hsep Hv1 Hv2.
  destruct (merge_results_spec h r1 r2 v1 v2 Hsep Hv1 Hv2)
    as (h' & l & Hm & _ & Hv & _).
  assert (Hnd : NoDup (dict_keys (properties_of v2))).
  { destruct Hsep as (_ & d1 & d2 & _ & Hd2 & _ & Hk).
    apply value_of_inv in Hv2 as (d2' & Hd2' & Hps2 & _).
    assert (d2' = d2) as -> by congruence.
    by rewrite (deref_props_keys _ _ _ Hps2). }
  eexists _, _, _. split; [exact Hm|]. split; [exact Hv|].
  unfold merge_values. cbn [properties_of property_names_of]. split_and!.
  - intros k. pose proof (merge_get (properties_of v2) (properties_of v1)
                             k Hnd) as Hg.
    split.
    + intros [m Hk]%dict_keys_in.
      destruct (dict_get k (properties_of v1)) eqn:E1;
        [left; by eapply dict_get_Some_keys|].
      destruct (dict_get k (properties_of v2)) eqn:E2;
        [right; by eapply dict_get_Some_keys|].
      congruence.
    + intros Hk.
      destruct (dict_get k (fold_left merge_entry (properties_of v2)
                              (properties_of v1))) eqn:E.
      { by eapply dict_get_Some_keys. }
      exfalso.
      destruct Hk as [[a Ha]%dict_keys_in|[b Hb]%dict_keys_in].
      * rewrite Ha in Hg. by destruct (dict_get k (properties_of v2)).
      * rewrite Hb in Hg. by destruct (dict_get k (properties_of v1)).
  - intros k a b Ha Hb Hndb. rewrite merge_get, Ha, Hb by done.
    eexists. split; [done|]. intros n. by apply dict_get_update.
  - intros k a Ha Hb. by rewrite merge_get, Ha, Hb.
  - intros k b Ha Hb. by rewrite merge_get, Ha, Hb.
  - done.
Qed.

(** ** Loops *)

Lemma bind_Return {A B} (f : A → result B) (m : result A) b :
  m ≫= f = Return b → ∃ a, m = Return a ∧ f a = Return b.
Proof. destruct m as [a|e]; [|done]. intros H. by exists a. Qed.

Lemma for_each_app {A S} (body : S → A → result S) l1 l2 st :
  for_each body (l1 ++ l2) st
  = match for_each body l1 st with
    | Return st1 => for_each body l2 st1
    | Raise e => Raise e
    end.
Proof.
  revert st. induction l1 as [|x l1 IH]; intros st; simpl; [done|].
  destruct (body st x); [apply IH|done].
Qed.

(** An invariant of the state that every round keeps holds at the end
    of a loop that returns. *)
Lemma for_each_invariant {A S} (body : S → A → result S) (P : S → Prop)
    l st st' :
  (∀ s x s', body s x = Return s' → P s → P s') →
  for_each body l st = Return st' → P st → P st'.
Proof.
  intros Hbody. revert st. induction l as [|x l IH]; intros st; simpl.
  - by intros [= <-].
  - destruct (body st x) as [s1|] eqn:E; [|done]. eauto.
Qed.

(** A loop whose rounds all return, returns. *)
Lemma for_each_returns {A S} (body : S → A → result S) l st :
  (∀ s x, x ∈ l → ∃ s', body s x = Return s') →
  ∃ st', for_each body l st = Return st'.
Proof.
  revert st. induction l as [|x l IH]; intros st Hbody; simpl; [eauto|].
  destruct (Hbody st x) as [s1 ->]; [left|].
  apply IH. intros s y Hy. apply Hbody. by right.
Qed.

(** ** The start time *)

Lemma started_at_literal run_id :
  py_int run_id = None → started_at run_id = Return (PStr run_id).
Proof. unfold started_at. by intros ->. Qed.

Lemma stamped_literal entry run_id :
  stamped entry → py_int run_id = None →
  dict_get RUN_ID_KEY entry = Some (PStr run_id) →
  dict_get STARTED_AT entry = Some (PStr run_id).
Proof.
  intros (rid & s & Hr & Hs & Hst) Hint Hrun.
  assert (rid = run_id) as -> by congruence.
  rewrite started_at_literal in Hs by done. congruence.
Qed.

Lemma contextual_keys_distinct :
  RUN_ID_KEY ≠ STARTED_AT ∧ RUN_ID_KEY ≠ BENCHMARK_KEY
  ∧ BENCHMARK_KEY ≠ STARTED_AT.
Proof. split_and!; by vm_compute. Qed.

(** What a round of [_get_hparams] stores. *)
Lemma hparams_round_inv st ex st' :
  hparams_round st ex = Return st' →
  ∃ hp s,
    _parse_hparams (prop_string ex _HPARAMS) = Return hp
    ∧ started_at (prop_string ex RUN_ID_KEY) = Return s
    ∧ st' =
      (dict_set
         (prop_string ex RUN_ID_KEY
            ++ str_remove _TRAINER_ID_PREFIX (prop_string ex _TRAINER_ID))
         (dict_set STARTED_AT s
            (dict_set BENCHMARK_KEY
               (PStr (tail (str_remove _TRAINER_ID_PREFIX
                              (prop_string ex _TRAINER_ID))))
               (dict_set RUN_ID_KEY (PStr (prop_string ex RUN_ID_KEY)) hp)))
         (fst st),
       snd st ++ dict_keys hp).
Proof.
  unfold hparams_round.
  intros (hp & Hhp & H)%bind_Return.
  apply bind_Return in H as (s & Hs & H).
  injection H as <-. by exists hp, s.
Qed.

Lemma stamped_intro s run_id (d : odict pystr pyval) :
  started_at run_id = Return s →
  dict_get RUN_ID_KEY d = Some (PStr run_id) →
  stamped (dict_set STARTED_AT s d).
Proof.
  intros Hs Hr. exists run_id, s. split_and!; [|done|].
  - rewrite dict_get_set_ne; [done|]. apply contextual_keys_distinct.
  - apply dict_get_set_eq.
Qed.

Lemma hparams_round_stamped st ex st' :
  hparams_round st ex = Return st' →
  (∀ k e, dict_get k (fst st) = Some e → stamped e) →
  (∀ k e, dict_get k (fst st') = Some e → stamped e).
Proof.
  intros (hp & s & _ & Hs & ->)%hparams_round_inv Hst k e. simpl.
  rewrite dict_get_set. case_bool_decide; [|apply Hst].
  intros [= <-]. eapply stamped_intro; [done|].
  rewrite dict_get_set_ne by apply contextual_keys_distinct.
  apply dict_get_set_eq.
Qed.

Lemma get_hparams_stamped store r k e :
  _get_hparams store = Return r →
  dict_get k (properties_of r) = Some e → stamped e.
Proof.
  unfold _get_hparams. intros (st & Hloop & [= <-])%bind_Return. simpl.
  revert k e.
  apply (for_each_invariant hparams_round
           (λ st, ∀ k e, dict_get k (fst st) = Some e → stamped e)
           _ _ _ hparams_round_stamped Hloop).
  done.
Qed.

(** What the second loop of [_get_benchmark_results] yields for one
    artifact. *)
Lemma keyed_entry_inv a2r item key entry :
  keyed_entry a2r item = Return (key, entry) →
  ∃ run_id s benchmark,
    dict_get (fst item) a2r = Some run_id
    ∧ started_at run_id = Return s
    ∧ entry = dict_set STARTED_AT s
                (dict_set RUN_ID_KEY (PStr run_id) (snd item))
    ∧ dict_get BENCHMARK_KEY entry = Some (PStr benchmark)
    ∧ key = run_id ++ py "." ++ benchmark.
Proof.
  unfold keyed_entry.
  destruct (dict_get (fst item) a2r) as [run_id|]; [|done].
  intros (s & Hs & H)%bind_Return.
  destruct (dict_get BENCHMARK_KEY _) as [[| | | |b| | | |]|] eqn:Eb;
    try done.
  injection H as <- <-. by exists run_id, s, b.
Qed.

Lemma keyed_entry_stamped a2r item key entry :
  keyed_entry a2r item = Return (key, entry) → stamped entry.
Proof.
  intros (run_id & s & b & _ & Hs & -> & _)%keyed_entry_inv.
  eapply stamped_intro; [done|]. apply dict_get_set_eq.
Qed.


Lemma get_benchmark_results_inv store r :
  _get_benchmark_results store = Return r →
  ∃ st a2r,
    for_each metrics_round
      (get_artifacts_by_type store _BENCHMARK_RESULT) ([], []) = Return st
    ∧ _get_artifact_run_id_map store (dict_keys (fst st)) = Return a2r
    ∧ for_each (properties_round a2r) (fst st) [] = Return (properties_of r).
Proof.
  unfold _get_benchmark_results.
  intros (st & Hst & H)%bind_Return.
  apply bind_Return in H as (a2r & Ha & H).
  apply bind_Return in H as (props & Hp & H).
  injection H as <-. by exists st, a2r.
Qed.


(** ** The table builder keeps one row per entry *)

Lemma mk_DataFrame_rows l : length (rows (mk_DataFrame l)) = length l.
Proof. unfold mk_DataFrame. simpl. apply length_imap. Qed.

Lemma df_get_length df label series :
  df_get df label = Return series → length series = length (rows df).
Proof.
  unfold df_get. destruct (column_position label (columns df)); [|done].
  intros [= <-]. apply List.length_map.
Qed.

Lemma df_set_rows df label series :
  length series = length (rows df) →
  length (rows (df_set df label series)) = length (rows df).
Proof.
  intros Hl. unfold df_set.
  destruct (column_position label (columns df)); simpl;
    rewrite length_zip_with; lia.
Qed.

Lemma series_apply_length f series out :
  series_apply f series = Return out → length out = length series.
Proof.
  revert out. induction series as [|x series IH]; intros out; simpl.
  - by intros [= <-].
  - destruct (f x); [|done].
    destruct (series_apply f series) as [ys|]; [|done].
    intros [= <-]. simpl. f_equal. by apply IH.
Qed.

Lemma df_select_inv df labels df' :
  df_select df labels = Return df' →
  columns df' = labels ∧ length (rows df') = length (rows df).
Proof.
  unfold df_select.
  destruct (List.filter _ labels); [|done].
  intros [= <-]. simpl. split; [done|]. apply List.length_map.
Qed.

(** The key columns start with the start time, which comes once. *)
Lemma key_columns_shape (b1 b2 : bool) kc1 kc2 :
  (if b1 then list_remove RUN_KEY _DATAFRAME_CONTEXTUAL_COLUMNS
   else Return _DATAFRAME_CONTEXTUAL_COLUMNS) = Return kc1 →
  (if b2 then list_remove NUM_RUNS_KEY kc1 else Return kc1) = Return kc2 →
  ∃ rest, kc2 = STARTED_AT :: rest ∧ STARTED_AT ∉ rest.
Proof.
  intros H1 H2.
  assert (Hno : ∀ rest : list pystr,
            forallb (λ c, negb (bool_decide (c = STARTED_AT))) rest = true →
            STARTED_AT ∉ rest).
  { intros rest Hf Hin. rewrite forallb_forall in Hf.
    apply list_elem_of_In, Hf, negb_true_iff, bool_decide_eq_false in Hin.
    done. }
  destruct b1; vm_compute in H1; injection H1 as <-;
    destruct b2; vm_compute in H2; injection H2 as <-;
    (eexists; split; [reflexivity|]); apply Hno; reflexivity.
Qed.

Lemma df_set_index_rows df rest cols df' :
  columns df = STARTED_AT :: rest ++ cols →
  STARTED_AT ∉ rest → STARTED_AT ∉ cols →
  df_set_index df STARTED_AT = Return df' →
  length (rows df') = length (rows df) ∧ index_name df' = Some STARTED_AT.
Proof.
  intros Hc Hr Hcols. unfold df_set_index. rewrite Hc.
  cbn [column_position]. rewrite bool_decide_eq_true_2 by done.
  cbn [delete list_delete]. rewrite bool_decide_eq_false_2.
  - intros [= <-]. simpl. split; [apply List.length_map|done].
  - rewrite elem_of_app. tauto.
Qed.

Lemma make_dataframe_rows metrics_list cols df :
  _make_dataframe metrics_list cols = Return df →
  STARTED_AT ∉ cols →
  length (rows df) = length metrics_list.
Proof.
  unfold _make_dataframe. intros H Hcols.
  destruct (df_empty (mk_DataFrame metrics_list)); simpl in H.
  { injection H as <-. apply mk_DataFrame_rows. }
  apply bind_Return in H as (full & Hfull & H).
  apply bind_Return in H as (stripped & Hstripped & H).
  apply df_get_length in Hfull. apply series_apply_length in Hstripped.
  set (df1 := df_set (mk_DataFrame metrics_list) BENCHMARK_FULL_KEY full)
    in *.
  assert (H1 : length (rows df1) = length metrics_list).
  { unfold df1. rewrite df_set_rows by done. apply mk_DataFrame_rows. }
  set (df2 := df_set df1 BENCHMARK_KEY stripped) in *.
  assert (H2 : length (rows df2) = length metrics_list).
  { unfold df2. rewrite df_set_rows; [done|].
    rewrite Hstripped, Hfull, H1. by rewrite mk_DataFrame_rows. }
  apply bind_Return in H as (kc1 & Hkc1 & H).
  apply bind_Return in H as (kc2 & Hkc2 & H).
  apply bind_Return in H as (df3 & Hsel & H).
  destruct (key_columns_shape (negb (df_has df2 RUN_KEY))
              (negb (df_has df2 NUM_RUNS_KEY)) kc1 kc2 Hkc1 Hkc2)
    as (rest & -> & Hrest).
  apply df_select_inv in Hsel as [Hc3 H3].
  eapply df_set_index_rows in H as [H4 _]; [|exact Hc3|done..].
  congruence.
Qed.

(** ** [overview] *)

Lemma merged_inv store m :
  merged store = Return m →
  ∃ hr mr, _get_hparams store = Return hr
           ∧ _get_benchmark_results store = Return mr
           ∧ m = merge_values hr mr.
Proof.
  unfold merged. intros (hr & Hh & H)%bind_Return.
  apply bind_Return in H as (mr & Hm & [= <-]). by exists hr, mr.
Qed.

Lemma overview_unfold store aggs hr mr :
  _get_hparams store = Return hr →
  _get_benchmark_results store = Return mr →
  overview store aggs
  = match _make_dataframe (results_list (merge_values hr mr))
            (property_names_of (merge_values hr mr)) with
    | Return df =>
        match aggs with
        | Some (a :: aggs') =>
            _aggregate_results df (a :: aggs')
              (_DATAFRAME_CONTEXTUAL_COLUMNS ++ property_names_of hr)
        | _ => Return df
        end
    | Raise e => Raise e
    end.
Proof. unfold overview. intros -> ->. reflexivity. Qed.

Lemma results_list_nil m :
  Forall (λ e : list (pystr * pyval),
            (length e ≤ length _DEFAULT_COLUMNS)%nat)
    (dict_values (properties_of m)) →
  results_list m = [].
Proof.
  unfold results_list. induction 1 as [|e l He _ IH]; simpl; [done|].
  unfold qualifying at 1.
  destruct (Nat.ltb_spec (length _DEFAULT_COLUMNS) (length e)); [lia|done].
Qed.

Lemma make_dataframe_nil cols : _make_dataframe [] cols = Return empty_table.
Proof. reflexivity. Qed.

(** Grouping the empty table fails on the first key. *)
Lemma aggregate_empty_table aggs names :
  _aggregate_results empty_table aggs
    (_DATAFRAME_CONTEXTUAL_COLUMNS ++ names)
  = Raise (KeyError (PStr STARTED_AT)).
Proof. vm_compute. reflexivity. Qed.

(** C5: what [overview] does on a store without qualifying entries
    (the extractors return and every merged entry has at most as many
    properties as there are default columns).  Without aggregators,
    or with an empty list of them, it returns the table without rows.
    With a non-empty list of aggregators it raises [KeyError] for
    the start-time column instead of returning a table: grouping the
    table without columns fails on its first key. *)
Theorem overview_without_qualifying_entries store m :
  merged store = Return m →
  Forall (λ e : list (pystr * pyval),
            (length e ≤ length _DEFAULT_COLUMNS)%nat)
    (dict_values (properties_of m)) →
  overview store None = Return empty_table
  ∧ overview store (Some []) = Return empty_table
  ∧ (∀ a aggs, overview store (Some (a :: aggs))
               = Raise (KeyError (PStr STARTED_AT)))
  ∧ rows empty_table = [].
Proof.
  intros (hr & mr & Hh & Hm & ->)%merged_inv Hall.
  apply results_list_nil in Hall.
  split_and!; [| |intros a aggs|done];
    rewrite (overview_unfold _ _ hr mr Hh Hm), Hall, make_dataframe_nil;
    [done|done|apply aggregate_empty_table].
Qed.

(** ** Which entries become rows *)

Lemma qualifying_spec (e : odict pystr pyval) :
  qualifying e = true ↔ (5 < length e)%nat.
Proof. unfold qualifying. simpl. apply Nat.ltb_lt. Qed.

Lemma results_list_spec m (e : odict pystr pyval) :
  e ∈ results_list m
  ↔ e ∈ dict_values (properties_of m) ∧ (5 < length e)%nat.
Proof.
  unfold results_list. rewrite list_elem_of_In, filter_In.
  rewrite <- list_elem_of_In, qualifying_spec. tauto.
Qed.


Lemma overview_rows store m df :
  merged store = Return m →
  overview store None = Return df →
  STARTED_AT ∉ property_names_of m →
  length (rows df) = length (results_list m).
Proof.
  intros (hr & mr & Hh & Hm & ->)%merged_inv.
  rewrite (overview_unfold _ _ hr mr Hh Hm).
  destruct (_make_dataframe _ _) as [df'|] eqn:E; [|done].
  intros [= <-] Hs. by eapply make_dataframe_rows.
Qed.

(** ** One entry per composite key *)

Lemma properties_round_inv a2r props item props' :
  properties_round a2r props item = Return props' →
  ∃ key entry, keyed_entry a2r item = Return (key, entry)
               ∧ props' = dict_set key entry props.
Proof.
  unfold properties_round.
  destruct (keyed_entry a2r item) as [[key entry]|]; [|done].
  intros [= <-]. by exists key, entry.
Qed.

(** Rounds for other keys leave a key alone. *)
Lemma properties_loop_other a2r K items :
  ∀ props props',
    for_each (properties_round a2r) items props = Return props' →
    (∀ it k e, it ∈ items → keyed_entry a2r it = Return (k, e) → k ≠ K) →
    dict_get K props' = dict_get K props.
Proof.
  induction items as [|it items IH]; intros props props'; simpl.
  - by intros [= <-].
  - destruct (properties_round a2r props it) as [props1|] eqn:E; [|done].
    intros Hloop Hother.
    apply properties_round_inv in E as (k & e & Hke & ->).
    rewrite (IH _ _ Hloop).
    + apply dict_get_set_ne. intros Heq.
      apply (Hother it k e); [left|done|done].
    + intros it' k' e' Hin. apply Hother. by right.
Qed.

(** The last round for a key decides what the key holds. *)
Lemma properties_loop_last a2r K E pre it post props props' :
  for_each (properties_round a2r) (pre ++ it :: post) props = Return props' →
  keyed_entry a2r it = Return (K, E) →
  (∀ it' k e, it' ∈ post → keyed_entry a2r it' = Return (k, e) → k ≠ K) →
  dict_get K props' = Some E.
Proof.
  rewrite for_each_app.
  destruct (for_each (properties_round a2r) pre props) as [props1|];
    [|done].
  simpl. unfold properties_round at 1. intros Hloop Hit Hother.
  rewrite Hit in Hloop.
  rewrite (properties_loop_other _ _ _ _ _ Hloop Hother).
  apply dict_get_set_eq.
Qed.

Lemma properties_loop_NoDup a2r items props props' :
  for_each (properties_round a2r) items props = Return props' →
  NoDup (dict_keys props) → NoDup (dict_keys props').
Proof.
  apply (for_each_invariant (properties_round a2r)
           (λ p, NoDup (dict_keys p))).
  intros s x s' (k & e & _ & ->)%properties_round_inv.
  apply dict_set_NoDup.
Qed.

(** With distinct ids the first loop keeps one item per artifact, in
    the order of the artifacts. *)
Lemma metrics_loop artifacts :
  ∀ st,
    NoDup (dict_keys (fst st) ++ List.map art_id artifacts) →
    (∀ a, a ∈ artifacts → ∃ ev, artifact_evals a = Return ev) →
    ∃ items names,
      for_each metrics_round artifacts st = Return (fst st ++ items, names)
      ∧ Forall2 item_of artifacts items.
Proof.
  induction artifacts as [|a artifacts IH]; intros [metrics names] Hnd Hev.
  - exists [], names. simpl. by rewrite app_nil_r.
  - destruct (Hev a) as [ev Ha]; [left|]. simpl in Hnd.
    cbn [for_each]. unfold metrics_round at 1. rewrite Ha. simpl.
    assert (Hfresh : dict_get (art_id a) metrics = None).
    { apply dict_get_None. intros Hin.
      apply NoDup_app in Hnd as (_ & Hdisj & _).
      apply (Hdisj _ Hin). left. }
    rewrite dict_set_absent by done.
    destruct (IH (metrics ++ [(art_id a, ev)], names ++ dict_keys ev))
      as (items & names' & Hloop & Hitems).
    + simpl. unfold dict_keys in *. rewrite List.map_app. simpl.
      by rewrite <- app_assoc.
    + intros b Hb. apply Hev. by right.
    + exists ((art_id a, ev) :: items), names'. split.
      * rewrite Hloop. simpl. by rewrite <- app_assoc.
      * by constructor.
Qed.

Lemma item_of_keys artifacts items :
  Forall2 item_of artifacts items →
  dict_keys items = List.map art_id artifacts.
Proof.
  induction 1 as [|a it artifacts items [Hid _] _ IH]; simpl; [done|].
  by rewrite Hid, IH.
Qed.

Lemma item_of_entry a2r a it :
  item_of a it → artifact_entry a2r a = keyed_entry a2r it.
Proof.
  intros [Hid Hev]. unfold artifact_entry. rewrite Hev, <- Hid.
  by destruct it.
Qed.

Lemma item_of_elem artifacts items it :
  Forall2 item_of artifacts items → it ∈ items →
  ∃ a, a ∈ artifacts ∧ item_of a it.
Proof.
  induction 1 as [|a it' artifacts items Hit _ IH]; intros Hin.
  - by apply elem_of_nil in Hin.
  - apply elem_of_cons in Hin as [->|Hin].
    + exists a. split; [left|done].
    + destruct (IH Hin) as (b & Hb & Hbit). exists b. split; [by right|done].
Qed.

(** The results of both extractors, and so the merged result, hold
    every key once. *)
Lemma get_hparams_NoDup store hr :
  _get_hparams store = Return hr → NoDup (dict_keys (properties_of hr)).
Proof.
  unfold _get_hparams. intros (st & Hloop & [= <-])%bind_Return. simpl.
  apply (for_each_invariant hparams_round
           (λ st, NoDup (dict_keys (fst st))) _ _ _ ) in Hloop;
    [done| |apply NoDup_nil_2].
  intros s x s' (hp & t & _ & _ & ->)%hparams_round_inv. simpl.
  apply dict_set_NoDup.
Qed.

Lemma merge_values_NoDup hr mr :
  NoDup (dict_keys (properties_of hr)) →
  NoDup (dict_keys (properties_of (merge_values hr mr))).
Proof.
  unfold merge_values. simpl. generalize (properties_of hr) as A.
  induction (properties_of mr) as [|kv B IH]; intros A HA; simpl; [done|].
  apply IH. unfold merge_entry.
  destruct (dict_get kv.1 A); by apply dict_set_NoDup.
Qed.

Lemma merged_NoDup store m :
  merged store = Return m → NoDup (dict_keys (properties_of m)).
Proof.
  intros (hr & mr & Hh & _ & ->)%merged_inv.
  apply merge_values_NoDup. by eapply get_hparams_NoDup.
Qed.

Lemma rows_for_spec K m :
  NoDup (dict_keys (properties_of m)) →
  rows_for K m
  = match dict_get K (properties_of m) with
    | Some e => if qualifying e then 1%nat else O
    | None => O
    end.
Proof.
  unfold rows_for. induction (properties_of m) as [|[k e] d IH]; simpl;
    [done|].
  intros [Hk Hd]%NoDup_cons. rewrite (bool_decide_ext (k = K) (K = k))
    by done.
  case_bool_decide; simpl.
  - subst k. apply dict_get_None in Hk. rewrite Hk in IH.
    destruct (qualifying e); simpl; by rewrite IH.
  - by apply IH.
Qed.

(** With distinct ids, and when every artifact yields an entry, the
    extractor returns, and the last artifact with a key decides what the
    key holds. *)
Lemma get_benchmark_results_last_entry store a2r pre a post K E :
  get_artifacts_by_type store _BENCHMARK_RESULT = pre ++ a :: post →
  NoDup (List.map art_id (pre ++ a :: post)) →
  _get_artifact_run_id_map store (List.map art_id (pre ++ a :: post))
  = Return a2r →
  (∀ b, b ∈ pre ++ a :: post →
        ∃ k e, artifact_entry a2r b = Return (k, e)) →
  artifact_entry a2r a = Return (K, E) →
  (∀ b k e, b ∈ post → artifact_entry a2r b = Return (k, e) → k ≠ K) →
  ∃ r, _get_benchmark_results store = Return r
       ∧ dict_get K (properties_of r) = Some E
       ∧ NoDup (dict_keys (properties_of r)).
Proof.
  intros Harts Hids Ha2r Hall H2 Hpost.
  destruct (metrics_loop (pre ++ a :: post) ([], []))
    as (items & names & Hloop1 & Hitems); [done| |].
  { intros b Hb. destruct (Hall b Hb) as (k & e & Hke).
    unfold artifact_entry in Hke.
    destruct (artifact_evals b) as [ev|]; [by exists ev|done]. }
  simpl in Hloop1.
  assert (Hkeys := item_of_keys _ _ Hitems).
  destruct (for_each_returns (properties_round a2r) items [])
    as [props Hloop2].
  { intros s it Hit.
    destruct (item_of_elem _ _ _ Hitems Hit) as (b & Hb & Hbit).
    destruct (Hall b Hb) as (k & e & Hke).
    rewrite (item_of_entry a2r b it Hbit) in Hke.
    unfold properties_round. rewrite Hke. eauto. }
  eexists. split_and!.
  - unfold _get_benchmark_results. rewrite Harts, Hloop1. simpl.
    rewrite Hkeys, Ha2r. simpl. rewrite Hloop2. reflexivity.
  - simpl.
    apply Forall2_app_inv_l in Hitems
      as (ipre & irest & Hipre & Hirest & ->).
    apply Forall2_cons_inv_l in Hirest as (i2 & ipost & Hi2 & Hipost & ->).
    eapply properties_loop_last; [exact Hloop2| |].
    + by rewrite <- (item_of_entry a2r a i2 Hi2).
    + intros it k e Hit Hke.
      destruct (item_of_elem _ _ _ Hipost Hit) as (b & Hb & Hbit).
      rewrite <- (item_of_entry a2r b it Hbit) in Hke. by eapply Hpost.
  - simpl. eapply properties_loop_NoDup; [exact Hloop2|]. apply NoDup_nil_2.
Qed.

(** ** The property names of the extractors *)

Lemma str_leb_refl a : str_leb a a = true.
Proof.
  induction a as [|c a IH]; simpl; [done|]. by rewrite N.ltb_irrefl.
Qed.

Lemma str_leb_total a b : str_leb a b = true ∨ str_leb b a = true.
Proof.
  revert b. induction a as [|c a IH]; intros [|d b]; simpl; auto.
  destruct (N.ltb_spec c d), (N.ltb_spec d c); auto; lia.
Qed.

Lemma str_leb_antisym a b :
  str_leb a b = true → str_leb b a = true → a = b.
Proof.
  revert b. induction a as [|c a IH]; intros [|d b]; simpl; try done.
  destruct (N.ltb_spec c d), (N.ltb_spec d c); try done; try lia.
  intros Hab Hba. assert (c = d) as -> by lia. f_equal. auto.
Qed.

Lemma str_leb_trans a b c :
  str_leb a b = true → str_leb b c = true → str_leb a c = true.
Proof.
  revert b c. induction a as [|x a IH]; intros [|y b] [|z c]; simpl;
    try done.
  destruct (N.ltb_spec x y), (N.ltb_spec y x), (N.ltb_spec y z),
    (N.ltb_spec z y), (N.ltb_spec x z), (N.ltb_spec z x);
    try done; try lia.
  apply IH.
Qed.

Lemma insert_sorted_elem x y l : y ∈ insert_sorted x l ↔ y = x ∨ y ∈ l.
Proof.
  clear unicode_lower literal_eval.
  induction l as [|z l IH]; simpl.
  - rewrite list_elem_of_singleton. split; [by left|].
    intros [?|H]; [done|]. by apply elem_of_nil in H.
  - destruct (str_leb x z).
    + by rewrite elem_of_cons.
    + rewrite !elem_of_cons, IH. tauto.
Qed.

Lemma insert_sorted_ascending x l :
  x ∉ l → strictly_ascending l → strictly_ascending (insert_sorted x l).
Proof.
  clear unicode_lower literal_eval.
  induction l as [|z l IH]; simpl.
  - intros _ _. split; [|done]. intros y Hy. by apply elem_of_nil in Hy.
  - intros Hx [Hz Hl]. apply not_elem_of_cons in Hx as [Hxz Hxl].
    destruct (str_leb x z) eqn:E.
    + split; [|done]. intros y [->|Hy]%elem_of_cons; [done|].
      destruct (Hz y Hy) as [Hzy _]. split.
      * by eapply str_leb_trans.
      * by intros ->.
    + split; [|by apply IH].
      intros y [->|Hy]%insert_sorted_elem; [|by apply Hz].
      split; [|done].
      destruct (str_leb_total z x) as [|Hyz]; [done|congruence].
Qed.

Lemma insertion_sort_elem x k :
  x ∈ fold_right insert_sorted [] k ↔ x ∈ k.
Proof.
  induction k as [|z k IH]; simpl; [done|].
  by rewrite insert_sorted_elem, elem_of_cons, IH.
Qed.

(** [sorted(set(l))] has the elements of [l], each once, in ascending
    order. *)
Lemma sorted_set_elem x l : x ∈ sorted_set l ↔ x ∈ l.
Proof.
  unfold sorted_set. by rewrite insertion_sort_elem, elem_of_remove_dups.
Qed.

Lemma sorted_set_ascending l : strictly_ascending (sorted_set l).
Proof.
  unfold sorted_set. pose proof (NoDup_remove_dups l) as Hnd.
  induction Hnd as [|z k Hz _ IH]; simpl; [done|].
  apply insert_sorted_ascending; [|done].
  by rewrite insertion_sort_elem.
Qed.

Lemma strictly_ascending_NoDup l : strictly_ascending l → NoDup l.
Proof.
  induction l as [|x l IH]; simpl; [intros _; apply NoDup_nil_2|].
  intros [Hx Hl]. apply NoDup_cons. split; [|auto].
  intros Hin. by destruct (Hx x Hin).
Qed.

Lemma hparams_loop_names l :
  ∀ st st',
    for_each hparams_round l st = Return st' →
    ∀ n, n ∈ snd st'
         ↔ n ∈ snd st
           ∨ ∃ ex hp, ex ∈ l
                      ∧ _parse_hparams (prop_string ex _HPARAMS) = Return hp
                      ∧ n ∈ dict_keys hp.
Proof.
  induction l as [|ex l IH]; intros st st'; simpl.
  - intros [= <-] n. split; [by left|]. intros [?|(ex & hp & H & _)]; [done|].
    by apply elem_of_nil in H.
  - destruct (hparams_round st ex) as [st1|] eqn:E; [|done].
    intros Hloop n. rewrite (IH _ _ Hloop n).
    apply hparams_round_inv in E as (hp & s & Hhp & _ & ->). simpl.
    rewrite elem_of_app. split.
    + intros [[?|Hn]|(ex' & hp' & Hex & Hhp' & Hn)]; [by left| |].
      * right. exists ex, hp. split; [left|done].
      * right. exists ex', hp'. split; [by right|done].
    + intros [?|(ex' & hp' & [->|Hex]%elem_of_cons & Hhp' & Hn)].
      * by left; left.
      * left; right. congruence.
      * right. by exists ex', hp'.
Qed.

(** X1. The name list of the hyperparameter extractor is in strictly
    ascending order, hence without duplicates, and holds exactly the
    names that the hyperparameter parser returned for some trainer
    execution: the contextual properties the extractor adds to an entry
    are no names of the list. *)
Theorem get_hparams_property_names store r :
  _get_hparams store = Return r →
  strictly_ascending (property_names_of r)
  ∧ NoDup (property_names_of r)
  ∧ ∀ n, n ∈ property_names_of r
         ↔ ∃ ex hp,
             ex ∈ get_executions_by_type store _TRAINER
             ∧ _parse_hparams (prop_string ex _HPARAMS) = Return hp
             ∧ n ∈ dict_keys hp.
Proof.
  unfold _get_hparams. intros (st & Hloop & [= <-])%bind_Return. simpl.
  split; [apply sorted_set_ascending|].
  split; [apply strictly_ascending_NoDup, sorted_set_ascending|].
  intros n. rewrite sorted_set_elem, (hparams_loop_names _ _ _ Hloop n).
  simpl. split; [|by right].
  intros [H|H]; [by apply elem_of_nil in H|done].
Qed.

Lemma evals_loop_keys l :
  ∀ acc ev,
    for_each evals_round l acc = Return ev →
    ∀ n, n ∈ dict_keys ev ↔ n ∈ dict_keys acc ∨ n ∈ dict_keys l.
Proof.
  clear literal_eval.
  induction l as [|[k v] l IH]; intros acc ev; simpl.
  - intros [= <-] n. split; [by left|]. intros [?|H]; [done|].
    by apply elem_of_nil in H.
  - destruct (evals_round acc (k, v)) as [acc1|] eqn:E; [|done].
    intros Hloop n. rewrite (IH _ _ Hloop n), elem_of_cons.
    assert (Hacc1 : ∃ x, acc1 = dict_set k x acc).
    { unfold evals_round in E. simpl in E.
      destruct (has_int_value v); [injection E as <-; eauto|].
      apply bind_Return in E as (x & _ & [= <-]). eauto. }
    destruct Hacc1 as [x ->]. rewrite dict_keys_set.
    unfold dict_mem. destruct (dict_get k acc) eqn:Eg.
    + apply dict_get_Some_keys in Eg. split; [tauto|].
      intros [?|[->|?]]; tauto.
    + rewrite elem_of_app, list_elem_of_singleton. tauto.
Qed.

Lemma artifact_evals_keys a ev :
  artifact_evals a = Return ev →
  ∀ n, n ∈ dict_keys ev ↔ n ∈ dict_keys (custom_properties a).
Proof.
  unfold artifact_evals. intros H n. rewrite (evals_loop_keys _ _ _ H n).
  simpl. split; [|by right]. intros [H'|H']; [|done].
  by apply elem_of_nil in H'.
Qed.

Lemma metrics_loop_names l :
  ∀ st st',
    for_each metrics_round l st = Return st' →
    ∀ n, n ∈ snd st'
         ↔ n ∈ snd st
           ∨ ∃ a, a ∈ l ∧ n ∈ dict_keys (custom_properties a).
Proof.
  induction l as [|a l IH]; intros st st'; simpl.
  - intros [= <-] n. split; [by left|]. intros [?|(a & H & _)]; [done|].
    by apply elem_of_nil in H.
  - destruct (metrics_round st a) as [st1|] eqn:E; [|done].
    intros Hloop n. rewrite (IH _ _ Hloop n).
    unfold metrics_round in E.
    apply bind_Return in E as (ev & Hev & [= <-]). simpl.
    rewrite elem_of_app, (artifact_evals_keys _ _ Hev n). split.
    + intros [[?|Hn]|(a' & Ha & Hn)]; [by left| |].
      * right. exists a. split; [left|done].
      * right. exists a'. split; [by right|done].
    + intros [?|(a' & [->|Ha]%elem_of_cons & Hn)].
      * by left; left.
      * by left; right.
      * right. by exists a'.
Qed.

(** X2. The name list of the benchmark-result extractor is in strictly
    ascending order, hence without duplicates, and holds exactly the
    names of the custom properties of the artifacts other than "name",
    "producer_component", "state" and the five default columns. *)
Theorem get_benchmark_results_property_names store r :
  _get_benchmark_results store = Return r →
  strictly_ascending (property_names_of r)
  ∧ NoDup (property_names_of r)
  ∧ ∀ n, n ∈ property_names_of r
         ↔ (n ∉ excluded_names)
           ∧ ∃ a, a ∈ get_artifacts_by_type store _BENCHMARK_RESULT
                  ∧ n ∈ dict_keys (custom_properties a).
Proof.
  unfold _get_benchmark_results. intros (st & Hloop & H)%bind_Return.
  apply bind_Return in H as (a2r & _ & H).
  apply bind_Return in H as (props & _ & [= <-]). simpl.
  split; [apply sorted_set_ascending|].
  split; [apply strictly_ascending_NoDup, sorted_set_ascending|].
  intros n. rewrite sorted_set_elem, list_elem_of_In, filter_In.
  rewrite <- list_elem_of_In, (metrics_loop_names _ _ _ Hloop n).
  rewrite negb_true_iff, bool_decide_eq_false. simpl. split.
  - intros [[H|H] Hn]; [by apply elem_of_nil in H|done].
  - intros [Hn H]. split; [by right|done].
Qed.

(** ** The composite keys *)

Lemma strip_prefix_app p s : strip_prefix p (p ++ s) = Some s.
Proof.
  induction p as [|c p IH]; simpl; [by destruct s|]. by rewrite N.eqb_refl.
Qed.

Lemma str_remove_from_skip old q s :
  str_remove_from old (length q) (q ++ s) = str_remove_from old O s.
Proof.
  induction q as [|c q IH]; simpl; [done|]. apply IH.
Qed.

Lemma str_remove_from_absent old s :
  occurs old s = false → str_remove_from old O s = s.
Proof.
  induction s as [|c s IH]; [done|]. cbn [occurs str_remove_from].
  destruct (strip_prefix old (c :: s)); [done|].
  intros Hs. by rewrite IH.
Qed.

(** [(old + s).replace(old, '')] is [s] when [old] does not occur in
    [s]. *)
Lemma str_remove_prefixed old s :
  old ≠ [] → occurs old s = false → str_remove old (old ++ s) = s.
Proof.
  destruct old as [|c old]; [done|]. intros _ Hs. unfold str_remove.
  change ((c :: old) ++ s) with (c :: (old ++ s)).
  cbn [str_remove_from].
  change (c :: old ++ s) with ((c :: old) ++ s).
  rewrite strip_prefix_app. cbn [length Nat.pred].
  by rewrite str_remove_from_skip, str_remove_from_absent.
Qed.

Lemma trainer_entry_get ex hp s :
  dict_get RUN_ID_KEY (trainer_entry ex hp s)
  = Some (PStr (prop_string ex RUN_ID_KEY))
  ∧ dict_get BENCHMARK_KEY (trainer_entry ex hp s)
    = Some (PStr (tail (str_remove _TRAINER_ID_PREFIX
                          (prop_string ex _TRAINER_ID))))
  ∧ dict_get STARTED_AT (trainer_entry ex hp s) = Some s.
Proof.
  unfold trainer_entry. split_and!.
  - rewrite !dict_get_set_ne by apply contextual_keys_distinct.
    apply dict_get_set_eq.
  - rewrite dict_get_set_ne by apply contextual_keys_distinct.
    apply dict_get_set_eq.
  - apply dict_get_set_eq.
Qed.

(** X3. Both extractors store an entry under its run id, a dot and its
    benchmark name: the hyperparameter extractor for a trainer whose
    component id is the prefix "EstimatorTrainer", a dot and a
    benchmark name in which the prefix does not occur, the
    benchmark-result extractor for every artifact.  So the
    hyperparameters and the results of one run and benchmark meet under
    one key. *)
Theorem entries_keyed_by_run_and_benchmark :
  (∀ st ex st' b,
     prop_string ex _TRAINER_ID = _TRAINER_ID_PREFIX ++ py "." ++ b →
     occurs _TRAINER_ID_PREFIX b = false →
     hparams_round st ex = Return st' →
     ∃ entry,
       dict_get (prop_string ex RUN_ID_KEY ++ py "." ++ b) (fst st')
       = Some entry
       ∧ dict_get RUN_ID_KEY entry = Some (PStr (prop_string ex RUN_ID_KEY))
       ∧ dict_get BENCHMARK_KEY entry = Some (PStr b))
  ∧ (∀ a2r item key entry,
       keyed_entry a2r item = Return (key, entry) →
       ∃ run_id b,
         key = run_id ++ py "." ++ b
         ∧ dict_get RUN_ID_KEY entry = Some (PStr run_id)
         ∧ dict_get BENCHMARK_KEY entry = Some (PStr b)).
Proof.
  split.
  - intros st ex st' b Hid Hb (hp & s & _ & _ & ->)%hparams_round_inv.
    assert (Hrm : str_remove _TRAINER_ID_PREFIX (prop_string ex _TRAINER_ID)
                  = py "." ++ b).
    { rewrite Hid. apply str_remove_prefixed; [done|].
      change (py "." ++ b) with (46 :: b). cbn [occurs].
      by change (strip_prefix _TRAINER_ID_PREFIX (46 :: b)) with (@None pystr). }
    eexists. cbn [fst]. rewrite Hrm. split; [apply dict_get_set_eq|].
    split.
    + rewrite !dict_get_set_ne by apply contextual_keys_distinct.
      apply dict_get_set_eq.
    + rewrite dict_get_set_ne by apply contextual_keys_distinct.
      apply dict_get_set_eq.
  - intros a2r item key entry (run_id & s & b & _ & _ & -> & Hb & ->)%keyed_entry_inv.
    exists run_id, b. split; [done|]. split; [|done].
    rewrite dict_get_set_ne by apply contextual_keys_distinct.
    apply dict_get_set_eq.
Qed.

Lemma hparams_round_key st ex st' :
  hparams_round st ex = Return st' →
  ∃ hp s,
    _parse_hparams (prop_string ex _HPARAMS) = Return hp
    ∧ started_at (prop_string ex RUN_ID_KEY) = Return s
    ∧ fst st' = dict_set (trainer_key ex) (trainer_entry ex hp s) (fst st).
Proof.
  intros (hp & s & Hhp & Hs & ->)%hparams_round_inv. by exists hp, s.
Qed.

Lemma hparams_loop_other K l :
  ∀ st st',
    for_each hparams_round l st = Return st' →
    (∀ ex, ex ∈ l → trainer_key ex ≠ K) →
    dict_get K (fst st') = dict_get K (fst st).
Proof.
  induction l as [|ex l IH]; intros st st'; simpl.
  - by intros [= <-].
  - destruct (hparams_round st ex) as [st1|] eqn:E; [|done].
    intros Hloop Hother.
    apply hparams_round_key in E as (hp & s & _ & _ & Hst1).
    rewrite (IH _ _ Hloop), Hst1.
    + apply dict_get_set_ne. intros Heq. by apply (Hother ex); [left|].
    + intros ex' Hex'. apply Hother. by right.
Qed.

(** The last trainer execution with a key decides its entry. *)
Lemma get_hparams_last_entry store pre ex post :
  get_executions_by_type store _TRAINER = pre ++ ex :: post →
  (∀ ex', ex' ∈ pre ++ ex :: post →
          (∃ hp, _parse_hparams (prop_string ex' _HPARAMS) = Return hp)
          ∧ ∃ s, started_at (prop_string ex' RUN_ID_KEY) = Return s) →
  (∀ ex', ex' ∈ post → trainer_key ex' ≠ trainer_key ex) →
  ∃ r hp s,
    _get_hparams store = Return r
    ∧ _parse_hparams (prop_string ex _HPARAMS) = Return hp
    ∧ started_at (prop_string ex RUN_ID_KEY) = Return s
    ∧ dict_get (trainer_key ex) (properties_of r)
      = Some (trainer_entry ex hp s).
Proof.
  intros Hexecs Hall Hpost.
  destruct (for_each_returns hparams_round (pre ++ ex :: post) ([], []))
    as [st Hloop].
  { intros st0 ex' Hex'. destruct (Hall ex' Hex') as [[hp Hhp] [s Hs]].
    unfold hparams_round. rewrite Hhp. simpl. rewrite Hs. simpl. eauto. }
  pose proof Hloop as Hloop'. rewrite for_each_app in Hloop'.
  destruct (for_each hparams_round pre ([], [])) as [st0|]; [|done].
  simpl in Hloop'.
  destruct (hparams_round st0 ex) as [st1|] eqn:E; [|done].
  apply hparams_round_key in E as (hp & s & Hhp & Hs & Hst1).
  eexists _, hp, s. split_and!; [|done|done|].
  - unfold _get_hparams. rewrite Hexecs, Hloop. reflexivity.
  - simpl. rewrite (hparams_loop_other _ _ _ _ Hloop' Hpost), Hst1.
    apply dict_get_set_eq.
Qed.

(** X4. Of the trainer executions with one composite key the last one
    decides the entry: when every execution parses and has a start
    time, the hyperparameter extractor returns, and under the key of an
    execution that no later one shares it holds the entry of that
    execution alone; the hyperparameters of earlier executions with the
    key are not kept. *)
Theorem later_trainer_overwrites store pre ex post :
  get_executions_by_type store _TRAINER = pre ++ ex :: post →
  (∀ ex', ex' ∈ pre ++ ex :: post →
          (∃ hp, _parse_hparams (prop_string ex' _HPARAMS) = Return hp)
          ∧ ∃ s, started_at (prop_string ex' RUN_ID_KEY) = Return s) →
  (∀ ex', ex' ∈ post → trainer_key ex' ≠ trainer_key ex) →
  ∃ r hp s,
    _get_hparams store = Return r
    ∧ _parse_hparams (prop_string ex _HPARAMS) = Return hp
    ∧ started_at (prop_string ex RUN_ID_KEY) = Return s
    ∧ dict_get (trainer_key ex) (properties_of r)
      = Some (trainer_entry ex hp s).
Proof. apply get_hparams_last_entry. Qed.

(** ** What the pattern removes *)

Lemma match_atoms_lit_inv c atoms s rest :
  match_atoms (Lit c :: atoms) s = Some rest →
  ∃ s', s = c :: s' ∧ match_atoms atoms s' = Some rest.
Proof.
  destruct s as [|d s']; simpl; [done|].
  destruct (N.eqb_spec d c) as [->|]; [|done]. intros H. by exists s'.
Qed.

Lemma match_atoms_digit_inv atoms s rest :
  match_atoms (Digit :: atoms) s = Some rest →
  ∃ d s', s = d :: s' ∧ is_decimal d = true
          ∧ match_atoms atoms s' = Some rest.
Proof.
  destruct s as [|d s']; simpl; [done|].
  destruct (is_decimal d) eqn:E; [|done]. intros H. by exists d, s'.
Qed.

Lemma match_run_suffix_inv s rest :
  match_atoms run_suffix s = Some rest →
  ∃ i n, is_decimal i = true ∧ is_decimal n = true
         ∧ s = repetition_suffix i n ++ rest.
Proof.
  rewrite run_suffix_atoms. intros H.
  do 5 (apply match_atoms_lit_inv in H as (? & -> & H)).
  apply match_atoms_digit_inv in H as (i & ? & -> & Hi & H).
  do 4 (apply match_atoms_lit_inv in H as (? & -> & H)).
  apply match_atoms_digit_inv in H as (n & ? & -> & Hn & H).
  injection H as ->. exists i, n. by rewrite repetition_suffix_chars.
Qed.

Lemma re_sub_from_skip_app atoms q s :
  re_sub_from atoms (length q) (q ++ s) = re_sub_from atoms O s.
Proof. induction q as [|c q IH]; simpl; [done|]. apply IH. Qed.

Lemma re_sub_run_suffix_end t :
  t = [] ∨ t = [10] → re_sub_from run_suffix O t = t.
Proof. intros [->| ->]; reflexivity. Qed.

(** X5. The substitution of the table builder removes at most one
    thing from a benchmark name: a piece of the form dot, "run_", one
    decimal digit, "_of_", one decimal digit that ends the name or
    stands before its final newline.  Every other name is unchanged. *)
Theorem strip_removes_only_a_final_suffix x :
  re_sub_from run_suffix O x = x
  ∨ ∃ p i n t,
      is_decimal i = true ∧ is_decimal n = true
      ∧ (t = [] ∨ t = [10])
      ∧ x = p ++ repetition_suffix i n ++ t
      ∧ re_sub_from run_suffix O x = p ++ t.
Proof.
  induction x as [|c x IH]; [by left|].
  destruct (matches_here run_suffix (c :: x)) eqn:Hm.
  - right. rewrite re_sub_from_match by done.
    unfold matches_here in Hm.
    destruct (match_atoms run_suffix (c :: x)) as [rest|] eqn:E; [|done].
    apply at_end_inv in Hm.
    apply match_run_suffix_inv in E as (i & n & Hi & Hn & Heq).
    exists [], i, n, rest. split_and!; try done.
    rewrite repetition_suffix_chars in Heq. injection Heq as -> ->.
    change (re_sub_from run_suffix (Nat.pred (length run_suffix))
              ([114; 117; 110; 95; i; 95; 111; 102; 95; n] ++ rest)
            = rest).
    change (Nat.pred (length run_suffix))
      with (length [114; 117; 110; 95; i; 95; 111; 102; 95; n]).
    rewrite re_sub_from_skip_app. by apply re_sub_run_suffix_end.
  - rewrite re_sub_from_no_match by done.
    destruct IH as [->|(p & i & n & t & Hi & Hn & Ht & -> & ->)];
      [by left|].
    right. by exists (c :: p), i, n, t.
Qed.

(** ** The table builder *)

Lemma column_position_Some label cols i :
  column_position label cols = Some i → cols !! i = Some label.
Proof.
  revert i. induction cols as [|c cols IH]; intros i; simpl; [done|].
  case_bool_decide; [by intros [= <-]; subst|].
  destruct (column_position label cols) as [j|]; simpl; [|done].
  intros [= <-]. simpl. by apply IH.
Qed.

Lemma column_position_None label cols :
  column_position label cols = None ↔ label ∉ cols.
Proof.
  induction cols as [|c cols IH]; simpl.
  - split; [intros _; apply not_elem_of_nil|done].
  - case_bool_decide; subst.
    + split; [done|]. intros H. exfalso. apply H. left.
    + rewrite not_elem_of_cons.
      destruct (column_position label cols); simpl.
      * split; [done|]. intros [_ H']. by apply IH in H'.
      * split; [|done]. intros _. split; [done|]. by apply IH.
Qed.

Lemma column_position_elem label cols :
  label ∈ cols → ∃ i, column_position label cols = Some i.
Proof.
  intros Hin. destruct (column_position label cols) as [i|] eqn:E; [eauto|].
  by apply column_position_None in E.
Qed.

Lemma column_position_app_r label cols :
  label ∉ cols →
  column_position label (cols ++ [label]) = Some (length cols).
Proof.
  induction cols as [|c cols IH]; simpl.
  - intros _. by rewrite bool_decide_eq_true_2.
  - intros [Hne Hin]%not_elem_of_cons.
    rewrite bool_decide_eq_false_2 by done. by rewrite IH.
Qed.

Lemma nth_map_lookup (g : pystr → cell) label cols i :
  cols !! i = Some label → nth i (List.map g cols) NaN = g label.
Proof.
  revert i. induction cols as [|c cols IH]; intros [|i]; simpl; try done.
  - by intros [= ->].
  - apply IH.
Qed.

(** Reading a column of rows that were computed label by label. *)
Lemma cell_at_map (g : pystr → cell) label cols i r :
  column_position label cols = Some i →
  row_cells r = List.map g cols →
  cell_at i r = g label.
Proof.
  intros Hpos Hr. unfold cell_at. rewrite Hr.
  apply nth_map_lookup. by apply column_position_Some.
Qed.

(** Writing one column of such rows. *)
Lemma insert_map_position (g : pystr → cell) label cols i c :
  NoDup cols → column_position label cols = Some i →
  <[i := c]> (List.map g cols)
  = List.map (λ l, if bool_decide (l = label) then c else g l) cols.
Proof.
  intros Hnd. revert i.
  induction Hnd as [|x cols Hx Hnd IH]; intros i; simpl; [done|].
  case_bool_decide as Hlx.
  - intros [= <-]. subst x. simpl. rewrite bool_decide_eq_true_2 by done.
    f_equal. apply map_ext_in. intros l Hl%list_elem_of_In.
    rewrite bool_decide_eq_false_2; [done|]. by intros ->.
  - destruct (column_position label cols) as [j|]; simpl; [|done].
    intros [= <-]. simpl. rewrite bool_decide_eq_false_2 by done.
    f_equal. by apply IH.
Qed.

Lemma Forall2_map_r {A B C} (P : A → B → Prop) (R : A → C → Prop)
    (h : B → C) l rows :
  Forall2 P l rows → (∀ a b, P a b → R a (h b)) →
  Forall2 R l (List.map h rows).
Proof. induction 1; simpl; constructor; auto. Qed.

Lemma Forall2_zip_with_r {A B C D} (P : A → B → Prop) (Q : A → C → Prop)
    (R : A → D → Prop) (f : B → C → D) l rows series :
  Forall2 P l rows → Forall2 Q l series →
  (∀ a b c, P a b → Q a c → R a (f b c)) →
  Forall2 R l (zip_with f rows series).
Proof.
  intros HP. revert series.
  induction HP as [|a b l rows Hab _ IH]; intros series HQ Hf.
  - inversion HQ. constructor.
  - inversion HQ as [|? c ? series' Hac HQ']; subst. simpl.
    constructor; auto.
Qed.

Lemma Forall2_eq_map {A B} (f : A → B) l rows :
  Forall2 (λ a b, b = f a) l rows → rows = List.map f l.
Proof. induction 1; simpl; congruence. Qed.

Lemma Forall2_imap_r {A B} (P : A → B → Prop) (f : nat → A → B) l :
  (∀ i a, P a (f i a)) → Forall2 P l (imap f l).
Proof.
  revert f. induction l as [|a l IH]; intros f Hf; simpl; constructor;
    [done|]. apply IH. intros i b. apply Hf.
Qed.

Lemma series_apply_Forall2 {A} (Q : A → cell → Prop) f l series out :
  Forall2 Q l series → series_apply f series = Return out →
  Forall2 (λ a c', ∃ c, Q a c ∧ f c = Return c') l out.
Proof.
  intros HQ. revert out.
  induction HQ as [|a c l series Hac _ IH]; intros out; simpl.
  - intros [= <-]. constructor.
  - destruct (f c) as [c'|] eqn:E; [|done].
    destruct (series_apply f series) as [ys|]; [|done].
    intros [= <-]. constructor; eauto.
Qed.

Lemma frame_columns_elem label l :
  label ∈ frame_columns l ↔ ∃ e, e ∈ l ∧ label ∈ dict_keys e.
Proof.
  unfold frame_columns. rewrite elem_of_remove_dups.
  induction l as [|e l IH]; simpl.
  - split; [intros H; by apply elem_of_nil in H|].
    intros (e & H & _). by apply elem_of_nil in H.
  - rewrite elem_of_app, IH. split.
    + intros [H|(e' & He' & H)].
      * exists e. split; [left|done].
      * exists e'. split; [by right|done].
    + intros (e' & [->|He']%elem_of_cons & H); [by left|].
      right. by exists e'.
Qed.

Lemma key_columns_exact (b1 b2 : bool) kc1 kc2 :
  (if b1 then list_remove RUN_KEY _DATAFRAME_CONTEXTUAL_COLUMNS
   else Return _DATAFRAME_CONTEXTUAL_COLUMNS) = Return kc1 →
  (if b2 then list_remove NUM_RUNS_KEY kc1 else Return kc1) = Return kc2 →
  kc2 = STARTED_AT
          :: [RUN_ID_KEY; BENCHMARK_FULL_KEY; BENCHMARK_KEY]
          ++ (if b1 then [] else [RUN_KEY])
          ++ (if b2 then [] else [NUM_RUNS_KEY]).
Proof.
  intros H1 H2.
  destruct b1; vm_compute in H1; injection H1 as <-;
    destruct b2; vm_compute in H2; injection H2 as <-; reflexivity.
Qed.

Lemma table_cell_entry e label :
  label ≠ BENCHMARK_KEY → label ≠ BENCHMARK_FULL_KEY →
  table_cell e label = entry_cell e label.
Proof.
  intros H1 H2. unfold table_cell. by rewrite !bool_decide_eq_false_2.
Qed.

Lemma strip_repetition_inv x y :
  strip_repetition x = Return y →
  ∃ b, x = Val (PStr b) ∧ y = Val (PStr (re_sub_from run_suffix O b)).
Proof.
  destruct x as [[| | | |b| | | |]|]; simpl; try done.
  intros [= <-]. by exists b.
Qed.

Lemma df_select_spec df labels df' :
  df_select df labels = Return df' →
  (∀ l, l ∈ labels → l ∈ columns df)
  ∧ index_name df' = index_name df
  ∧ columns df' = labels
  ∧ rows df'
    = List.map
        (λ r, {| row_index := row_index r;
                 row_cells :=
                   List.map (λ l, match column_position l (columns df) with
                                  | Some i => cell_at i r
                                  | None => NaN
                                  end) labels |}) (rows df).
Proof.
  unfold df_select.
  destruct (List.filter _ labels) as [|m ms] eqn:Emiss; [|done].
  intros [= <-]. split; [|done].
  intros l Hl. destruct (decide (l ∈ columns df)) as [|Hn]; [done|]. exfalso.
  assert (Hf : In l (List.filter (λ l, negb (df_has df l)) labels)).
  { apply filter_In. split; [by apply list_elem_of_In|].
    unfold df_has. by rewrite bool_decide_eq_false_2. }
  rewrite Emiss in Hf. done.
Qed.

(** What the table builder returns for a list of entries that makes a
    table with rows and columns. *)
Lemma make_dataframe_inv metrics_list cols df :
  _make_dataframe metrics_list cols = Return df →
  df_empty (mk_DataFrame metrics_list) = false →
  ∃ labels df3,
    labels = STARTED_AT :: key_columns_of metrics_list ++ cols
    ∧ (∀ l, l ∈ labels →
            l ∈ frame_columns metrics_list ∨ l = BENCHMARK_FULL_KEY)
    ∧ BENCHMARK_KEY ∈ frame_columns metrics_list
    ∧ Forall (λ e, ∃ b, dict_get BENCHMARK_KEY e = Some (PStr b))
        metrics_list
    ∧ columns df3 = labels
    ∧ index_name df3 = None
    ∧ Forall2 (λ e r, row_cells r = List.map (table_cell e) labels)
        metrics_list (rows df3)
    ∧ df_set_index df3 STARTED_AT = Return df.
Proof.
  unfold _make_dataframe. intros H Hne. rewrite Hne in H. simpl in H.
  apply bind_Return in H as (full & Hfull & H).
  apply bind_Return in H as (stripped & Hstripped & H).
  apply bind_Return in H as (kc1 & Hkc1 & H).
  apply bind_Return in H as (kc2 & Hkc2 & H).
  apply bind_Return in H as (df3 & Hsel & H).
  set (cols0 := frame_columns metrics_list) in *.
  assert (Hnd0 : NoDup cols0) by apply NoDup_remove_dups.
  (* the frame as built *)
  assert (H0 : Forall2 (λ e r, row_cells r = List.map (entry_cell e) cols0)
                 metrics_list (rows (mk_DataFrame metrics_list))).
  { unfold mk_DataFrame. simpl. by apply Forall2_imap_r. }
  (* the benchmark column *)
  unfold df_get in Hfull.
  destruct (column_position BENCHMARK_KEY (columns (mk_DataFrame metrics_list)))
    as [ib|] eqn:Eib; [|done].
  injection Hfull as <-.
  change (columns (mk_DataFrame metrics_list)) with cols0 in Eib.
  assert (Hbench : BENCHMARK_KEY ∈ cols0).
  { destruct (decide (BENCHMARK_KEY ∈ cols0)) as [|Hn]; [done|].
    apply column_position_None in Hn. congruence. }
  assert (Hfull : Forall2 (λ e c, c = entry_cell e BENCHMARK_KEY)
                    metrics_list
                    (List.map (cell_at ib) (rows (mk_DataFrame metrics_list)))).
  { eapply Forall2_map_r; [exact H0|]. intros e r Hr.
    by eapply cell_at_map. }
  set (full := List.map (cell_at ib) (rows (mk_DataFrame metrics_list))).
  change (series_apply strip_repetition full = Return stripped) in Hstripped.
  (* the full-name column *)
  set (g1 := λ (e : list (pystr * pyval)) l,
               if bool_decide (l = BENCHMARK_FULL_KEY)
               then entry_cell e BENCHMARK_KEY else entry_cell e l).
  set (df1 := df_set (mk_DataFrame metrics_list) BENCHMARK_FULL_KEY full).
  assert (H1 : NoDup (columns df1)
               ∧ (∀ l, l ∈ columns df1 ↔ l ∈ cols0 ∨ l = BENCHMARK_FULL_KEY)
               ∧ index_name df1 = None
               ∧ Forall2 (λ e r, row_cells r = List.map (g1 e) (columns df1))
                   metrics_list (rows df1)).
  { unfold df1, df_set.
    change (columns (mk_DataFrame metrics_list)) with cols0.
    destruct (column_position BENCHMARK_FULL_KEY cols0) as [j|] eqn:Ej; simpl.
    - split; [done|]. split; [|split; [done|]].
      + intros l. split; [by left|]. intros [?| ->]; [done|].
        apply column_position_Some in Ej. by eapply list_elem_of_lookup_2.
      + eapply Forall2_zip_with_r; [exact H0|exact Hfull|].
        intros e r c Hr ->. simpl. rewrite Hr.
        by apply insert_map_position.
    - apply column_position_None in Ej.
      split; [|split; [|split; [done|]]].
      + apply NoDup_app. split_and!; [done| |apply NoDup_singleton].
        intros x Hx ->%list_elem_of_singleton. done.
      + intros l. by rewrite elem_of_app, list_elem_of_singleton.
      + eapply Forall2_zip_with_r; [exact H0|exact Hfull|].
        intros e r c Hr ->. simpl. rewrite Hr, List.map_app. simpl.
        unfold g1 at 2. rewrite bool_decide_eq_true_2 by done.
        f_equal. apply map_ext_in. intros l Hl%list_elem_of_In.
        unfold g1. rewrite bool_decide_eq_false_2; [done|]. by intros ->. }
  destruct H1 as (Hnd1 & Hcols1 & Hidx1 & H1).
  (* the stripped column *)
  pose proof (series_apply_Forall2 _ _ _ _ _ Hfull Hstripped) as Hs.
  assert (Hstr : Forall (λ e, ∃ b, dict_get BENCHMARK_KEY e = Some (PStr b))
                   metrics_list).
  { clear -Hs. induction Hs as [|e c' l out (c & -> & Hc) _ IH];
      constructor; [|done].
    apply strip_repetition_inv in Hc as (b & Hb & _).
    unfold entry_cell in Hb.
    destruct (dict_get BENCHMARK_KEY e) as [v|]; [|done].
    injection Hb as ->. by exists b. }
  destruct (column_position_elem BENCHMARK_KEY (columns df1)) as [ib1 Eib1].
  { apply Hcols1. by left. }
  set (df2 := df_set df1 BENCHMARK_KEY stripped).
  change ((if negb (df_has df2 RUN_KEY)
           then list_remove RUN_KEY _DATAFRAME_CONTEXTUAL_COLUMNS
           else Return _DATAFRAME_CONTEXTUAL_COLUMNS) = Return kc1) in Hkc1.
  change ((if negb (df_has df2 NUM_RUNS_KEY)
           then list_remove NUM_RUNS_KEY kc1 else Return kc1) = Return kc2)
    in Hkc2.
  change (df_select df2 (kc2 ++ cols) = Return df3) in Hsel.
  assert (H2 : columns df2 = columns df1
               ∧ index_name df2 = None
               ∧ Forall2 (λ e r, row_cells r
                                 = List.map (table_cell e) (columns df2))
                   metrics_list (rows df2)).
  { unfold df2, df_set. rewrite Eib1. simpl. split; [done|]. split; [done|].
    eapply Forall2_zip_with_r; [exact H1|exact Hs|].
    intros e r c' Hr (c & -> & Hc). simpl. rewrite Hr.
    rewrite (insert_map_position _ BENCHMARK_KEY _ ib1) by done.
    apply map_ext_in. intros l _. unfold table_cell, g1.
    apply strip_repetition_inv in Hc as (b & Hb & ->).
    unfold entry_cell in Hb.
    destruct (dict_get BENCHMARK_KEY e) as [v|] eqn:Ev; [|done].
    injection Hb as ->. done. }
  destruct H2 as (Hcols2 & Hidx2 & H2).
  (* the key columns *)
  assert (Hhas : ∀ l, l ≠ BENCHMARK_FULL_KEY →
            df_has df2 l = bool_decide (l ∈ cols0)).
  { intros l Hl. unfold df_has. rewrite Hcols2. apply bool_decide_ext.
    rewrite Hcols1. split; [intros [?|?]; done|by left]. }
  rewrite (Hhas RUN_KEY) in Hkc1 by done.
  rewrite (Hhas NUM_RUNS_KEY) in Hkc2 by done.
  pose proof (key_columns_exact _ _ _ _ Hkc1 Hkc2) as ->.
  (* the selection *)
  assert (Hlabels :
    (STARTED_AT
     :: [RUN_ID_KEY; BENCHMARK_FULL_KEY; BENCHMARK_KEY]
     ++ (if negb (bool_decide (RUN_KEY ∈ cols0)) then [] else [RUN_KEY])
     ++ (if negb (bool_decide (NUM_RUNS_KEY ∈ cols0))
         then [] else [NUM_RUNS_KEY])) ++ cols
    = STARTED_AT :: key_columns_of metrics_list ++ cols).
  { unfold key_columns_of. fold cols0.
    destruct (bool_decide (RUN_KEY ∈ cols0)),
      (bool_decide (NUM_RUNS_KEY ∈ cols0)); reflexivity. }
  rewrite Hlabels in Hsel. clear Hlabels.
  set (labels := STARTED_AT :: key_columns_of metrics_list ++ cols) in *.
  apply df_select_spec in Hsel as (Hin & Hidx3 & Hcols3 & Hrows3).
  exists labels, df3.
  split; [done|]. split.
  { intros l Hl. apply Hcols1. rewrite <- Hcols2. by apply Hin. }
  split; [done|]. split; [done|].
  split; [done|]. split; [by rewrite Hidx3|].
  split; [|exact H].
  rewrite Hrows3. eapply Forall2_map_r; [exact H2|]. intros e r Hr.
  cbn [row_cells]. apply map_ext_in. intros l Hl%list_elem_of_In.
  destruct (column_position_elem l (columns df2) (Hin l Hl)) as [i Hi].
  rewrite Hi. by eapply cell_at_map.
Qed.
(** The frame of a list of entries is empty exactly when no entry has
    a property. *)
Lemma frame_columns_nil l :
  frame_columns l = [] ↔ ∀ e, e ∈ l → e = [].
Proof.
  split.
  - intros Hc e He. destruct e as [|[k v] e]; [done|]. exfalso.
    assert (Hk : k ∈ frame_columns l).
    { apply frame_columns_elem. exists ((k, v) :: e). split; [done|]. left. }
    rewrite Hc in Hk. by apply elem_of_nil in Hk.
  - intros Hall. destruct (frame_columns l) as [|c cs] eqn:E; [done|].
    exfalso.
    assert (Hc : c ∈ frame_columns l) by (rewrite E; left).
    apply frame_columns_elem in Hc as (e & He & Hc).
    rewrite (Hall e He) in Hc. by apply elem_of_nil in Hc.
Qed.

Lemma df_empty_frame l :
  df_empty (mk_DataFrame l) = false ↔ ∃ e, e ∈ l ∧ e ≠ [].
Proof.
  unfold df_empty, mk_DataFrame. cbn [rows columns]. split.
  - intros Hne.
    destruct (decide (frame_columns l = [])) as [Hc|Hc].
    { rewrite Hc in Hne. by destruct (imap _ l). }
    destruct (frame_columns l) as [|c cs] eqn:E; [done|].
    assert (Hin : c ∈ frame_columns l) by (rewrite E; left).
    apply frame_columns_elem in Hin as (e & He & Hin).
    exists e. split; [done|]. intros ->. by apply elem_of_nil in Hin.
  - intros (e & He & Hne).
    destruct l as [|e0 l]; [by apply elem_of_nil in He|].
    destruct (frame_columns (e0 :: l)) as [|c cs] eqn:E; [|done].
    exfalso. apply Hne. by eapply frame_columns_nil.
Qed.

Lemma started_at_no_key_column l : STARTED_AT ∉ key_columns_of l.
Proof.
  unfold key_columns_of.
  destruct (bool_decide (RUN_KEY ∈ frame_columns l)),
    (bool_decide (NUM_RUNS_KEY ∈ frame_columns l)); simpl;
    intros H; repeat (apply elem_of_cons in H as [H|H]; [by vm_compute in H|]);
    by apply elem_of_nil in H.
Qed.

(** The table built from entries of which one has a property. *)
Lemma make_dataframe_built metrics_list cols df :
  _make_dataframe metrics_list cols = Return df →
  (∃ e, e ∈ metrics_list ∧ e ≠ []) →
  STARTED_AT ∉ cols →
  index_name df = Some STARTED_AT
  ∧ columns df = key_columns_of metrics_list ++ cols
  ∧ rows df = List.map (table_row (columns df)) metrics_list.
Proof.
  intros H Hne%df_empty_frame Hs.
  destruct (make_dataframe_inv _ _ _ H Hne)
    as (labels & df3 & -> & _ & _ & _ & Hc3 & _ & Hr3 & Hidx).
  unfold df_set_index in Hidx. rewrite Hc3 in Hidx.
  cbn [column_position] in Hidx.
  rewrite bool_decide_eq_true_2 in Hidx by done.
  cbn [delete list_delete] in Hidx.
  rewrite bool_decide_eq_false_2 in Hidx.
  2:{ rewrite elem_of_app. intros [?|?]; [|done].
      by eapply started_at_no_key_column. }
  injection Hidx as <-. cbn [index_name columns rows].
  split; [done|]. split; [done|].
  apply Forall2_eq_map. eapply Forall2_map_r; [exact Hr3|].
  intros e r Hr. unfold table_row, cell_at. rewrite Hr.
  cbn [List.map nth delete list_delete]. f_equal.
Qed.

(** X6.  The table the builder returns for entries of which at least
    one has a property, when no requested column is called
    [started_at]: the index is the start time; the columns are the run
    id, the full benchmark name, the benchmark name, the run and
    run-count columns if some entry has them, then the requested
    columns in the requested order; there is one row per entry, in the
    order of the entries, and a row holds under each label the
    property of its entry, the missing value where the entry has
    none, the benchmark name as it was under [benchmark_fullname]
    and without its repetition suffix under [benchmark]. *)
Theorem make_dataframe_table metrics_list cols df :
  _make_dataframe metrics_list cols = Return df →
  (∃ e, e ∈ metrics_list ∧ e ≠ []) →
  STARTED_AT ∉ cols →
  index_name df = Some STARTED_AT
  ∧ columns df = key_columns_of metrics_list ++ cols
  ∧ rows df = List.map (table_row (columns df)) metrics_list.
Proof. apply make_dataframe_built. Qed.

Lemma series_apply_raises f series e :
  (∀ c e', f c = Raise e' → e' = e) →
  (∃ c, c ∈ series ∧ ∃ e', f c = Raise e') →
  series_apply f series = Raise e.
Proof.
  intros Hf. induction series as [|x series IH]; simpl.
  - intros (c & Hc & _). by apply elem_of_nil in Hc.
  - intros (c & Hc & e' & He').
    destruct (f x) as [y|e0] eqn:Ex; [|by rewrite (Hf _ _ Ex)].
    apply elem_of_cons in Hc as [->|Hc]; [congruence|].
    rewrite IH; [done|]. eauto.
Qed.

(** X7.  The table builder needs a benchmark name in every entry.
    For entries of which at least one has a property, whatever columns
    are requested: when no entry has the property [benchmark], the
    builder raises [KeyError] for it; when some entry has it and some
    entry has none, or one that is no string, the builder raises
    [TypeError]. *)
Theorem make_dataframe_needs_benchmark_names metrics_list cols :
  (∃ e, e ∈ metrics_list ∧ e ≠ []) →
  ((∀ e, e ∈ metrics_list → dict_get BENCHMARK_KEY e = None) →
   _make_dataframe metrics_list cols = Raise (KeyError (PStr BENCHMARK_KEY)))
  ∧ ((∃ e, e ∈ metrics_list ∧ dict_get BENCHMARK_KEY e ≠ None) →
     (∃ e, e ∈ metrics_list
           ∧ ∀ b, dict_get BENCHMARK_KEY e ≠ Some (PStr b)) →
     _make_dataframe metrics_list cols = Raise TypeError).
Proof.
  intros Hne%df_empty_frame. unfold _make_dataframe. rewrite Hne.
  cbn [negb]. split.
  - intros Hall. unfold df_get.
    assert (Hn : BENCHMARK_KEY ∉ columns (mk_DataFrame metrics_list)).
    { intros (e & He & Hk)%frame_columns_elem.
      apply dict_keys_in in Hk as [v Hv]. rewrite (Hall e He) in Hv. done. }
    apply column_position_None in Hn. by rewrite Hn.
  - intros (e1 & He1 & Hb1) (e & He & Hb).
    assert (Hin : BENCHMARK_KEY ∈ columns (mk_DataFrame metrics_list)).
    { apply frame_columns_elem. exists e1. split; [done|].
      destruct (dict_get BENCHMARK_KEY e1) eqn:E; [|done].
      by eapply dict_get_Some_keys. }
    apply column_position_elem in Hin as [ib Hib].
    unfold df_get. rewrite Hib. cbn [mbind result_bind].
    assert (Hfull : Forall2 (λ e c, c = entry_cell e BENCHMARK_KEY)
                      metrics_list
                      (List.map (cell_at ib)
                         (rows (mk_DataFrame metrics_list)))).
    { eapply Forall2_map_r.
      - unfold mk_DataFrame. cbn [rows].
        apply (Forall2_imap_r
                 (λ e r, row_cells r
                         = List.map (entry_cell e)
                             (frame_columns metrics_list))).
        done.
      - intros e' r Hr. by eapply cell_at_map. }
    rewrite (series_apply_raises _ _ TypeError); [done| |].
    + intros [[| | | |s| | | |]|] e'; simpl; congruence.
    + apply Forall2_eq_map in Hfull. rewrite Hfull.
      exists (entry_cell e BENCHMARK_KEY). split.
      { apply list_elem_of_In.
        apply (in_map (λ e, entry_cell e BENCHMARK_KEY)).
        by apply list_elem_of_In. }
      unfold entry_cell.
      destruct (dict_get BENCHMARK_KEY e) as [[| | | |s| | | |]|] eqn:E;
        simpl; eauto.
      by destruct (Hb s).
Qed.

(** ** The aggregator *)

Ltac labels_differ :=
  let H := fresh in intros H; vm_compute in H; discriminate H.

Lemma list_remove_absent x l : x ∉ l → list_remove x l = Raise ValueError.
Proof.
  induction l as [|y l IH]; simpl; [done|].
  intros [Hne Hin]%not_elem_of_cons.
  rewrite bool_decide_eq_false_2 by done. by rewrite IH.
Qed.

Lemma list_remove_present x l :
  x ∈ l → ∃ r, list_remove x l = Return r ∧ ∀ y, y ≠ x → y ∈ r ↔ y ∈ l.
Proof.
  induction l as [|z l IH]; simpl.
  - intros H. by apply elem_of_nil in H.
  - intros Hin. case_bool_decide as Hxz.
    + exists l. split; [done|]. intros y Hy.
      rewrite elem_of_cons. split; [by right|]. intros [->|?]; done.
    + apply elem_of_cons in Hin as [?|Hin]; [done|].
      destruct (IH Hin) as (r & -> & Hr). exists (z :: r).
      split; [done|]. intros y Hy. rewrite !elem_of_cons, Hr by done. done.
Qed.

Lemma list_remove_app x l1 l2 r :
  list_remove x l1 = Return r → list_remove x (l1 ++ l2) = Return (r ++ l2).
Proof.
  revert r. induction l1 as [|y l1 IH]; intros r; simpl; [done|].
  case_bool_decide; [by intros [= <-]|].
  destruct (list_remove x l1) as [r'|]; [|done].
  intros [= <-]. by rewrite (IH r').
Qed.

Lemma elem_of_delete_position label (cols : list pystr) i c :
  column_position label cols = Some i → c ≠ label → c ∈ cols →
  c ∈ delete i cols.
Proof.
  revert i. induction cols as [|x cols IH]; intros i; simpl; [done|].
  case_bool_decide as Hlx.
  - intros [= <-] Hc Hin. subst x. simpl.
    apply elem_of_cons in Hin as [?|?]; done.
  - destruct (column_position label cols) as [j|]; simpl; [|done].
    intros [= <-] Hc Hin. simpl.
    apply elem_of_cons in Hin as [->|Hin]; [left|right; by apply IH].
Qed.

(** Dropping the run column keeps the index and every other column. *)
Lemma dropped_run_column df :
  let df' := if df_has df RUN_KEY then df_drop df RUN_KEY else df in
  index_name df' = index_name df
  ∧ ∀ c, c ≠ RUN_KEY → c ∈ columns df' ↔ c ∈ columns df.
Proof.
  destruct (df_has df RUN_KEY); cbn zeta; [|done].
  unfold df_drop.
  destruct (column_position RUN_KEY (columns df)) as [i|] eqn:E; [|done].
  cbn [index_name columns]. split; [done|]. intros c Hc. split.
  - apply list_elem_of_delete_inv.
  - by apply (elem_of_delete_position RUN_KEY).
Qed.

Lemma find_all_false {A} (f : A → bool) l :
  (∀ x, x ∈ l → f x = false) → List.find f l = None.
Proof.
  induction l as [|x l IH]; simpl; [done|]. intros H.
  rewrite (H x) by left. apply IH. intros y Hy. apply H. by right.
Qed.

(** X8.  The aggregator removes the run column and the full-name
    column from the group keys without looking whether they are there,
    and the run-count column when the table has none: on group keys
    without [run], without [benchmark_fullname], or without
    [num_runs] for a table without such a column, it raises
    [ValueError], whatever the table and the aggregation functions. *)
Theorem aggregate_results_needs_contextual_keys df aggs groupby_columns :
  RUN_KEY ∉ groupby_columns
  ∨ BENCHMARK_FULL_KEY ∉ groupby_columns
  ∨ ((NUM_RUNS_KEY ∉ columns df) ∧ (NUM_RUNS_KEY ∉ groupby_columns)) →
  _aggregate_results df aggs groupby_columns = Raise ValueError.
Proof.
  intros H. unfold _aggregate_results.
  destruct (decide (RUN_KEY ∈ groupby_columns)) as [H1|H1];
    [|by rewrite list_remove_absent].
  destruct (list_remove_present _ _ H1) as (g1 & -> & Hg1).
  cbn [mbind result_bind].
  destruct (decide (BENCHMARK_FULL_KEY ∈ g1)) as [H2|H2];
    [|by rewrite list_remove_absent].
  destruct (list_remove_present _ _ H2) as (g2 & -> & Hg2).
  cbn [mbind result_bind].
  destruct H as [H|[H|[Hdf Hg]]];
    [done|apply Hg1 in H2; [done|labels_differ]| ].
  pose proof (dropped_run_column df) as [_ Hcols]. cbn zeta in Hcols.
  set (df' := if df_has df RUN_KEY then df_drop df RUN_KEY else df) in *.
  assert (Hn : df_has df' NUM_RUNS_KEY = false).
  { unfold df_has. apply bool_decide_eq_false_2.
    intros Hin. apply Hcols in Hin; [done|labels_differ]. }
  rewrite Hn. cbn [negb]. rewrite list_remove_absent; [reflexivity|].
  intros Hin. apply Hg2 in Hin; [|labels_differ].
  apply Hg1 in Hin; [done|labels_differ].
Qed.

(** X9.  Aggregating a table the builder made from entries of which
    one has a property, with the group keys [overview] passes (the
    contextual columns followed by the hyperparameter names), when no
    requested column is called [started_at] or [run]: no key is
    missing and every key is resolved, so the result is what the grouping
    engine gives on the table without its run column for the keys
    [started_at], [run_id], [benchmark], [num_runs] if the table has
    that column, and the hyperparameter names; the full benchmark name
    is no key. *)
Theorem aggregate_built_table metrics_list hparam_names metric_names aggs df :
  _make_dataframe metrics_list (hparam_names ++ metric_names) = Return df →
  (∃ e, e ∈ metrics_list ∧ e ≠ []) →
  STARTED_AT ∉ hparam_names ++ metric_names →
  RUN_KEY ∉ hparam_names ++ metric_names →
  _aggregate_results df aggs (_DATAFRAME_CONTEXTUAL_COLUMNS ++ hparam_names)
  = grouped_agg (if df_has df RUN_KEY then df_drop df RUN_KEY else df)
      ([STARTED_AT; RUN_ID_KEY; BENCHMARK_KEY]
         ++ (if df_has df NUM_RUNS_KEY then [NUM_RUNS_KEY] else [])
         ++ hparam_names) aggs.
Proof.
  intros Hdf Hne Hs Hr.
  destruct (make_dataframe_built _ _ _ Hdf Hne Hs) as (Hidx & Hcols & _).
  unfold _aggregate_results.
  pose proof (dropped_run_column df) as [Hidx' Hcols']. cbn zeta in *.
  set (df' := if df_has df RUN_KEY then df_drop df RUN_KEY else df) in *.
  rewrite (list_remove_app RUN_KEY _ _
             [STARTED_AT; RUN_ID_KEY; BENCHMARK_FULL_KEY; BENCHMARK_KEY;
              NUM_RUNS_KEY]) by reflexivity.
  cbn [mbind result_bind].
  rewrite (list_remove_app BENCHMARK_FULL_KEY _ _
             [STARTED_AT; RUN_ID_KEY; BENCHMARK_KEY; NUM_RUNS_KEY])
    by reflexivity.
  cbn [mbind result_bind].
  assert (Hnum : df_has df' NUM_RUNS_KEY = df_has df NUM_RUNS_KEY).
  { unfold df_has. apply bool_decide_ext. apply Hcols'. labels_differ. }
  rewrite Hnum.
  assert (Hkey : ∀ c, c ∈ [RUN_ID_KEY; BENCHMARK_KEY] ++ hparam_names →
                      c ∈ columns df').
  { intros c Hc.
    assert (c ≠ RUN_KEY).
    { intros ->. apply elem_of_app in Hc as [Hc|Hc].
      - repeat (apply elem_of_cons in Hc as [Hc|Hc]; [by vm_compute in Hc|]).
        by apply elem_of_nil in Hc.
      - apply Hr, elem_of_app. by left. }
    apply Hcols'; [done|]. rewrite Hcols.
    apply elem_of_app in Hc as [Hc|Hc].
    - apply elem_of_app. left. unfold key_columns_of.
      apply elem_of_app. left.
      apply elem_of_cons in Hc as [->|Hc]; [left|].
      apply list_elem_of_singleton in Hc as ->. right. right. left.
    - apply elem_of_app. right. apply elem_of_app. by left. }
  assert (Hres : ∀ names,
            (∀ c, c ∈ names → c ∈ columns df') →
            List.find (unresolved_key df') (STARTED_AT :: names) = None).
  { intros names Hn. apply find_all_false. intros c Hc.
    unfold unresolved_key.
    apply elem_of_cons in Hc as [->|Hc].
    - rewrite Hidx', Hidx. rewrite (bool_decide_eq_true_2 _ eq_refl).
      apply andb_false_r.
    - unfold df_has. by rewrite bool_decide_eq_true_2 by auto. }
  destruct (df_has df NUM_RUNS_KEY) eqn:En; cbn [negb].
  - cbn [mbind result_bind]. unfold df_groupby_agg.
    change ([STARTED_AT; RUN_ID_KEY; BENCHMARK_KEY; NUM_RUNS_KEY]
              ++ hparam_names)
      with (STARTED_AT :: [RUN_ID_KEY; BENCHMARK_KEY; NUM_RUNS_KEY]
              ++ hparam_names).
    rewrite Hres; [done|].
    intros c Hc.
    change ([RUN_ID_KEY; BENCHMARK_KEY; NUM_RUNS_KEY] ++ hparam_names)
      with ([RUN_ID_KEY; BENCHMARK_KEY] ++ NUM_RUNS_KEY :: hparam_names)
      in Hc.
    apply elem_of_app in Hc as [Hc|Hc].
    { apply Hkey, elem_of_app. by left. }
    apply elem_of_cons in Hc as [->|Hc].
    { unfold df_has in Hnum. by apply bool_decide_eq_true in Hnum. }
    apply Hkey, elem_of_app. by right.
  - rewrite (list_remove_app NUM_RUNS_KEY _ _
               [STARTED_AT; RUN_ID_KEY; BENCHMARK_KEY]) by reflexivity.
    cbn [mbind result_bind]. unfold df_groupby_agg.
    change ([STARTED_AT; RUN_ID_KEY; BENCHMARK_KEY] ++ hparam_names)
      with (STARTED_AT :: [RUN_ID_KEY; BENCHMARK_KEY] ++ hparam_names).
    rewrite Hres; [done|]. exact Hkey.
Qed.

(** ** The table of [overview] *)

Lemma metric_names_not_excluded store r n :
  _get_benchmark_results store = Return r →
  n ∈ property_names_of r → n ∉ excluded_names.
Proof.
  clear literal_eval.
  unfold _get_benchmark_results. intros (st & _ & H)%bind_Return.
  apply bind_Return in H as (a2r & _ & H).
  apply bind_Return in H as (props & _ & [= <-]). simpl.
  rewrite sorted_set_elem, list_elem_of_In, filter_In.
  rewrite negb_true_iff, bool_decide_eq_false. tauto.
Qed.

(** The table of [overview] when some entry qualifies. *)
Lemma overview_built store hr mr df :
  _get_hparams store = Return hr →
  _get_benchmark_results store = Return mr →
  overview store None = Return df →
  results_list (merge_values hr mr) ≠ [] →
  STARTED_AT ∉ property_names_of hr →
  index_name df = Some STARTED_AT
  ∧ columns df
    = key_columns_of (results_list (merge_values hr mr))
        ++ property_names_of hr ++ property_names_of mr
  ∧ rows df
    = List.map (table_row (columns df)) (results_list (merge_values hr mr)).
Proof.
  intros Hh Hm Hov Hne Hs.
  rewrite (overview_unfold _ _ hr mr Hh Hm) in Hov.
  destruct (_make_dataframe _ _) as [df'|] eqn:E; [|done].
  injection Hov as ->.
  change (property_names_of (merge_values hr mr))
    with (property_names_of hr ++ property_names_of mr) in E.
  eapply make_dataframe_built; [exact E| |].
  - destruct (results_list (merge_values hr mr)) as [|e l] eqn:El; [done|].
    exists e. split; [left|].
    assert (He : e ∈ results_list (merge_values hr mr))
      by (rewrite El; left).
    apply results_list_spec in He as [_ He]. intros ->. simpl in He. lia.
  - rewrite elem_of_app. intros [?|Hin]; [done|].
    eapply metric_names_not_excluded; [exact Hm|exact Hin|].
    unfold excluded_names, _DEFAULT_COLUMNS. do 3 right. left.
Qed.

(** X10.  The table [overview] returns without aggregation, when some
    merged entry has more than five properties and no hyperparameter
    is called [started_at]: the index is the start time; the columns
    are the key columns, the hyperparameter names and the metric
    names, in this order; the rows are those of the merged entries
    with more than five properties, in the order of the merged
    dictionary, each with the properties of its entry under the column
    labels and the missing value where it has none. *)
Theorem overview_table store hr mr df :
  _get_hparams store = Return hr →
  _get_benchmark_results store = Return mr →
  overview store None = Return df →
  results_list (merge_values hr mr) ≠ [] →
  STARTED_AT ∉ property_names_of hr →
  index_name df = Some STARTED_AT
  ∧ columns df
    = key_columns_of (results_list (merge_values hr mr))
        ++ property_names_of hr ++ property_names_of mr
  ∧ rows df
    = List.map (table_row (columns df)) (results_list (merge_values hr mr)).
Proof. apply overview_built. Qed.

(** ** The order of the merged keys *)

Lemma merge_entry_keys (A : odict pystr (odict pystr pyval)) kv :
  dict_keys (merge_entry A kv)
  = if dict_mem (fst kv) A then dict_keys A else dict_keys A ++ [fst kv].
Proof.
  unfold merge_entry, dict_mem.
  destruct (dict_get kv.1 A) eqn:E; rewrite dict_keys_set;
    unfold dict_mem; by rewrite E.
Qed.

Lemma merge_keys (B A : odict pystr (odict pystr pyval)) :
  NoDup (dict_keys B) →
  dict_keys (fold_left merge_entry B A)
  = dict_keys A
      ++ List.filter (λ k, negb (dict_mem k A)) (dict_keys B).
Proof.
  revert A. induction B as [|[k0 b0] B IH]; intros A Hnd.
  { simpl. by rewrite app_nil_r. }
  simpl in Hnd. apply NoDup_cons in Hnd as [Hk0 Hnd].
  cbn [fold_left]. rewrite IH by done. rewrite merge_entry_keys.
  cbn [dict_keys List.map fst List.filter].
  assert (Hmem : ∀ k, k ≠ k0 →
            dict_mem k (merge_entry A (k0, b0)) = dict_mem k A).
  { intros k Hk. unfold dict_mem. rewrite merge_entry_get.
    cbn [fst]. by rewrite bool_decide_eq_false_2. }
  assert (Hf : List.filter (λ k, negb (dict_mem k (merge_entry A (k0, b0))))
                 (dict_keys B)
               = List.filter (λ k, negb (dict_mem k A)) (dict_keys B)).
  { apply filter_ext_in. intros k Hk%list_elem_of_In.
    rewrite Hmem; [done|]. by intros ->. }
  fold (dict_keys B). rewrite Hf.
  destruct (dict_mem k0 A); cbn [negb]; [done|].
  by rewrite <- app_assoc.
Qed.

(** X11.  The merged dictionary keeps the order of the first
    result's keys and appends the keys that only the second result
    has, in the order of the second result: merging two separate
    results never moves a key of the first. *)
Theorem merge_results_key_order h r1 r2 v1 v2 :
  separate h r1 r2 →
  value_of h r1 = Some v1 → value_of h r2 = Some v2 →
  ∃ h' r v,
    _merge_results h r1 r2 = Some (h', r)
    ∧ value_of h' r = Some v
    ∧ dict_keys (properties_of v)
      = dict_keys (properties_of v1)
          ++ List.filter (λ k, negb (dict_mem k (properties_of v1)))
               (dict_keys (properties_of v2)).
Proof.
  intros Hsep Hv1 Hv2.
  destruct (merge_results_spec h r1 r2 v1 v2 Hsep Hv1 Hv2)
    as (h' & l & Hm & _ & Hv & _).
  assert (Hnd : NoDup (dict_keys (properties_of v2))).
  { destruct Hsep as (_ & d1 & d2 & _ & Hd2 & _ & Hk).
    apply value_of_inv in Hv2 as (d2' & Hd2' & Hps2 & _).
    assert (d2' = d2) as -> by congruence.
    by rewrite (deref_props_keys _ _ _ Hps2). }
  eexists _, _, _. split; [exact Hm|]. split; [exact Hv|].
  by apply merge_keys.
Qed.

(** ** The dictionary of hyperparameters *)

Lemma count_char_app c s t :
  count_char c (s ++ t) = (count_char c s + count_char c t)%nat.
Proof. unfold count_char. by rewrite List.filter_app, length_app. Qed.

Lemma count_char_cons c s : count_char c (c :: s) = S (count_char c s).
Proof. unfold count_char. simpl. by rewrite N.eqb_refl. Qed.

Lemma count_char_cons_ne c d s : d ≠ c → count_char c (d :: s) = count_char c s.
Proof.
  intros Hd. unfold count_char. simpl.
  destruct (N.eqb_spec c d); [by subst|done].
Qed.

Lemma str_split_one sep s p :
  str_split sep s = [p] → s = p ∧ count_char sep s = O.
Proof.
  revert p. induction s as [|c s IH]; intros p; simpl.
  - by intros [= <-].
  - destruct (N.eqb_spec c sep) as [->|Hc].
    + intros [= <- H]. pose proof (str_split_length sep s) as Hl.
      rewrite H in Hl. done.
    + destruct (str_split sep s) as [|piece pieces] eqn:E.
      { intros [= <-]. pose proof (str_split_length sep s) as Hl.
        rewrite E in Hl. done. }
      intros [= <- ->]. destruct (IH piece eq_refl) as [-> Hn].
      by rewrite count_char_cons_ne.
Qed.

Lemma str_split_two sep s name val :
  str_split sep s = [name; val] →
  s = name ++ sep :: val
  ∧ count_char sep name = O ∧ count_char sep val = O.
Proof.
  revert name. induction s as [|c s IH]; intros name; simpl; [done|].
  destruct (N.eqb_spec c sep) as [->|Hc].
  - intros [= <- H]. apply str_split_one in H as [-> H]. done.
  - destruct (str_split sep s) as [|piece pieces] eqn:E; [done|].
    intros [= <- ->]. destruct (IH piece eq_refl) as (-> & Hn & Hv).
    by rewrite count_char_cons_ne.
Qed.

(** An entry has one name. *)
Lemma entry_name_unique name val name' val' :
  count_char 61 name = O → count_char 61 val = O →
  name ++ 61 :: val = name' ++ 61 :: val' → name = name' ∧ val = val'.
Proof.
  intros Hn Hv Heq.
  assert (Hc : count_char 61 (name' ++ 61 :: val') = 1%nat).
  { rewrite <- Heq, count_char_app, count_char_cons. lia. }
  rewrite count_char_app, count_char_cons in Hc.
  assert (Hs : str_split 61 (name ++ 61 :: val)
               = str_split 61 (name' ++ 61 :: val')) by by rewrite Heq.
  rewrite !str_split_first, !str_split_whole in Hs by lia.
  by injection Hs as -> ->.
Qed.

Lemma parse_entry_inv hparams hp hparams' :
  parse_entry hparams hp = Return hparams' →
  ∃ name val v,
    hp = PStr (name ++ 61 :: val)
    ∧ count_char 61 name = O ∧ count_char 61 val = O
    ∧ _to_pytype val = Return v
    ∧ hparams' = dict_set name v hparams.
Proof.
  unfold parse_entry. destruct hp as [| | | |s| | | |]; try done.
  destruct (str_split 61 s) as [|name [|val [|]]] eqn:E; try done.
  destruct (_to_pytype val) as [v|] eqn:Ev; [|done].
  intros [= <-]. apply str_split_two in E as (-> & Hn & Hv).
  by exists name, val, v.
Qed.

Lemma parse_loop items :
  ∀ acc hparams,
    for_each parse_entry items acc = Return hparams →
    NoDup (dict_keys acc) →
    NoDup (dict_keys hparams)
    ∧ Forall (λ it, ∃ hp, it = PStr hp ∧ count_char 61 hp = 1%nat) items
    ∧ (∀ name, name ∈ dict_keys hparams
               ↔ name ∈ dict_keys acc
                 ∨ ∃ val, PStr (name ++ 61 :: val) ∈ items)
    ∧ (∀ name, (∀ val, PStr (name ++ 61 :: val) ∉ items) →
               dict_get name hparams = dict_get name acc)
    ∧ (∀ pre name val post,
         items = pre ++ PStr (name ++ 61 :: val) :: post →
         (∀ val', PStr (name ++ 61 :: val') ∉ post) →
         ∃ v, _to_pytype val = Return v ∧ dict_get name hparams = Some v).
Proof.
  induction items as [|it items IH]; intros acc hparams; simpl.
  - intros [= <-] Hnd. split_and!; [done|constructor| | |].
    + intros name. split; [by left|]. intros [?|(val & H)]; [done|].
      by apply elem_of_nil in H.
    + done.
    + intros [|??] ???; done.
  - destruct (parse_entry acc it) as [acc1|] eqn:E; [|done].
    intros Hloop Hnd.
    apply parse_entry_inv in E as (name0 & val0 & v0 & -> & Hn0 & Hv0 & Ev0
                                   & ->).
    destruct (IH _ _ Hloop (dict_set_NoDup _ _ _ Hnd))
      as (Hnd' & Hall & Hkeys & Hother & Hlast).
    split_and!.
    + done.
    + constructor; [|done]. eexists. split; [done|].
      rewrite count_char_app, count_char_cons. lia.
    + intros name. rewrite Hkeys, dict_keys_set. split.
      * intros [Hin|(val & Hin)].
        -- match type of Hin with
           | context [if ?b then _ else _] => destruct b
           end; [by left|].
           apply elem_of_app in Hin as [?|Hin]; [by left|].
           apply list_elem_of_singleton in Hin as ->.
           right. exists val0. left.
        -- right. exists val. by right.
      * intros [Hin|(val & Hin)].
        -- left. match goal with
                 | |- context [if ?b then _ else _] => destruct b
                 end; [done|].
           apply elem_of_app. by left.
        -- apply elem_of_cons in Hin as [Heq|Hin]; [|right; by exists val].
           injection Heq as Heq. symmetry in Heq.
           apply entry_name_unique in Heq as [<- _]; [|done..].
           left. unfold dict_mem.
           match goal with
           | |- context [match ?g with Some _ => _ | None => _ end] =>
               destruct g eqn:Eg
           end.
           ++ by eapply dict_get_Some_keys.
           ++ apply elem_of_app. right. left.
    + intros name Hno. rewrite Hother.
      * apply dict_get_set_ne. intros ->. apply (Hno val0). left.
      * intros val Hin. apply (Hno val). by right.
    + intros pre name val post Hitems Hno.
      destruct pre as [|p pre]; simpl in Hitems.
      * injection Hitems as Heq <-.
        apply entry_name_unique in Heq as [<- <-]; [|done..].
        exists v0. split; [done|].
        rewrite (Hother name0 Hno). apply dict_get_set_eq.
      * injection Hitems as _ ->. by eapply Hlast.
Qed.

(** X12.  The dictionary [_parse_hparams] returns: the serialized
    property evaluated to a collection whose items are all strings
    with exactly one '='; the dictionary has each name once, its names
    are the texts before the '=' of the items, and under a name it
    holds the coerced value of the last item with that name. *)
Theorem parse_hparams_dictionary hp_prop hparams :
  _parse_hparams hp_prop = Return hparams →
  ∃ hp_strings items,
    literal_eval hp_prop = Return hp_strings
    ∧ iterate hp_strings = Return items
    ∧ Forall (λ it, ∃ hp, it = PStr hp ∧ count_char 61 hp = 1%nat) items
    ∧ NoDup (dict_keys hparams)
    ∧ (∀ name, name ∈ dict_keys hparams
               ↔ ∃ val, PStr (name ++ 61 :: val) ∈ items)
    ∧ (∀ pre name val post,
         items = pre ++ PStr (name ++ 61 :: val) :: post →
         (∀ val', PStr (name ++ 61 :: val') ∉ post) →
         ∃ v, _to_pytype val = Return v ∧ dict_get name hparams = Some v).
Proof.
  unfold _parse_hparams. intros (hp_strings & Hev & H)%bind_Return.
  apply bind_Return in H as (items & Hit & Hloop).
  destruct (parse_loop _ _ _ Hloop (NoDup_nil_2 : NoDup (dict_keys [])))
    as (Hnd & Hall & Hkeys & _ & Hlast).
  exists hp_strings, items. split_and!; try done.
  intros name. rewrite Hkeys. split; [|by right].
  intros [H|?]; [|done]. by apply elem_of_nil in H.
Qed.

(** ** Every entry carries its context *)

Lemma get_hparams_contextual store r k e :
  _get_hparams store = Return r →
  dict_get k (properties_of r) = Some e → contextual e.
Proof.
  intros Hr Hk. split; [by eapply get_hparams_stamped|].
  revert Hr k e Hk.
  unfold _get_hparams. intros (st & Hloop & [= <-])%bind_Return. simpl.
  refine (for_each_invariant hparams_round
            (λ st, ∀ k e, dict_get k (fst st) = Some e →
                          ∃ b, dict_get BENCHMARK_KEY e = Some (PStr b))
            _ _ _ _ Hloop _); [|done].
  intros s ex s' (hp & t & _ & _ & ->)%hparams_round_inv Hst k e. simpl.
  rewrite dict_get_set. case_bool_decide; [|apply Hst].
  intros [= <-]. eexists.
  rewrite dict_get_set_ne by apply contextual_keys_distinct.
  apply dict_get_set_eq.
Qed.

Lemma evals_loop_NoDup l acc ev :
  for_each evals_round l acc = Return ev →
  NoDup (dict_keys acc) → NoDup (dict_keys ev).
Proof.
  apply (for_each_invariant evals_round (λ d, NoDup (dict_keys d))).
  intros s [k v] s'. unfold evals_round. simpl.
  destruct (has_int_value v).
  - intros [= <-]. apply dict_set_NoDup.
  - intros (x & _ & [= <-])%bind_Return. apply dict_set_NoDup.
Qed.

Lemma metrics_loop_NoDup l st st' :
  for_each metrics_round l st = Return st' →
  (∀ a ev, dict_get a (fst st) = Some ev → NoDup (dict_keys ev)) →
  (∀ a ev, dict_get a (fst st') = Some ev → NoDup (dict_keys ev)).
Proof.
  apply (for_each_invariant metrics_round
           (λ st, ∀ a ev, dict_get a (fst st) = Some ev
                          → NoDup (dict_keys ev))).
  intros s a s'. unfold metrics_round.
  intros (ev & Hev & [= <-])%bind_Return Hs a' ev'. simpl.
  rewrite dict_get_set. case_bool_decide; [|apply Hs].
  intros [= <-]. eapply evals_loop_NoDup; [exact Hev|]. constructor.
Qed.

Lemma get_benchmark_results_contextual store r k e :
  _get_benchmark_results store = Return r →
  dict_get k (properties_of r) = Some e →
  contextual e ∧ NoDup (dict_keys e).
Proof.
  intros (st & a2r & Hm & _ & Hloop)%get_benchmark_results_inv.
  pose proof (metrics_loop_NoDup _ _ _ Hm) as Hnd. simpl in Hnd.
  specialize (Hnd ltac:(done)).
  revert k e.
  assert (Hgen : ∀ items props props',
            for_each (properties_round a2r) items props = Return props' →
            (∀ it, it ∈ items → NoDup (dict_keys (snd it))) →
            (∀ k e, dict_get k props = Some e
                    → contextual e ∧ NoDup (dict_keys e)) →
            (∀ k e, dict_get k props' = Some e
                    → contextual e ∧ NoDup (dict_keys e))).
  { induction items as [|it items IH]; intros props props'; simpl.
    - by intros [= <-].
    - destruct (properties_round a2r props it) as [props1|] eqn:E; [|done].
      intros Hl Hit Hp. eapply IH; [exact Hl| |].
      + intros it' Hit'. apply Hit. by right.
      + apply properties_round_inv in E as (key & entry & Hke & ->).
        intros k e. rewrite dict_get_set. case_bool_decide; [|apply Hp].
        intros [= <-]. split; [split|].
        * by eapply keyed_entry_stamped.
        * apply keyed_entry_inv in Hke
            as (run_id & s & b & _ & _ & _ & Hb & _). eauto.
        * apply keyed_entry_inv in Hke
            as (run_id & s & b & _ & _ & -> & _).
          do 2 apply dict_set_NoDup. apply Hit. left. }
  apply (Hgen _ _ _ Hloop); [|done].
  intros [a ev] Hin. simpl. apply (Hnd a).
  (* the items of a dictionary with distinct keys *)
  assert (Hk : NoDup (dict_keys (fst st))).
  { refine (for_each_invariant metrics_round
              (λ st, NoDup (dict_keys (fst st))) _ _ _ _ Hm _);
      [|constructor].
    intros s x s'. unfold metrics_round.
    intros (ev' & _ & [= <-])%bind_Return. apply dict_set_NoDup. }
  clear -Hin Hk. induction (fst st) as [|[a0 ev0] d IH]; simpl in *.
  { by apply elem_of_nil in Hin. }
  apply NoDup_cons in Hk as [Ha0 Hk].
  apply elem_of_cons in Hin as [[= -> ->]|Hin].
  - by rewrite bool_decide_eq_true_2.
  - rewrite bool_decide_eq_false_2; [by apply IH|].
    intros ->. apply Ha0. apply list_elem_of_In.
    apply list_elem_of_In in Hin. by apply (in_map fst) in Hin.
Qed.

(** X14.  Every entry of the merged result of the two extractors
    carries its context: the run id as a string, the start time
    computed from that run id, and a benchmark name that is a string.
    So the table builder finds a start time, a run id and a benchmark
    name for every row. *)
Theorem merged_entries_carry_context store m k e :
  merged store = Return m →
  dict_get k (properties_of m) = Some e →
  ∃ run_id s b,
    dict_get RUN_ID_KEY e = Some (PStr run_id)
    ∧ started_at run_id = Return s
    ∧ dict_get STARTED_AT e = Some s
    ∧ dict_get BENCHMARK_KEY e = Some (PStr b).
Proof.
  intros (hr & mr & Hh & Hm & ->)%merged_inv.
  assert (Hc : dict_get k (properties_of (merge_values hr mr)) = Some e →
               contextual e).
  { unfold merge_values. cbn [properties_of]. rewrite merge_get.
    2:{ destruct (get_benchmark_results_inv _ _ Hm) as (st & a2r & _ & _ & Hl).
        eapply properties_loop_NoDup; [exact Hl|constructor]. }
    destruct (dict_get k (properties_of hr)) as [a|] eqn:Ea,
      (dict_get k (properties_of mr)) as [b|] eqn:Eb; intros [= <-].
    - destruct (get_benchmark_results_contextual _ _ _ _ Hm Eb)
        as [[(run_id & s & Hr & Hs & Ht) [bn Hb]] Hnd].
      split; [exists run_id, s; split_and!; [|done|]|exists bn];
        rewrite dict_get_update by done.
      + by rewrite Hr.
      + by rewrite Ht.
      + by rewrite Hb.
    - by eapply get_hparams_contextual.
    - by eapply get_benchmark_results_contextual. }
  intros He. destruct (Hc He) as [(run_id & s & Hr & Hs & Ht) [b Hb]].
  by exists run_id, s, b.
Qed.

(** ** The run ids of the artifacts *)

Lemma exec_to_artifact_get events :
  ∀ d e a,
    dict_get e
      (fold_left (λ d ev, dict_set (execution_id ev) (artifact_id ev) d)
         events d) = Some a →
    dict_get e d = Some a
    ∨ ∃ ev, ev ∈ events ∧ execution_id ev = e ∧ artifact_id ev = a.
Proof.
  induction events as [|ev events IH]; intros d e a; simpl; [by left|].
  intros [H|(ev' & Hin & He & Ha)]%IH.
  - rewrite dict_get_set in H. case_bool_decide; [|by left].
    injection H as <-. right. exists ev. split; [left|done].
  - right. exists ev'. split; [by right|done].
Qed.

Lemma run_id_loop (e2a : odict Z Z) executions :
  ∀ acc m,
    for_each
      (λ (artifact_to_run_id : odict Z pystr) execution,
         match dict_get (ex_id execution) e2a with
         | Some a =>
             Return (dict_set a (prop_string execution RUN_ID_KEY)
                       artifact_to_run_id)
         | None => Raise (KeyError (PInt (ex_id execution)))
         end) executions acc = Return m →
    NoDup (dict_keys acc) →
    NoDup (dict_keys m)
    ∧ (∀ ex, ex ∈ executions → ex_id ex ∈ dict_keys e2a)
    ∧ (∀ a run_id,
         dict_get a m = Some run_id →
         dict_get a acc = Some run_id
         ∨ ∃ ex, ex ∈ executions
                 ∧ dict_get (ex_id ex) e2a = Some a
                 ∧ prop_string ex RUN_ID_KEY = run_id)
    ∧ (∀ a, (∀ ex, ex ∈ executions → dict_get (ex_id ex) e2a ≠ Some a) →
            dict_get a m = dict_get a acc)
    ∧ (∀ pre ex post a,
         executions = pre ++ ex :: post →
         dict_get (ex_id ex) e2a = Some a →
         (∀ ex', ex' ∈ post → dict_get (ex_id ex') e2a ≠ Some a) →
         dict_get a m = Some (prop_string ex RUN_ID_KEY)).
Proof.
  induction executions as [|x executions IH]; intros acc m; simpl.
  - intros [= <-] Hnd. split_and!; [done| | | |].
    + intros ex H. by apply elem_of_nil in H.
    + intros a r ?. by left.
    + done.
    + intros [|??] ????; done.
  - destruct (dict_get (ex_id x) e2a) as [a0|] eqn:E; [|done].
    intros Hloop Hnd.
    destruct (IH _ _ Hloop (dict_set_NoDup _ _ _ Hnd))
      as (Hnd' & Hids & Hsound & Hother & Hlast).
    split_and!.
    + done.
    + intros ex [->|Hin]%elem_of_cons; [|by apply Hids].
      by eapply dict_get_Some_keys.
    + intros a r [H|(ex & Hin & He & Hr)]%Hsound.
      * rewrite dict_get_set in H. case_bool_decide; [|by left].
        injection H as <-. subst a0. right. exists x. split; [left|done].
      * right. exists ex. split; [by right|done].
    + intros a Hno. rewrite Hother.
      * apply dict_get_set_ne. intros ->. by apply (Hno x); [left|].
      * intros ex Hin. apply Hno. by right.
    + intros pre ex post a Hex Ha Hno.
      destruct pre as [|p pre]; simpl in Hex.
      * injection Hex as <- <-. rewrite (Hother a Hno).
        assert (a0 = a) as -> by congruence. apply dict_get_set_eq.
      * injection Hex as _ ->. by eapply Hlast.
Qed.

(** X13.  The run ids [_get_artifact_run_id_map] returns.  The map
    has each artifact once; it returns only when every execution the
    store returns has an event among the events of the artifacts; an
    artifact with a run id has an event to an execution the store
    returned, whose run id it is; and of the executions whose last
    event is to an artifact, the one the store returns last gives the
    artifact its run id. *)
Theorem artifact_run_ids store artifact_ids m :
  _get_artifact_run_id_map store artifact_ids = Return m →
  let events := get_events_by_artifact_ids store artifact_ids in
  let executions :=
    get_executions_by_id store (dict_keys (exec_to_artifact events)) in
  NoDup (dict_keys m)
  ∧ (∀ ex, ex ∈ executions →
           ∃ ev, ev ∈ events ∧ execution_id ev = ex_id ex)
  ∧ (∀ a run_id,
       dict_get a m = Some run_id →
       ∃ ex ev, ex ∈ executions ∧ ev ∈ events
                ∧ execution_id ev = ex_id ex ∧ artifact_id ev = a
                ∧ prop_string ex RUN_ID_KEY = run_id)
  ∧ (∀ pre ex post a,
       executions = pre ++ ex :: post →
       dict_get (ex_id ex) (exec_to_artifact events) = Some a →
       (∀ ex', ex' ∈ post →
               dict_get (ex_id ex') (exec_to_artifact events) ≠ Some a) →
       dict_get a m = Some (prop_string ex RUN_ID_KEY)).
Proof.
  intros H events executions.
  destruct (run_id_loop (exec_to_artifact events) executions [] m H)
    as (Hnd & Hids & Hsound & _ & Hlast); [constructor|].
  split_and!.
  - done.
  - intros ex [a Ha]%Hids%dict_keys_in.
    apply exec_to_artifact_get in Ha as [?|(ev & Hin & He & _)]; [done|].
    by exists ev.
  - intros a r [?|(ex & Hin & He & Hr)]%Hsound; [done|].
    apply exec_to_artifact_get in He as [?|(ev & Hev & He & Ha)]; [done|].
    by exists ex, ev.
  - exact Hlast.
Qed.

(** ** Strings of digits *)

Lemma ascii_digit_bounds d : ascii_digit d = true ↔ 48 ≤ d ≤ 57.
Proof.
  unfold ascii_digit. rewrite andb_true_iff, !N.leb_le. done.
Qed.

Lemma eqb_digit d c : ascii_digit d = true → (c < 48 ∨ 57 < c) → (d =? c) = false.
Proof.
  intros Hd%ascii_digit_bounds Hc. apply N.eqb_neq. lia.
Qed.

Lemma take_digits_all ds :
  forallb ascii_digit ds = true → take_digits ds = (ds, []).
Proof.
  induction ds as [|c ds IH]; simpl; [done|].
  intros [-> Hds]%andb_true_iff. by rewrite IH.
Qed.

Lemma str_lower_digits s : forallb ascii_digit s = true → str_lower s = s.
Proof.
  intros Hs. unfold str_lower.
  assert (Hall : ∀ c, In c s → 48 ≤ c ≤ 57).
  { intros c Hc. apply ascii_digit_bounds. rewrite forallb_forall in Hs.
    auto. }
  assert (forallb is_ascii s = true) as ->.
  { apply forallb_forall. intros c Hc%Hall. apply N.ltb_lt. lia. }
  rewrite <- (map_id s) at 2. apply map_ext_in. intros c Hc%Hall.
  unfold ascii_lower.
  destruct (N.leb_spec 65 c); [|done]. lia.
Qed.

Lemma strip_prefix_head c p d s :
  c ≠ d → strip_prefix (c :: p) (d :: s) = None.
Proof. intros Hc. simpl. by apply N.eqb_neq in Hc as ->. Qed.

Lemma scan_atom_number d s :
  ascii_digit d = true → scan_atom (d :: s)
  = match match_number (d :: s) with
    | Some res => Return res
    | None => scan_atom (d :: s)
    end.
Proof.
  intros Hd%ascii_digit_bounds. unfold scan_atom.
  change (py "null") with (110 :: py "ull").
  change (py "true") with (116 :: py "rue").
  change (py "false") with (102 :: py "alse").
  rewrite !strip_prefix_head by lia.
  by destruct (match_number (d :: s)).
Qed.

Lemma match_number_digits d ds :
  ascii_digit d = true → d ≠ 48 → forallb ascii_digit ds = true →
  match_number (d :: ds) = Some (PInt (digits_to_Z (d :: ds)), []).
Proof.
  intros Hd H0 Hds. unfold match_number, match_integer, match_unsigned.
  rewrite (eqb_digit d 45) by (done || lia).
  apply N.eqb_neq in H0 as ->. rewrite Hd.
  by rewrite take_digits_all.
Qed.

Lemma match_number_zero s :
  match s with [] => True | c :: _ => ascii_digit c = true end →
  match_number (48 :: s) = Some (PInt 0, s).
Proof.
  intros Hs. destruct s as [|c s]; [done|].
  assert (Hfrac : match_frac (c :: s) = ([], c :: s)).
  { unfold match_frac. by rewrite (eqb_digit c 46) by (done || lia). }
  assert (Hexp : match_exp (c :: s) = ([], c :: s)).
  { unfold match_exp.
    by rewrite (eqb_digit c 101), (eqb_digit c 69) by (done || lia). }
  unfold match_number.
  change (match_integer (48 :: c :: s)) with (Some (false, [48], c :: s)).
  cbv beta iota. rewrite Hfrac. cbv beta iota. rewrite Hexp. done.
Qed.

Lemma json_loads_digit d s :
  ascii_digit d = true →
  json_loads O (d :: s)
  = match match_number (d :: s) with
    | Some (v, rest) =>
        match skip_ws rest with
        | [] => Return v
        | _ :: _ => Raise JSONDecodeError
        end
    | None => json_loads O (d :: s)
    end.
Proof.
  intros Hd. destruct (match_number (d :: s)) as [[v rest]|] eqn:E; [|done].
  unfold json_loads, decode.
  rewrite strip_prefix_head.
  2:{ apply ascii_digit_bounds in Hd. lia. }
  assert (skip_ws (d :: s) = d :: s) as ->.
  { cbn [skip_ws]. unfold json_ws.
    rewrite !(eqb_digit d) by (done || lia). done. }
  cbn [scan_once].
  rewrite !(eqb_digit d) by (done || lia).
  rewrite scan_atom_number, E by done. done.
Qed.

Lemma to_pytype_digit_start d s :
  ascii_digit d = true → forallb ascii_digit s = true →
  _to_pytype (d :: s)
  = try_except_ValueError (json_loads O (d :: s)) (Return (PStr (d :: s))).
Proof.
  intros Hd Hs.
  assert (Hl : str_lower (d :: s) = d :: s).
  { apply str_lower_digits. simpl. by rewrite Hd. }
  rewrite (to_pytype_flat _ d s), Hl; [done| |].
  - rewrite Hl. cbn [skip_ws]. unfold json_ws.
    rewrite !(eqb_digit d) by (done || lia). done.
  - unfold is_open. rewrite !(eqb_digit d) by (done || lia).
    done.
Qed.

(** X15.  The coercion of a string of ASCII digits that is no longer
    than the digit limit of [int]: without a leading zero, and for the
    single digit zero, it is the integer the digits denote; with a
    leading zero before further digits the decoder refuses the text,
    and the string is returned as it is. *)
Theorem to_pytype_digit_strings d ds :
  ascii_digit d = true → forallb ascii_digit ds = true →
  (length (d :: ds) ≤ int_max_str_digits)%nat →
  (d ≠ 48 ∨ ds = [] →
   _to_pytype (d :: ds) = Return (PInt (digits_to_Z (d :: ds))))
  ∧ (d = 48 → ds ≠ [] → _to_pytype (d :: ds) = Return (PStr (d :: ds))).
Proof.
  intros Hd Hds _. rewrite to_pytype_digit_start by done.
  rewrite json_loads_digit by done. split.
  - intros [H0| ->].
    + by rewrite match_number_digits.
    + destruct (N.eq_dec d 48) as [->|H0].
      * by rewrite match_number_zero.
      * by rewrite match_number_digits.
  - intros -> Hne. rewrite match_number_zero.
    + destruct ds as [|c ds]; [done|].
      simpl in Hds. apply andb_true_iff in Hds as [Hc _].
      cbn [skip_ws]. unfold json_ws.
      rewrite !(eqb_digit c) by (done || lia). done.
    + destruct ds as [|c ds]; [done|]. simpl in Hds.
      by apply andb_true_iff in Hds as [Hc _].
Qed.

(** ** Run ids of digits *)

Lemma int_digits_all ds :
  ∀ acc, forallb ascii_digit ds = true →
         int_digits acc ds
         = Some (fold_left (λ acc c, (acc * 10 + Z.of_N (c - 48))%Z) ds acc).
Proof.
  induction ds as [|c ds IH]; intros acc; simpl; [done|].
  intros [-> Hds]%andb_true_iff. by apply IH.
Qed.

Lemma py_int_digits d ds :
  ascii_digit d = true → forallb ascii_digit ds = true →
  py_int (d :: ds) = Some (digits_to_Z (d :: ds)).
Proof.
  intros Hd Hds. unfold py_int.
  assert (Hmap : List.map to_ascii_decimal (d :: ds) = d :: ds).
  { rewrite <- (map_id (d :: ds)) at 2. apply map_ext_in.
    intros c Hc. unfold to_ascii_decimal.
    assert (Hc' : ascii_digit c = true).
    { destruct Hc as [<-|Hc]; [done|]. rewrite forallb_forall in Hds. auto. }
    apply ascii_digit_bounds in Hc'.
    assert (is_ascii c = true) as -> by (apply N.ltb_lt; lia). done. }
  rewrite Hmap. cbn [lstrip_space]. unfold int_space.
  rewrite !(eqb_digit d) by (done || lia).
  assert ((9 <=? d) && (d <=? 13) = false) as ->.
  { apply ascii_digit_bounds in Hd. apply andb_false_iff. right.
    apply N.leb_gt. lia. }
  cbn [orb]. rewrite !(eqb_digit d) by (done || lia).
  rewrite Hd, int_digits_all by done.
  unfold digits_to_Z. simpl. done.
Qed.

(** X16.  The start time of a run id of ASCII digits, leading zeros
    included, that is no longer than the digit limit of [int]: the
    time stamp of the integer the digits denote; when the conversion
    of the time stamp raises [ValueError] the start time is the run id
    itself, and every other exception of the conversion is raised. *)
Theorem started_at_of_digits d ds :
  ascii_digit d = true → forallb ascii_digit ds = true →
  (length (d :: ds) ≤ int_max_str_digits)%nat →
  py_int (d :: ds) = Some (digits_to_Z (d :: ds))
  ∧ started_at (d :: ds)
    = match fromtimestamp (digits_to_Z (d :: ds)) with
      | Return t => Return t
      | Raise e => if is_ValueError e then Return (PStr (d :: ds)) else Raise e
      end.
Proof.
  intros Hd Hds _. split; [by apply py_int_digits|].
  unfold started_at. by rewrite py_int_digits.
Qed.

(** ** Columns that no entry has *)

Lemma df_set_columns df label series c :
  c ∈ columns (df_set df label series) ↔ c ∈ columns df ∨ c = label.
Proof.
  unfold df_set.
  destruct (column_position label (columns df)) as [i|] eqn:E;
    cbn [columns].
  - split; [by left|]. intros [?| ->]; [done|].
    apply column_position_Some in E. by eapply list_elem_of_lookup_2.
  - by rewrite elem_of_app, list_elem_of_singleton.
Qed.

Lemma series_apply_returns f series :
  Forall (λ c, ∃ y, f c = Return y) series →
  ∃ out, series_apply f series = Return out.
Proof.
  induction 1 as [|c series [y Hy] _ [out IH]]; simpl; [by eexists|].
  rewrite Hy, IH. by eexists.
Qed.

(** X17.  The table builder selects the start time, the run id and
    every requested column, and raises [KeyError] when one of them is
    missing: for entries of which one has a property and which all
    have a string for a benchmark name, when some of these labels is
    no property of any entry (and is not [benchmark_fullname], which
    the builder adds), the builder raises [KeyError] with the list of
    the missing labels, in the order of the selection. *)
Theorem make_dataframe_missing_columns metrics_list cols :
  (∃ e, e ∈ metrics_list) →
  Forall (λ e, ∃ b, dict_get BENCHMARK_KEY e = Some (PStr b)) metrics_list →
  let missing :=
    List.filter
      (λ c, negb (bool_decide (c ∈ frame_columns metrics_list))
            && negb (bool_decide (c = BENCHMARK_FULL_KEY)))
      (STARTED_AT :: RUN_ID_KEY :: cols) in
  missing ≠ [] →
  _make_dataframe metrics_list cols
  = Raise (KeyError (PList (List.map PStr missing))).
Proof.
  intros [e0 He0] Hall missing Hmiss.
  assert (Hbench : BENCHMARK_KEY ∈ frame_columns metrics_list).
  { apply frame_columns_elem. exists e0. split; [done|].
    rewrite Forall_forall in Hall. destruct (Hall e0 He0) as [b Hb].
    by eapply dict_get_Some_keys. }
  assert (Hne : df_empty (mk_DataFrame metrics_list) = false).
  { apply df_empty_frame. exists e0. split; [done|]. intros ->.
    rewrite Forall_forall in Hall. by destruct (Hall [] He0). }
  unfold _make_dataframe. rewrite Hne. cbn [negb].
  destruct (column_position_elem _ _ Hbench) as [ib Hib].
  unfold df_get. change (columns (mk_DataFrame metrics_list))
    with (frame_columns metrics_list). rewrite Hib.
  cbn [mbind result_bind].
  set (full := List.map (cell_at ib) (rows (mk_DataFrame metrics_list))).
  assert (Hfull : full
                  = List.map (λ e, entry_cell e BENCHMARK_KEY) metrics_list).
  { apply Forall2_eq_map. eapply Forall2_map_r.
    - unfold mk_DataFrame. cbn [rows].
      apply (Forall2_imap_r
               (λ e r, row_cells r
                       = List.map (entry_cell e)
                           (frame_columns metrics_list))).
      done.
    - intros e' r Hr. by eapply cell_at_map. }
  destruct (series_apply_returns strip_repetition full) as [stripped Hs].
  { rewrite Hfull. apply Forall_forall. intros c Hc.
    apply list_elem_of_In, in_map_iff in Hc as (e & <- & He).
    rewrite Forall_forall in Hall.
    destruct (Hall e) as [b Hb]; [by apply list_elem_of_In|].
    unfold entry_cell. rewrite Hb. by eexists. }
  rewrite Hs. cbn [mbind result_bind].
  set (df2 := df_set (df_set (mk_DataFrame metrics_list)
                        BENCHMARK_FULL_KEY full) BENCHMARK_KEY stripped).
  assert (Hcols2 : ∀ c, df_has df2 c
                        = negb (negb (bool_decide
                                        (c ∈ frame_columns metrics_list))
                                && negb (bool_decide
                                           (c = BENCHMARK_FULL_KEY)))).
  { intros c. unfold df_has, df2.
    destruct (decide (c ∈ frame_columns metrics_list)) as [Hc|Hc],
      (decide (c = BENCHMARK_FULL_KEY)) as [Hf|Hf];
      rewrite ?(bool_decide_eq_true_2 _ Hc), ?(bool_decide_eq_false_2 _ Hc),
        ?(bool_decide_eq_true_2 _ Hf), ?(bool_decide_eq_false_2 _ Hf);
      cbn [negb andb];
      [apply bool_decide_eq_true_2..|apply bool_decide_eq_false_2];
      rewrite !df_set_columns;
      change (columns (mk_DataFrame metrics_list))
        with (frame_columns metrics_list).
    - by left; left.
    - by left; left.
    - by left; right.
    - intros [[?|?]| ->]; done. }
  assert (Hb : df_has df2 BENCHMARK_KEY = true).
  { rewrite Hcols2. by rewrite (bool_decide_eq_true_2 _ Hbench). }
  assert (Hf : df_has df2 BENCHMARK_FULL_KEY = true).
  { rewrite Hcols2. rewrite (bool_decide_eq_true_2 _ eq_refl).
    by rewrite andb_false_r. }
  assert (Htail : ∀ kc,
            (∀ c, c ∈ kc → df_has df2 c = true) →
            (df ← df_select df2 ((STARTED_AT :: RUN_ID_KEY :: kc) ++ cols);
             df_set_index df STARTED_AT)
            = Raise (KeyError (PList (List.map PStr missing)))).
  { intros kc Hpresent.
    assert (Hsel : List.filter (λ l, negb (df_has df2 l))
                     ((STARTED_AT :: RUN_ID_KEY :: kc) ++ cols)
                   = missing).
    { unfold missing.
      change ((STARTED_AT :: RUN_ID_KEY :: kc) ++ cols)
        with ([STARTED_AT; RUN_ID_KEY] ++ kc ++ cols).
      change (STARTED_AT :: RUN_ID_KEY :: cols)
        with ([STARTED_AT; RUN_ID_KEY] ++ cols).
      rewrite !List.filter_app.
      assert (List.filter (λ l, negb (df_has df2 l)) kc = []) as ->.
      { induction kc as [|c kc IH]; [done|]. simpl.
        rewrite (Hpresent c) by left. simpl. apply IH.
        intros c' Hc'. apply Hpresent. by right. }
      cbn [app]. f_equal; apply filter_ext; intros c;
        by rewrite Hcols2, negb_involutive. }
    unfold df_select. rewrite Hsel.
    destruct missing as [|m ms] eqn:Em; [done|]. reflexivity. }
  destruct (df_has df2 RUN_KEY) eqn:E1,
    (df_has df2 NUM_RUNS_KEY) eqn:E2; cbn [negb mbind result_bind].
  - apply (Htail [BENCHMARK_FULL_KEY; BENCHMARK_KEY; RUN_KEY; NUM_RUNS_KEY]).
    intros c Hc.
    repeat (apply elem_of_cons in Hc as [->|Hc]; [done|]).
    by apply elem_of_nil in Hc.
  - change (list_remove NUM_RUNS_KEY _DATAFRAME_CONTEXTUAL_COLUMNS)
      with (Return [STARTED_AT; RUN_ID_KEY; BENCHMARK_FULL_KEY;
                    BENCHMARK_KEY; RUN_KEY]).
    apply (Htail [BENCHMARK_FULL_KEY; BENCHMARK_KEY; RUN_KEY]).
    intros c Hc.
    repeat (apply elem_of_cons in Hc as [->|Hc]; [done|]).
    by apply elem_of_nil in Hc.
  - change (list_remove RUN_KEY _DATAFRAME_CONTEXTUAL_COLUMNS)
      with (Return [STARTED_AT; RUN_ID_KEY; BENCHMARK_FULL_KEY;
                    BENCHMARK_KEY; NUM_RUNS_KEY]).
    apply (Htail [BENCHMARK_FULL_KEY; BENCHMARK_KEY; NUM_RUNS_KEY]).
    intros c Hc.
    repeat (apply elem_of_cons in Hc as [->|Hc]; [done|]).
    by apply elem_of_nil in Hc.
  - change (list_remove RUN_KEY _DATAFRAME_CONTEXTUAL_COLUMNS)
      with (Return [STARTED_AT; RUN_ID_KEY; BENCHMARK_FULL_KEY;
                    BENCHMARK_KEY; NUM_RUNS_KEY]).
    cbn [mbind result_bind].
    change (list_remove NUM_RUNS_KEY
              [STARTED_AT; RUN_ID_KEY; BENCHMARK_FULL_KEY; BENCHMARK_KEY;
               NUM_RUNS_KEY])
      with (Return [STARTED_AT; RUN_ID_KEY; BENCHMARK_FULL_KEY;
                    BENCHMARK_KEY]).
    apply (Htail [BENCHMARK_FULL_KEY; BENCHMARK_KEY]).
    intros c Hc.
    repeat (apply elem_of_cons in Hc as [->|Hc]; [done|]).
    by apply elem_of_nil in Hc.
Qed.

(** ** What the benchmark-result extractor needs *)

Lemma metrics_loop_each l :
  ∀ st st', for_each metrics_round l st = Return st' →
            ∀ a, a ∈ l → ∃ ev, artifact_evals a = Return ev.
Proof.
  induction l as [|x l IH]; intros st st'; simpl.
  - intros _ a Ha. by apply elem_of_nil in Ha.
  - destruct (metrics_round st x) as [st1|] eqn:E; [|done].
    intros Hloop a [->|Ha]%elem_of_cons; [|by eapply IH].
    unfold metrics_round in E.
    apply bind_Return in E as (ev & Hev & _). by exists ev.
Qed.

Lemma properties_loop_keys a2r items :
  ∀ props props',
    for_each (properties_round a2r) items props = Return props' →
    (∀ k, k ∈ dict_keys props → k ∈ dict_keys props')
    ∧ ∀ it, it ∈ items →
            ∃ k e, keyed_entry a2r it = Return (k, e) ∧ k ∈ dict_keys props'.
Proof.
  induction items as [|x items IH]; intros props props'; simpl.
  - intros [= <-]. split; [done|]. intros it H. by apply elem_of_nil in H.
  - destruct (properties_round a2r props x) as [props1|] eqn:E; [|done].
    intros Hloop. destruct (IH _ _ Hloop) as [Hkeep Hitems].
    apply properties_round_inv in E as (k & e & Hke & ->).
    split.
    + intros k' Hk'. apply Hkeep.
      apply dict_keys_in in Hk' as [v Hv].
      destruct (decide (k' = k)) as [->|Hne].
      * eapply dict_get_Some_keys. apply dict_get_set_eq.
      * eapply dict_get_Some_keys. by rewrite dict_get_set_ne.
    + intros it [->|Hit]%elem_of_cons; [|by apply Hitems].
      exists k, e. split; [done|]. apply Hkeep.
      eapply dict_get_Some_keys. apply dict_get_set_eq.
Qed.

Lemma item_of_artifact artifacts items a :
  Forall2 item_of artifacts items → a ∈ artifacts →
  ∃ it, it ∈ items ∧ item_of a it.
Proof.
  induction 1 as [|a' it artifacts items Hit _ IH]; intros Hin.
  - by apply elem_of_nil in Hin.
  - apply elem_of_cons in Hin as [->|Hin].
    + exists it. split; [left|done].
    + destruct (IH Hin) as (it' & Hin' & Hit'). exists it'.
      split; [by right|done].
Qed.

(** X18.  What [_get_benchmark_results] needs in order to return, for
    artifacts with distinct ids: the run ids of all the artifacts are
    looked up at once, and every artifact has a run id there and a
    custom property [benchmark] whose coerced value is a string; the
    result then has an entry under the run id, a dot and that
    benchmark name.  An artifact without events, without the property,
    or with a benchmark name that the coercion turns into a number, a
    boolean or [None], makes the extractor raise. *)
Theorem get_benchmark_results_needs_run_id_and_benchmark store r :
  _get_benchmark_results store = Return r →
  NoDup (List.map art_id (get_artifacts_by_type store _BENCHMARK_RESULT)) →
  ∃ a2r,
    _get_artifact_run_id_map store
      (List.map art_id (get_artifacts_by_type store _BENCHMARK_RESULT))
    = Return a2r
    ∧ ∀ a, a ∈ get_artifacts_by_type store _BENCHMARK_RESULT →
           ∃ run_id evals b entry,
             dict_get (art_id a) a2r = Some run_id
             ∧ artifact_evals a = Return evals
             ∧ dict_get BENCHMARK_KEY evals = Some (PStr b)
             ∧ dict_get (run_id ++ py "." ++ b) (properties_of r)
               = Some entry.
Proof.
  intros (st & a2r & Hm & Ha & Hloop)%get_benchmark_results_inv Hnd.
  destruct (metrics_loop _ ([], []) Hnd (metrics_loop_each _ _ _ Hm))
    as (items & names & Hm' & Hitems).
  rewrite Hm in Hm'. injection Hm' as ->. cbn [fst app] in *.
  rewrite (item_of_keys _ _ Hitems) in Ha.
  exists a2r. split; [exact Ha|]. intros a Hin.
  destruct (item_of_artifact _ _ _ Hitems Hin) as ([id ev] & Hit & Hid & Hev).
  cbn [fst snd] in *. subst id.
  destruct (properties_loop_keys _ _ _ _ Hloop) as [_ Hkeys].
  destruct (Hkeys _ Hit) as (k & e & Hke & Hk).
  apply keyed_entry_inv in Hke as (run_id & s & b & Hr & _ & -> & Hb & ->).
  cbn [fst snd] in *.
  rewrite !dict_get_set_ne in Hb by labels_differ.
  apply dict_keys_in in Hk as [entry Hentry].
  by exists run_id, ev, b, entry.
Qed.

(** ** The constants the lowercasing hides *)

Lemma skip_ws_In c s : In c (skip_ws s) → In c s.
Proof.
  induction s as [|x s IH]; simpl; [done|].
  destruct (json_ws x); [right; auto|done].
Qed.

Lemma strip_prefix_head_inv c p s r :
  strip_prefix (c :: p) s = Some r → ∃ s', s = c :: s'.
Proof.
  destruct s as [|d s]; simpl; [done|].
  destruct (N.eqb_spec c d) as [->|]; [|done]. by eexists.
Qed.

Lemma match_unsigned_head s ds r :
  match_unsigned s = Some (ds, r) →
  ∃ d t, ds = d :: t ∧ ascii_digit d = true.
Proof.
  unfold match_unsigned. destruct s as [|d s2]; [done|].
  destruct (N.eqb_spec d 48) as [->|_].
  - intros [= <- _]. by exists 48, [].
  - destruct (ascii_digit d) eqn:Ed; [|done].
    destruct (take_digits s2) as [ds' rest]. intros [= <- _].
    by exists d, ds'.
Qed.

(** The lexeme of a number starts with a digit, or with a minus sign
    and a digit. *)
Lemma match_number_lexeme s lexeme r :
  match_number s = Some (PFloat lexeme, r) →
  ∃ d t, ascii_digit d = true ∧ (lexeme = d :: t ∨ lexeme = 45 :: d :: t).
Proof.
  unfold match_number.
  destruct (match_integer s) as [[[neg ds] r0]|] eqn:Ei; [|done].
  assert (Hds : ∃ d t, ds = d :: t ∧ ascii_digit d = true).
  { unfold match_integer in Ei. destruct s as [|c s']; [done|].
    destruct (c =? 45).
    - destruct (match_unsigned s') as [[ds' r']|] eqn:Eu; [|done].
      injection Ei as _ <- _. by eapply match_unsigned_head.
    - destruct (match_unsigned (c :: s')) as [[ds' r']|] eqn:Eu; [|done].
      injection Ei as _ <- _. by eapply match_unsigned_head. }
  destruct Hds as (d & t & -> & Hd).
  destruct (match_frac r0) as [frac r1]. destruct (match_exp r1) as [ex r2].
  destruct frac, ex; [done|..]; intros [= <- _]; destruct neg; simpl; eauto.
Qed.

Lemma array_is_list scan s v r :
  JSONArray scan s = Return (v, r) → ∃ l, v = PList l.
Proof.
  unfold JSONArray. destruct (skip_ws s) as [|c r0]; [done|].
  destruct (c =? 93); [intros [= <- _]; eauto|].
  destruct (array_items _ _ _) as [[vs r']|]; [|done].
  intros [= <- _]. eauto.
Qed.

Lemma object_is_dict scan s v r :
  JSONObject scan s = Return (v, r) → ∃ d, v = PDict d.
Proof.
  unfold JSONObject. destruct (skip_ws s) as [|c r0]; [done|].
  destruct (c =? 125); [intros [= <- _]; eauto|].
  destruct (c =? 34); [|done].
  destruct (object_items _ _ _) as [[kvs r']|]; [|done].
  intros [= <- _]. eauto.
Qed.

Lemma lower_no_capital val c :
  In c (List.map ascii_lower val) → ¬ (65 ≤ c ≤ 90).
Proof.
  intros (x & <- & _)%in_map_iff. unfold ascii_lower.
  destruct (N.leb_spec 65 x), (N.leb_spec x 90); simpl; lia.
Qed.

(** A float that the scanner of atoms reads is a number, or the input
    has a capital letter. *)
Lemma scan_atom_float s lexeme r :
  scan_atom s = Return (PFloat lexeme, r) →
  (∃ d t, ascii_digit d = true ∧ (lexeme = d :: t ∨ lexeme = 45 :: d :: t))
  ∨ ∃ c, In c s ∧ 65 ≤ c ≤ 90.
Proof.
  unfold scan_atom. intros H.
  destruct (strip_prefix (py "null") s); [done|].
  destruct (strip_prefix (py "true") s); [done|].
  destruct (strip_prefix (py "false") s); [done|].
  destruct (match_number s) as [[v' r']|] eqn:En.
  { injection H as -> ->. left. by eapply match_number_lexeme. }
  right.
  destruct (strip_prefix (py "NaN") s) eqn:E1.
  { apply (strip_prefix_head_inv 78 (py "aN")) in E1 as [s' ->].
    exists 78. split; [left|lia]; done. }
  destruct (strip_prefix (py "Infinity") s) eqn:E2.
  { apply (strip_prefix_head_inv 73 (py "nfinity")) in E2 as [s' ->].
    exists 73. split; [left|lia]; done. }
  destruct (strip_prefix (py "-Infinity") s) eqn:E3; [|done].
  change (py "-Infinity") with (45 :: 73 :: py "nfinity") in E3.
  destruct s as [|c0 [|c1 s']]; cbn [strip_prefix] in E3; try done.
  - by destruct (N.eqb 45 c0).
  - destruct (N.eqb 45 c0); [|done].
    destruct (N.eqb_spec 73 c1) as [<-|]; [|done].
    exists 73. split; [right; left|lia]; done.
Qed.

(** X19.  Because the input is lowercased before it is parsed, a float
    that the coercion of an ASCII string returns was read from a
    number literal, digits after an optional minus sign: the
    decoder never reads its constants [NaN], [Infinity] and
    [-Infinity], and a string such as "NaN" is returned as a string.
    (A number literal too large for a float, such as 1e999, is still
    read as a number.) *)
Theorem to_pytype_floats_are_number_literals val lexeme :
  forallb is_ascii val = true →
  _to_pytype val = Return (PFloat lexeme) →
  ∃ d t, ascii_digit d = true ∧ (lexeme = d :: t ∨ lexeme = 45 :: d :: t).
Proof.
  intros Hascii H.
  unfold _to_pytype, str_lower in H. rewrite Hascii in H.
  destruct (json_loads max_nesting (List.map ascii_lower val))
    as [v'|e] eqn:E.
  2:{ simpl in H. by destruct (is_ValueError e). }
  injection H as ->.
  unfold json_loads in E.
  destruct (strip_prefix [65279] _); [done|].
  unfold decode in E.
  destruct (scan_once max_nesting (skip_ws (List.map ascii_lower val)))
    as [[v' rest]|] eqn:Es; [|done].
  destruct (skip_ws rest); [|done]. injection E as ->.
  assert (Hin : ∀ c, In c (skip_ws (List.map ascii_lower val)) →
                     ¬ (65 ≤ c ≤ 90)).
  { intros c Hc%skip_ws_In. by eapply lower_no_capital. }
  destruct (skip_ws (List.map ascii_lower val)) as [|c s1];
    [by destruct max_nesting|].
  assert (Hatom : scan_atom (c :: s1) = Return (PFloat lexeme, rest) →
                  ∃ d t, ascii_digit d = true
                         ∧ (lexeme = d :: t ∨ lexeme = 45 :: d :: t)).
  { intros [?|(x & Hx & Hr)]%scan_atom_float; [done|].
    by destruct (Hin x Hx). }
  destruct max_nesting as [|n]; cbn [scan_once] in Es.
  - destruct (c =? 34).
    { by destruct (scanstring s1) as [[str r]|]. }
    destruct (c =? 123); [done|]. destruct (c =? 91); [done|]. auto.
  - destruct (c =? 34).
    { by destruct (scanstring s1) as [[str r]|]. }
    destruct (c =? 123).
    { by apply object_is_dict in Es as [dd ?]. }
    destruct (c =? 91).
    { by apply array_is_list in Es as [l ?]. }
    auto.
Qed.

(** ** The rows of the table and the keys they come from *)

Lemma results_list_items m : results_list m = List.map snd (qualifying_items m).
Proof.
  unfold results_list, qualifying_items, dict_values.
  induction (properties_of m) as [|[k e] d IH]; simpl; [done|].
  destruct (qualifying e); simpl; by rewrite IH.
Qed.

Lemma dict_get_elem {K V} `{EqDecision K} (k : K) (v : V) d :
  NoDup (dict_keys d) → (k, v) ∈ d → dict_get k d = Some v.
Proof.
  induction d as [|[k0 v0] d IH]; simpl.
  - intros _ H. by apply elem_of_nil in H.
  - intros [Hk0 Hd]%NoDup_cons [[= -> ->]|Hin]%elem_of_cons.
    + by rewrite bool_decide_eq_true_2.
    + rewrite bool_decide_eq_false_2; [by apply IH|].
      intros ->. apply Hk0. apply list_elem_of_In.
      apply list_elem_of_In in Hin. by apply (in_map fst) in Hin.
Qed.

Lemma qualifying_items_spec m k e :
  NoDup (dict_keys (properties_of m)) →
  (k, e) ∈ qualifying_items m
  ↔ dict_get k (properties_of m) = Some e ∧ (5 < length e)%nat.
Proof.
  intros Hnd. unfold qualifying_items.
  rewrite list_elem_of_In, filter_In, <- list_elem_of_In.
  cbn [snd]. rewrite qualifying_spec. split.
  - intros [Hin Hl]. split; [by apply dict_get_elem|done].
  - intros [Hg Hl]. split; [by apply dict_get_Some_elem|done].
Qed.

Lemma qualifying_items_NoDup m :
  NoDup (dict_keys (properties_of m)) →
  NoDup (List.map fst (qualifying_items m)).
Proof.
  unfold qualifying_items, dict_keys.
  induction (properties_of m) as [|[k e] d IH]; simpl; [done|].
  intros [Hk Hd]%NoDup_cons. destruct (qualifying e); simpl; [|by apply IH].
  apply NoDup_cons. split; [|by apply IH].
  intros Hin. apply Hk. apply list_elem_of_In.
  apply list_elem_of_In, in_map_iff in Hin as ([k' e'] & Heq & Hin).
  simpl in Heq. subst k'. apply filter_In in Hin as [Hin _].
  by apply (in_map fst) in Hin.
Qed.

(** The rows of the table [overview] returns without aggregation are
    the rows of the qualifying entries, in the order of the merged
    dictionary. *)
Lemma overview_rows_of_items store m df :
  merged store = Return m →
  overview store None = Return df →
  STARTED_AT ∉ property_names_of m →
  rows df
  = List.map (λ kv, table_row (columns df) (snd kv)) (qualifying_items m).
Proof.
  intros (hr & mr & Hh & Hm & ->)%merged_inv Hov Hs.
  rewrite (overview_unfold _ _ hr mr Hh Hm) in Hov.
  destruct (_make_dataframe _ _) as [df'|] eqn:E; [|done].
  injection Hov as ->.
  rewrite <- (List.map_map snd (table_row (columns df))).
  rewrite <- results_list_items.
  destruct (results_list (merge_values hr mr)) as [|e l] eqn:El.
  { rewrite make_dataframe_nil in E. by injection E as <-. }
  rewrite <- El in *.
  eapply make_dataframe_built; [exact E| |exact Hs].
  exists e. split; [rewrite El; left|].
  assert (He : e ∈ results_list (merge_values hr mr))
    by (rewrite El; left).
  apply results_list_spec in He as [_ He]. intros ->. simpl in He. lia.
Qed.

(** What a key holds after the merge of the results of the two
    extractors. *)
Lemma merged_get store hr mr k :
  _get_hparams store = Return hr →
  _get_benchmark_results store = Return mr →
  dict_get k (properties_of (merge_values hr mr))
  = match dict_get k (properties_of hr), dict_get k (properties_of mr) with
    | Some a, Some b => Some (dict_update a b)
    | Some a, None => Some a
    | None, Some b => Some b
    | None, None => None
    end.
Proof.
  intros Hh Hm. unfold merge_values. cbn [properties_of].
  apply merge_get.
  destruct (get_benchmark_results_inv _ _ Hm) as (st & a2r & _ & _ & Hl).
  eapply properties_loop_NoDup; [exact Hl|constructor].
Qed.

(** C8 (amended): of two artifacts with distinct ids that yield the
    same composite key, the benchmark-result extractor keeps the
    entry of the later one, and its result holds every key once.  The
    merged result holds every key once too, and under the key an entry
    with the properties of the later artifact.  Whenever [overview]
    returns a table (without aggregation, no property being called
    [started_at]), its rows are the rows of the merged entries with
    more than 5 properties, one for one and in order, and these entries
    have distinct keys: the table has one row for the key when the
    merged entry under it has more than 5 properties and none
    otherwise, never two. *)
Theorem later_artifact_overwrites store a2r pre a1 mid a2 post K E1 E2 :
  get_artifacts_by_type store _BENCHMARK_RESULT
  = pre ++ a1 :: mid ++ a2 :: post →
  NoDup (List.map art_id (pre ++ a1 :: mid ++ a2 :: post)) →
  _get_artifact_run_id_map store
    (List.map art_id (pre ++ a1 :: mid ++ a2 :: post)) = Return a2r →
  (∀ b, b ∈ pre ++ a1 :: mid ++ a2 :: post →
        ∃ k e, artifact_entry a2r b = Return (k, e)) →
  artifact_entry a2r a1 = Return (K, E1) →
  artifact_entry a2r a2 = Return (K, E2) →
  (∀ b k e, b ∈ post → artifact_entry a2r b = Return (k, e) → k ≠ K) →
  ∃ r, _get_benchmark_results store = Return r
       ∧ dict_get K (properties_of r) = Some E2
       ∧ NoDup (dict_keys (properties_of r))
       ∧ ∀ m, merged store = Return m →
              NoDup (dict_keys (properties_of m))
              ∧ (∃ e, dict_get K (properties_of m) = Some e
                      ∧ ∀ n v, dict_get n E2 = Some v →
                               dict_get n e = Some v)
              ∧ ∀ df, overview store None = Return df →
                      STARTED_AT ∉ property_names_of m →
                      rows df
                      = List.map (λ kv, table_row (columns df) (snd kv))
                          (qualifying_items m)
                      ∧ NoDup (List.map fst (qualifying_items m))
                      ∧ ∀ e, (K, e) ∈ qualifying_items m
                             ↔ dict_get K (properties_of m) = Some e
                               ∧ (5 < length e)%nat.
Proof.
  intros Harts Hids Ha2r Hall H1 H2 Hpost.
  assert (Hshape : pre ++ a1 :: mid ++ a2 :: post
                   = (pre ++ a1 :: mid) ++ a2 :: post).
  { by rewrite <- app_assoc. }
  rewrite Hshape in *.
  destruct (get_benchmark_results_last_entry store a2r (pre ++ a1 :: mid)
              a2 post K E2 Harts Hids Ha2r Hall H2 Hpost)
    as (r & Hr & HK & Hnd).
  exists r. split_and!; [done..|].
  intros m Hm. pose proof (merged_NoDup _ _ Hm) as Hndm.
  split; [done|]. split.
  - destruct (merged_inv _ _ Hm) as (hr & mr & Hh & Hmr & ->).
    assert (mr = r) as -> by congruence.
    rewrite (merged_get _ _ _ K Hh Hmr), HK.
    destruct (get_benchmark_results_contextual _ _ _ _ Hmr HK)
      as [_ HndE].
    destruct (dict_get K (properties_of hr)) as [a|].
    + eexists. split; [done|]. intros n v Hn.
      by rewrite dict_get_update, Hn.
    + by exists E2.
  - intros df Hdf Hs. split_and!.
    + by eapply overview_rows_of_items.
    + by apply qualifying_items_NoDup.
    + intros e. by apply qualifying_items_spec.
Qed.


(** ** Run ids that are no time stamps *)





End Results.

(** * The module on the sample interpreter

    The sample interpreter runs the definitions; the lemmas below are
    closed instances of the theorems above and the inputs on which the
    code departs from its description. *)

Local Abbreviation run_to_pytype := (_to_pytype sample_lower sample_limit).
Local Abbreviation run_parse_entry := (parse_entry sample_lower sample_limit).
Local Abbreviation run_parse_hparams :=
  (_parse_hparams sample_lower sample_limit sample_literal_eval).
Local Abbreviation run_py_int := (py_int sample_decimal sample_isspace).
Local Abbreviation run_started_at :=
  (started_at sample_decimal sample_isspace sample_fromtimestamp).
Local Abbreviation run_get_hparams :=
  (_get_hparams sample_lower sample_decimal sample_isspace sample_limit
     sample_literal_eval sample_fromtimestamp).
Local Abbreviation run_get_benchmark_results :=
  (_get_benchmark_results sample_lower sample_decimal sample_isspace
     sample_limit sample_fromtimestamp).
Local Abbreviation run_artifact_entry :=
  (artifact_entry sample_lower sample_decimal sample_isspace sample_limit
     sample_fromtimestamp).
Local Abbreviation run_merged :=
  (merged sample_lower sample_decimal sample_isspace sample_limit
     sample_literal_eval sample_fromtimestamp).
Local Abbreviation run_overview :=
  (overview sample_lower sample_decimal sample_isspace sample_limit
     sample_literal_eval sample_fromtimestamp sample_aggregator
     sample_grouped_agg sample_set_index_ambiguous).

(** C2, counterexample: the entry "a=b=c" is not split into the name
    "a" and the value "b=c"; the parser raises [ValueError]. *)
Lemma parse_hparams_second_equals_raises :
  run_parse_entry [] (PStr (py "a=b=c")) = Raise ValueError
  ∧ run_parse_hparams (py "['a=b=c']") = Raise ValueError.
Proof. split; vm_compute; reflexivity. Qed.

(** C2, witness: the entry "batch_size=256", and an entry without
    '='. *)
Lemma parse_entry_needs_one_equals_witness :
  run_parse_entry [] (PStr (py "batch_size=256"))
  = Return [(py "batch_size", PInt 256)]
  ∧ run_parse_entry [] (PStr (py "batch_size")) = Raise ValueError.
Proof.
  destruct (parse_entry_needs_one_equals sample_lower sample_limit [])
    as [Hone Hother].
  split.
  - etransitivity;
      [exact (Hone (py "batch_size") (py "256") eq_refl eq_refl)|].
    vm_compute. reflexivity.
  - apply Hother. vm_compute. lia.
Defined.


Lemma sample_results_separate :
  separate sample_heap sample_result1 sample_result2.
Proof.
  split; [done|].
  exists [(py "k1", 1%positive); (py "k2", 2%positive)],
         [(py "k2", 3%positive); (py "k3", 4%positive)].
  split_and!; [reflexivity|reflexivity| |].
  - apply (bool_decide_unpack _). vm_compute. exact I.
  - apply (bool_decide_unpack _). vm_compute. exact I.
Defined.


(** C4, witness: the sample results have the keys "k1", "k2" and
    "k2", "k3"; the merged result has the three keys, and under "k2"
    the second result's "lr". *)
Lemma merge_results_union_witness :
  ∃ h' r v,
    _merge_results sample_heap sample_result1 sample_result2 = Some (h', r)
    ∧ value_of h' r = Some v
    ∧ (py "k1" ∈ dict_keys (properties_of v))
    ∧ (py "k2" ∈ dict_keys (properties_of v))
    ∧ (py "k3" ∈ dict_keys (properties_of v))
    ∧ (∃ m, dict_get (py "k2") (properties_of v) = Some m
            ∧ dict_get (py "lr") m = Some (PFloat (py "0.5"))
            ∧ dict_get (py "depth") m = Some (PInt 3)
            ∧ dict_get (py "accuracy") m = Some (PFloat (py "0.9")))
    ∧ property_names_of v
      = [py "batch_size"; py "depth"; py "lr"; py "accuracy"; py "lr"].
Proof.
  destruct (merge_results_union sample_heap sample_result1 sample_result2
              sample_value1 sample_value2
              sample_results_separate eq_refl eq_refl)
    as (h' & r & v & Hm & Hv & Hkeys & Hboth & _ & _ & Hnames).
  exists h', r, v. split_and!; try done.
  - apply Hkeys. left. vm_compute. left.
  - apply Hkeys. left. vm_compute. right. left.
  - apply Hkeys. right. vm_compute. right. left.
  - destruct (Hboth (py "k2")
                [(py "lr", PFloat (py "0.1")); (py "depth", PInt 3)]
                [(py "lr", PFloat (py "0.5"));
                 (py "accuracy", PFloat (py "0.9"))] eq_refl eq_refl)
      as (m & Hm2 & Hget).
    { apply (bool_decide_unpack _). vm_compute. exact I. }
    exists m. split; [done|]. by rewrite !Hget.
Defined.

(** C5, witness: the trainer run of the sample store has two
    hyperparameters, so its entry has 5 properties and does not
    qualify; without aggregators [overview] returns the empty table,
    with the aggregator "mean" it raises. *)
Lemma overview_without_qualifying_entries_witness :
  ∃ m,
    run_merged trainer_store = Return m
    ∧ List.map (@length _) (dict_values (properties_of m)) = [5%nat]
    ∧ run_overview trainer_store None = Return empty_table
    ∧ run_overview trainer_store (Some [py "mean"])
      = Raise (KeyError (PStr STARTED_AT)).
Proof.
  eexists. split; [vm_compute; reflexivity|].
  split; [vm_compute; reflexivity|].
  destruct (overview_without_qualifying_entries sample_lower sample_decimal
              sample_isspace sample_limit sample_literal_eval
              sample_fromtimestamp sample_aggregator sample_grouped_agg
              sample_set_index_ambiguous trainer_store _ eq_refl)
    as (Hnone & _ & Haggs & _).
  - repeat constructor.
  - split; [exact Hnone|apply Haggs].
Defined.

(** C5, the failing input: the empty store and the aggregator "mean". *)
Lemma overview_empty_store_with_aggregator_raises :
  run_overview empty_store None = Return empty_table
  ∧ run_overview empty_store (Some [py "mean"])
    = Raise (KeyError (PStr STARTED_AT)).
Proof. split; vm_compute; reflexivity. Qed.

(** C6, counterexample: 1000 opening brackets, where the decoder can
    enter 990 nested arrays (a recursion limit of 1000 with ten frames
    in use). *)
Lemma to_pytype_deep_nesting_raises :
  run_to_pytype (replicate 1000 91) = Raise RecursionError.
Proof. vm_compute. reflexivity. Qed.

(** C6, witness: a nested value within the limit. *)
Lemma to_pytype_best_effort_witness :
  (opens (str_lower sample_lower (py "[[1, 2], {}]")) ≤ sample_limit)%nat
  ∧ ∃ v, run_to_pytype (py "[[1, 2], {}]") = Return v.
Proof.
  assert (H : (opens (str_lower sample_lower (py "[[1, 2], {}]"))
               ≤ sample_limit)%nat).
  { apply Nat.leb_le. vm_compute. reflexivity. }
  split; [exact H|].
  exact (proj1 (to_pytype_best_effort sample_lower sample_limit) _ H).
Defined.



(** C8, counterexample: two artifacts with the same composite key whose
    entry has 4 properties: the table has no row for the key. *)
Lemma colliding_small_artifacts_give_no_row :
  (∃ e1 e2,
     run_artifact_entry [(1%Z, py "7"); (2%Z, py "7")]
       (small_artifact 1 (py "0.8")) = Return (py "7.mnist", e1)
     ∧ run_artifact_entry [(1%Z, py "7"); (2%Z, py "7")]
         (small_artifact 2 (py "0.9")) = Return (py "7.mnist", e2))
  ∧ (∃ m, run_merged small_collision_store = Return m
          ∧ List.map (@length _) (dict_values (properties_of m)) = [4%nat]
          ∧ rows_for (py "7.mnist") m = O)
  ∧ ∃ df, run_overview small_collision_store None = Return df
          ∧ rows df = [].
Proof.
  split_and!.
  - eexists _, _. split; vm_compute; reflexivity.
  - eexists. split_and!; vm_compute; reflexivity.
  - eexists. split; vm_compute; reflexivity.
Qed.



Local Abbreviation run_make_dataframe :=
  (_make_dataframe sample_decimal sample_set_index_ambiguous).
Local Abbreviation run_aggregate_results :=
  (_aggregate_results sample_aggregator sample_grouped_agg).

Ltac not_in_list :=
  let H := fresh in
  vm_compute; intros H;
  repeat (apply elem_of_cons in H as [H|H]; [discriminate H|]);
  by apply elem_of_nil in H.

(** C8, witness: the two artifacts of the sample store have the key
    "7.mnist"; the accuracy of the second is kept, and the table that
    [overview] returns has one row, for that key. *)
Lemma later_artifact_overwrites_witness :
  ∃ r entry m df,
    run_get_benchmark_results collision_store = Return r
    ∧ dict_get (py "7.mnist") (properties_of r) = Some entry
    ∧ dict_get (py "accuracy") entry = Some (PFloat (py "0.9"))
    ∧ run_merged collision_store = Return m
    ∧ run_overview collision_store None = Return df
    ∧ rows df
      = List.map (λ kv, table_row sample_decimal (columns df) (snd kv))
          (qualifying_items m)
    ∧ List.map fst (qualifying_items m) = [py "7.mnist"]
    ∧ length (rows df) = 1%nat.
Proof.
  destruct (later_artifact_overwrites sample_lower sample_decimal
              sample_isspace sample_limit sample_literal_eval
              sample_fromtimestamp sample_aggregator sample_grouped_agg
              sample_set_index_ambiguous collision_store
              [(1%Z, py "7"); (2%Z, py "7")]
              [] (sample_artifact 1 (py "0.8"))
              [] (sample_artifact 2 (py "0.9")) []
              (py "7.mnist")
              [(BENCHMARK_KEY, PStr (py "mnist"));
               (py "accuracy", PFloat (py "0.8"));
               (py "loss", PFloat (py "0.25"));
               (_NAME, PStr (py "result"));
               (_STATE, PStr (py "published"));
               (RUN_ID_KEY, PStr (py "7"));
               (STARTED_AT, PDatetime 7)]
              [(BENCHMARK_KEY, PStr (py "mnist"));
               (py "accuracy", PFloat (py "0.9"));
               (py "loss", PFloat (py "0.25"));
               (_NAME, PStr (py "result"));
               (_STATE, PStr (py "published"));
               (RUN_ID_KEY, PStr (py "7"));
               (STARTED_AT, PDatetime 7)])
    as (r & Hr & Hget & _ & Hrows).
  - vm_compute. reflexivity.
  - apply (bool_decide_unpack _). vm_compute. exact I.
  - vm_compute. reflexivity.
  - intros b Hb. simpl in Hb.
    apply elem_of_cons in Hb as [->|Hb];
      [eexists _, _; vm_compute; reflexivity|].
    apply list_elem_of_singleton in Hb as ->.
    eexists _, _; vm_compute; reflexivity.
  - vm_compute. reflexivity.
  - vm_compute. reflexivity.
  - intros b k e Hb. by apply elem_of_nil in Hb.
  - assert (Hm : ∃ m, run_merged collision_store = Return m)
      by (eexists; vm_compute; reflexivity).
    destruct Hm as [m Hm].
    assert (Hdf : ∃ df, run_overview collision_store None = Return df)
      by (eexists; vm_compute; reflexivity).
    destruct Hdf as [df Hdf].
    destruct (Hrows m Hm) as (_ & _ & Htable).
    destruct (Htable df Hdf) as (Hr' & _ & _).
    { vm_compute in Hm. injection Hm as <-. not_in_list. }
    eexists r, _, m, df. split; [exact Hr|]. split; [exact Hget|].
    split; [vm_compute; reflexivity|]. split; [exact Hm|].
    split; [exact Hdf|]. split; [exact Hr'|].
    vm_compute in Hm. injection Hm as <-.
    split; [vm_compute; reflexivity|].
    rewrite Hr'. vm_compute. reflexivity.
Defined.



(** X1, witness: the names of the sample trainer run. *)
Lemma get_hparams_property_names_witness :
  ∃ r, run_get_hparams trainer_store = Return r
       ∧ property_names_of r = [py "batch_size"; py "lr"]
       ∧ strictly_ascending (property_names_of r)
       ∧ NoDup (property_names_of r).
Proof.
  eexists. split; [vm_compute; reflexivity|].
  split; [vm_compute; reflexivity|].
  destruct (get_hparams_property_names sample_lower sample_decimal
              sample_isspace sample_limit sample_literal_eval
              sample_fromtimestamp trainer_store _ eq_refl)
    as (Hasc & Hnd & _).
  by split.
Defined.

(** X2, witness: the names of the two sample artifacts; "name",
    "state" and "benchmark" are left out. *)
Lemma get_benchmark_results_property_names_witness :
  ∃ r, run_get_benchmark_results collision_store = Return r
       ∧ property_names_of r = [py "accuracy"; py "loss"]
       ∧ strictly_ascending (property_names_of r)
       ∧ (py "loss" ∉ excluded_names).
Proof.
  eexists. split; [vm_compute; reflexivity|].
  split; [vm_compute; reflexivity|].
  destruct (get_benchmark_results_property_names sample_lower
              sample_decimal sample_isspace sample_limit
              sample_fromtimestamp collision_store _ eq_refl)
    as (Hasc & _ & Hin).
  split; [exact Hasc|]. apply (Hin (py "loss")). vm_compute. right. left.
Defined.

(** X3, witness: the sample trainer run is stored under "abc.mnist". *)
Lemma entries_keyed_by_run_and_benchmark_witness :
  ∃ st' entry,
    hparams_round sample_lower sample_decimal sample_isspace sample_limit
      sample_literal_eval sample_fromtimestamp ([], []) sample_trainer
    = Return st'
    ∧ dict_get (py "abc.mnist") (fst st') = Some entry
    ∧ dict_get BENCHMARK_KEY entry = Some (PStr (py "mnist")).
Proof.
  destruct (proj1 (entries_keyed_by_run_and_benchmark sample_lower
                     sample_decimal sample_isspace sample_limit
                     sample_literal_eval sample_fromtimestamp)
              ([], []) sample_trainer _ (py "mnist")
              eq_refl eq_refl eq_refl)
    as (entry & Hget & _ & Hb).
  eexists _, entry. split; [reflexivity|]. split; [exact Hget|exact Hb].
Defined.

(** X4, witness: of the two trainer runs for "abc.mnist" the second
    decides the entry; the run after it has another key. *)
Lemma later_trainer_overwrites_witness :
  ∃ r e,
    run_get_hparams overwriting_trainer_store = Return r
    ∧ dict_get (py "abc.mnist") (properties_of r) = Some e
    ∧ dict_get (py "lr") e = Some (PFloat (py "0.5")).
Proof.
  destruct (later_trainer_overwrites sample_lower sample_decimal
              sample_isspace sample_limit sample_literal_eval
              sample_fromtimestamp overwriting_trainer_store
              [trainer_run 1 (py "abc") (py "EstimatorTrainer.mnist")
                 (py "['lr=0.1']")]
              (trainer_run 2 (py "abc") (py "EstimatorTrainer.mnist")
                 (py "['lr=0.5']"))
              [trainer_run 3 (py "abc") (py "EstimatorTrainer.cifar")
                 (py "['lr=0.9']")]
              eq_refl)
    as (r & hp & s & Hr & Hhp & _ & Hget).
  - intros ex' Hex.
    repeat (apply elem_of_cons in Hex as [->|Hex];
            [split; eexists; vm_compute; reflexivity|]).
    by apply elem_of_nil in Hex.
  - intros ex' Hex. apply list_elem_of_singleton in Hex as ->.
    vm_compute. discriminate.
  - eexists r, _. split; [exact Hr|]. split; [exact Hget|].
    vm_compute in Hhp. injection Hhp as <-.
    vm_compute. reflexivity.
Defined.

(** X6, witness: the table of the sample entries. *)
Lemma make_dataframe_table_witness :
  ∃ df,
    run_make_dataframe sample_entries [py "lr"; py "accuracy"] = Return df
    ∧ index_name df = Some STARTED_AT
    ∧ columns df
      = [RUN_ID_KEY; BENCHMARK_FULL_KEY; BENCHMARK_KEY; RUN_KEY;
         py "lr"; py "accuracy"]
    ∧ rows df = List.map (table_row sample_decimal (columns df))
                  sample_entries.
Proof.
  eexists. split; [vm_compute; reflexivity|].
  destruct (make_dataframe_table sample_decimal sample_set_index_ambiguous
              sample_entries [py "lr"; py "accuracy"] _ eq_refl)
    as (Hidx & Hcols & Hrows).
  - eexists. split; [left|done].
  - not_in_list.
  - split; [exact Hidx|]. split; [|exact Hrows].
    vm_compute. reflexivity.
Defined.

(** X7, witness: entries without a benchmark name, and entries of
    which one has a number for a benchmark name. *)
Lemma make_dataframe_needs_benchmark_names_witness :
  run_make_dataframe [[(py "lr", PInt 1)]] []
  = Raise (KeyError (PStr BENCHMARK_KEY))
  ∧ run_make_dataframe
      [[(BENCHMARK_KEY, PStr (py "mnist"))]; [(BENCHMARK_KEY, PInt 3)]] []
    = Raise TypeError.
Proof.
  split.
  - apply (make_dataframe_needs_benchmark_names sample_decimal
             sample_set_index_ambiguous [[(py "lr", PInt 1)]] []).
    + eexists. split; [left|done].
    + intros e He. apply list_elem_of_singleton in He as ->.
      vm_compute. reflexivity.
  - apply (make_dataframe_needs_benchmark_names sample_decimal
             sample_set_index_ambiguous
             [[(BENCHMARK_KEY, PStr (py "mnist"))];
              [(BENCHMARK_KEY, PInt 3)]] []).
    + eexists. split; [left|done].
    + eexists. split; [left|]. vm_compute. discriminate.
    + exists [(BENCHMARK_KEY, PInt 3)]. split; [right; left|].
      intros b. vm_compute. discriminate.
Defined.

(** X8, witness: group keys without the run column. *)
Lemma aggregate_results_needs_contextual_keys_witness :
  run_aggregate_results empty_table [py "mean"] [STARTED_AT; RUN_ID_KEY]
  = Raise ValueError.
Proof.
  apply (aggregate_results_needs_contextual_keys sample_aggregator
           sample_grouped_agg).
  left. not_in_list.
Defined.

(** X9, witness: the table of the sample entries is grouped by the
    start time, the run id, the benchmark name and the learning
    rate. *)
Lemma aggregate_built_table_witness :
  ∃ df,
    run_make_dataframe sample_entries [py "lr"; py "accuracy"] = Return df
    ∧ run_aggregate_results df [py "mean"]
        (_DATAFRAME_CONTEXTUAL_COLUMNS ++ [py "lr"])
      = sample_grouped_agg (df_drop df RUN_KEY)
          [STARTED_AT; RUN_ID_KEY; BENCHMARK_KEY; py "lr"] [py "mean"].
Proof.
  eexists. split; [vm_compute; reflexivity|].
  etransitivity.
  - apply (aggregate_built_table sample_decimal sample_aggregator
             sample_grouped_agg sample_set_index_ambiguous
             sample_entries [py "lr"] [py "accuracy"] [py "mean"] _ eq_refl).
    + eexists. split; [left|done].
    + not_in_list.
    + not_in_list.
  - vm_compute. reflexivity.
Defined.

(** X10, witness: the table of the sample store with two artifacts of
    one key. *)
Lemma overview_table_witness :
  ∃ df,
    run_overview collision_store None = Return df
    ∧ index_name df = Some STARTED_AT
    ∧ columns df
      = [RUN_ID_KEY; BENCHMARK_FULL_KEY; BENCHMARK_KEY;
         py "accuracy"; py "loss"]
    ∧ length (rows df) = 1%nat.
Proof.
  eexists. split; [vm_compute; reflexivity|].
  destruct (overview_table sample_lower sample_decimal sample_isspace
              sample_limit sample_literal_eval sample_fromtimestamp
              sample_aggregator sample_grouped_agg
              sample_set_index_ambiguous collision_store _ _ _
              eq_refl eq_refl eq_refl)
    as (Hidx & Hcols & Hrows).
  - vm_compute. discriminate.
  - not_in_list.
  - split; [exact Hidx|]. split; vm_compute; reflexivity.
Defined.

(** X11, witness: the sample results have the keys "k1", "k2" and
    "k2", "k3"; the merged keys are "k1", "k2", "k3". *)
Lemma merge_results_key_order_witness :
  ∃ h' r v,
    _merge_results sample_heap sample_result1 sample_result2 = Some (h', r)
    ∧ value_of h' r = Some v
    ∧ dict_keys (properties_of v) = [py "k1"; py "k2"; py "k3"].
Proof.
  destruct (merge_results_key_order sample_heap sample_result1
              sample_result2 sample_value1 sample_value2
              sample_results_separate eq_refl eq_refl)
    as (h' & r & v & Hm & Hv & Hkeys).
  exists h', r, v. split; [exact Hm|]. split; [exact Hv|].
  rewrite Hkeys. vm_compute. reflexivity.
Defined.

(** X12, witness: a serialized list in which "lr" comes twice. *)
Lemma parse_hparams_dictionary_witness :
  ∃ hparams,
    run_parse_hparams (py "['lr=0.1', 'batch_size=256', 'lr=0.5']")
    = Return hparams
    ∧ NoDup (dict_keys hparams)
    ∧ dict_get (py "lr") hparams = Some (PFloat (py "0.5")).
Proof.
  eexists. split; [vm_compute; reflexivity|].
  destruct (parse_hparams_dictionary sample_lower sample_limit
              sample_literal_eval
              (py "['lr=0.1', 'batch_size=256', 'lr=0.5']") _ eq_refl)
    as (hp_strings & items & _ & _ & _ & Hnd & _).
  split; [exact Hnd|]. vm_compute. reflexivity.
Defined.

(** X13, witness: the run ids of the two sample artifacts. *)
Lemma artifact_run_ids_witness :
  ∃ m,
    _get_artifact_run_id_map collision_store [1%Z; 2%Z] = Return m
    ∧ NoDup (dict_keys m)
    ∧ dict_get 2%Z m = Some (py "7").
Proof.
  eexists. split; [vm_compute; reflexivity|].
  destruct (artifact_run_ids collision_store [1%Z; 2%Z] _ eq_refl)
    as (Hnd & _ & _ & Hlast).
  split; [exact Hnd|].
  apply (Hlast [sample_publisher 11] (sample_publisher 12) [] 2%Z).
  - vm_compute. reflexivity.
  - vm_compute. reflexivity.
  - intros ex' Hex. by apply elem_of_nil in Hex.
Defined.

(** X14, witness: the entry of the sample store under "7.mnist". *)
Lemma merged_entries_carry_context_witness :
  ∃ m e,
    run_merged collision_store = Return m
    ∧ dict_get (py "7.mnist") (properties_of m) = Some e
    ∧ ∃ run_id s b,
        dict_get RUN_ID_KEY e = Some (PStr run_id)
        ∧ dict_get STARTED_AT e = Some s
        ∧ dict_get BENCHMARK_KEY e = Some (PStr b).
Proof.
  eexists _, _. split; [vm_compute; reflexivity|].
  split; [vm_compute; reflexivity|].
  destruct (merged_entries_carry_context sample_lower sample_decimal
              sample_isspace sample_limit sample_literal_eval
              sample_fromtimestamp collision_store _ (py "7.mnist") _
              eq_refl eq_refl)
    as (run_id & s & b & Hr & _ & Hs & Hb).
  by exists run_id, s, b.
Defined.

(** X15, witness: "256" is the integer 256, "007" stays a string. *)
Lemma to_pytype_digit_strings_witness :
  run_to_pytype (py "256") = Return (PInt 256)
  ∧ run_to_pytype (py "007") = Return (PStr (py "007")).
Proof.
  assert (Hlen : ∀ s : pystr,
             (length s <=? int_max_str_digits)%nat = true →
             (length s ≤ int_max_str_digits)%nat)
    by (intros s; apply Nat.leb_le).
  split.
  - change (py "256") with (50 :: py "56").
    etransitivity.
    + apply (proj1 (to_pytype_digit_strings sample_lower sample_limit
                      50 (py "56") eq_refl eq_refl
                      (Hlen (50 :: py "56") eq_refl))).
      left. discriminate.
    + vm_compute. reflexivity.
  - change (py "007") with (48 :: py "07").
    apply (proj2 (to_pytype_digit_strings sample_lower sample_limit
                    48 (py "07") eq_refl eq_refl
                    (Hlen (48 :: py "07") eq_refl))); [reflexivity|].
    vm_compute. discriminate.
Defined.

(** X16, witness: the run id "007" is the time stamp 7. *)
Lemma started_at_of_digits_witness :
  run_py_int (py "007") = Some 7%Z
  ∧ run_started_at (py "007") = Return (PDatetime 7).
Proof.
  apply (started_at_of_digits sample_decimal sample_isspace
           sample_fromtimestamp 48 (py "07") eq_refl eq_refl).
  apply Nat.leb_le. reflexivity.
Defined.

(** X17, witness: no sample entry has the property "depth". *)
Lemma make_dataframe_missing_columns_witness :
  run_make_dataframe sample_entries [py "lr"; py "depth"]
  = Raise (KeyError (PList [PStr (py "depth")])).
Proof.
  apply (make_dataframe_missing_columns sample_decimal
           sample_set_index_ambiguous sample_entries
           [py "lr"; py "depth"]).
  - eexists. left.
  - repeat constructor; eexists; vm_compute; reflexivity.
  - vm_compute. discriminate.
Defined.

(** X18, witness: the two artifacts of the sample store have the run
    id "7" and the benchmark name "mnist". *)
Lemma get_benchmark_results_needs_run_id_and_benchmark_witness :
  ∃ r a2r,
    run_get_benchmark_results collision_store = Return r
    ∧ _get_artifact_run_id_map collision_store [1%Z; 2%Z] = Return a2r
    ∧ ∃ run_id evals b entry,
        dict_get 2%Z a2r = Some run_id
        ∧ artifact_evals sample_lower sample_limit
            (sample_artifact 2 (py "0.9")) = Return evals
        ∧ dict_get BENCHMARK_KEY evals = Some (PStr b)
        ∧ dict_get (run_id ++ py "." ++ b) (properties_of r) = Some entry.
Proof.
  eexists.
  destruct (get_benchmark_results_needs_run_id_and_benchmark sample_lower
              sample_decimal sample_isspace sample_limit
              sample_fromtimestamp collision_store _ eq_refl)
    as (a2r & Ha & Hall).
  - apply (bool_decide_unpack _). vm_compute. exact I.
  - exists a2r. split; [vm_compute; reflexivity|]. split; [exact Ha|].
    apply (Hall (sample_artifact 2 (py "0.9"))). right. left.
Defined.

(** X19, witness: "1E5" is read as the number 1e5, and "NaN" comes
    back as a string. *)
Lemma to_pytype_floats_are_number_literals_witness :
  run_to_pytype (py "NaN") = Return (PStr (py "NaN"))
  ∧ run_to_pytype (py "1E5") = Return (PFloat (py "1e5"))
  ∧ ∃ d t, ascii_digit d = true
           ∧ (py "1e5" = d :: t ∨ py "1e5" = 45 :: d :: t).
Proof.
  assert (H : run_to_pytype (py "1E5") = Return (PFloat (py "1e5")))
    by (vm_compute; reflexivity).
  split; [vm_compute; reflexivity|]. split; [exact H|].
  exact (to_pytype_floats_are_number_literals sample_lower sample_limit
           (py "1E5") (py "1e5") eq_refl H).
Defined.
